(** * Dan calculator: the arithmetic evaluator [safe_eval]

    A shallow embedding of [safe_eval] and its inner [_eval] from
    [dan_graphical_calculator.py], together with the part of the Python
    runtime they rest on: the numeric tower behind the functions of the
    [operator] module, the [ast] node classes, and a tokenizer and parser
    for the expression fragment of the grammar that [ast.parse] accepts.

    How the program is read:
    - an [int] is a [Z], a [bool] is a [bool] that counts as 0 or 1, a
      [float] is a binary64 number of [SpecFloat] (one NaN, no payload),
      a [complex] is a pair of floats; a float literal and [repr] of a
      float are correctly rounded conversions between decimal and binary;
    - an exception is a value of [exn]; a computation returns or raises
      ([outcome]);
    - the dict passed as [variables] lives in a heap and is passed by
      reference; [safe_eval] and [_eval] run in a state monad over the
      heap and the log that [logger.debug] writes to;
    - [safe_eval] is parametric in the parser and in the C library
      ([libm]), whose [pow] is not computed here; [evaluate] is
      [safe_eval] on the parser of this file;
    - the numeric operators follow CPython 3.12, with the interpreter as
      it starts: a conversion between [int] and [str] is limited to
      [int_max_str_digits] decimal digits;
    - [_eval] and [safe_eval] are read without the interpreter's limit on
      the depth of recursion; [_eval_within] is [_eval] under that limit,
      and agrees with it on the trees that fit. *)

From Stdlib Require Import ZArith NArith Bool List Ascii String Lia.
From Stdlib Require Import SpecFloat DecimalString DecimalN DecimalFacts.
From stdpp Require Import gmap strings.

Local Open Scope string_scope.
Local Open Scope Z_scope.

(** ** The syntax trees of the [ast] module *)

Module ast.

(** The operators an [ast.BinOp] node can carry, and those of an
    [ast.UnaryOp] node: the subclasses of [ast.operator] and of
    [ast.unaryop]. *)
Inductive operator :=
| Add | Sub | Mult | MatMult | Div | Mod | Pow
| LShift | RShift | BitOr | BitXor | BitAnd | FloorDiv.

Inductive unaryop := Invert | Not | UAdd | USub.

(** The value of an [ast.Constant] node.  A float is a binary64 number as
    [SpecFloat] describes it (one NaN, no payload). *)
Inductive constant :=
| CInt (n : Z)
| CBool (b : bool)
| CFloat (x : spec_float)
| CComplex (re im : spec_float)
| CStr (s : string)
| CNone
| CEllipsis.

(** Expression nodes.  [Other] stands for every node class that has no
    constructor of its own here (Lambda, IfExp, Compare, BoolOp, Dict,
    the comprehensions, ...), under the name of its class. *)
#[warnings="-register-all"]
Inductive expr :=
| BinOp (left : expr) (op : operator) (right : expr)
| UnaryOp (op : unaryop) (operand : expr)
| Name (id : string)
| Constant (value : constant)
| Call (func : expr) (args : list expr)
| Attribute (value : expr) (attr : string)
| Subscript (value : expr) (slice : expr)
| List (elts : list expr)
| Tuple (elts : list expr)
| Other (cls : string) (children : list expr).

(** [type(node.op)]: the class of a binary or of a unary operator. *)
Inductive op_class :=
| BinClass (o : operator)
| UnClass (u : unaryop).

End ast.

(** ** Exceptions and outcomes *)

(** The four messages [_eval] formats into its [ValueError]s, kept as data:
    "Operator {op_type} is not allowed", "Unary operator {op_type} is not
    allowed", "Use of undefined variable '{node.id}'" and "Unsupported
    expression element: {ast.dump(node)}"; and the message of the
    [ValueError] that [str] raises on an [int] of too many digits,
    "Exceeds the limit (4300 digits) for integer string conversion". *)
Inductive message :=
| OperatorNotAllowed (op_type : ast.op_class)
| UnaryOperatorNotAllowed (op_type : ast.op_class)
| UndefinedVariable (id : string)
| UnsupportedElement (node : ast.expr)
| ExceedsDigitLimit.

Inductive exn :=
| SyntaxError
| ValueError (msg : message)
| ZeroDivisionError
| OverflowError
| TypeError
| KeyError
| RecursionError.

Inductive outcome (A : Type) :=
| Return (a : A)
| Raise (e : exn).
Arguments Return {A} a.
Arguments Raise {A} e.

Definition obind {A B} (x : outcome A) (k : A -> outcome B) : outcome B :=
  match x with
  | Return a => k a
  | Raise e => Raise e
  end.

Notation "x <~ c ;; k" := (obind c (fun x => k))
  (at level 100, c at next level, right associativity).

(** ** Binary64 arithmetic *)

Abbreviation float := spec_float.

Definition prec : Z := 53.
Definition emax : Z := 1024.

Definition fadd : float -> float -> float := SFadd prec emax.
Definition fsub : float -> float -> float := SFsub prec emax.
Definition fmul : float -> float -> float := SFmul prec emax.
Definition fdiv : float -> float -> float := SFdiv prec emax.
Definition fneg : float -> float := SFopp.
Definition fabs : float -> float := SFabs.
Definition feqb : float -> float -> bool := SFeqb.
Definition fltb : float -> float -> bool := SFltb.
Definition fleb : float -> float -> bool := SFleb.

Definition fzero : float := S754_zero false.
Definition fone : float := S754_finite false 4503599627370496 (-52).
Definition finf : float := S754_infinity false.
Definition fnan : float := S754_nan.

Definition is_nan (x : float) : bool :=
  match x with S754_nan => true | _ => false end.

Definition is_inf (x : float) : bool :=
  match x with S754_infinity _ => true | _ => false end.

Definition is_finite (x : float) : bool :=
  match x with S754_zero _ | S754_finite _ _ _ => true | _ => false end.

Definition sign_bit (x : float) : bool :=
  match x with
  | S754_zero s | S754_infinity s | S754_finite s _ _ => s
  | S754_nan => false
  end.

(** The nearest float to an integer, ties to even (infinite past the
    largest float). *)
Definition float_of_Z (n : Z) : float := binary_normalize prec emax n 0 false.

(** The correctly rounded quotient of two integers, [b] not zero. *)
Definition float_of_quotient (a b : Z) : float :=
  match a, b with
  | Z0, _ => S754_zero (b <? 0)
  | _, Z0 => S754_nan
  | Zpos p, Zpos q => SFdiv prec emax (S754_finite false p 0) (S754_finite false q 0)
  | Zpos p, Zneg q => SFdiv prec emax (S754_finite false p 0) (S754_finite true q 0)
  | Zneg p, Zpos q => SFdiv prec emax (S754_finite true p 0) (S754_finite false q 0)
  | Zneg p, Zneg q => SFdiv prec emax (S754_finite true p 0) (S754_finite true q 0)
  end.

(** [n / (d * 2 ^ e)] as a fraction of two integers, for an exponent of
    either sign. *)
Definition scale2 (n d e : Z) : Z * Z :=
  if 0 <=? e then (n, d * 2 ^ e) else (n * 2 ^ (- e), d).

(** The binade of [n / d], both positive: the [e] with
    [2 ^ e <= n / d < 2 ^ (e + 1)]. *)
Definition binade (n d : Z) : Z :=
  let l := Z.log2 n - Z.log2 d in
  let '(a, b) := scale2 n d l in
  if b <=? a then l else l - 1.

(** The float nearest to [n / d], both positive, ties to even: the
    significand is the quotient by the unit in the last place, rounded,
    and a quotient too large for the format is infinite. *)
Definition nearest_float (n d : Z) : float :=
  let e := Z.max (binade n d - 52) (-1074) in
  let '(a, b) := scale2 n d e in
  let q := a / b in
  let q :=
    match 2 * a ?= (2 * q + 1) * b with
    | Lt => q
    | Gt => q + 1
    | Eq => if Z.even q then q else q + 1
    end in
  let '(q, e) := if q =? 2 ^ 53 then (2 ^ 52, e + 1) else (q, e) in
  match q with
  | Zpos m => if 971 <? e then S754_infinity false else S754_finite false m e
  | _ => S754_zero false
  end.

(** [x == floor(x)] in C, for [x] not a NaN. *)
Definition is_integral (x : float) : bool :=
  match x with
  | S754_finite _ m e =>
      if 0 <=? e then true else (Z.pos m mod 2 ^ (- e) =? 0)
  | S754_nan => false
  | _ => true
  end.

(** [DOUBLE_IS_ODD_INTEGER(x)]: [fmod(fabs(x), 2.0) == 1.0]. *)
Definition is_odd_integer (x : float) : bool :=
  match x with
  | S754_finite _ m e =>
      if 0 <? e then false
      else (Z.pos m mod 2 ^ (- e) =? 0) && Z.odd (Z.pos m / 2 ^ (- e))
  | _ => false
  end.

(** The exact value of a finite float as a fraction [(n, d)], [d > 0]. *)
Definition float_fraction (x : float) : option (Z * Z) :=
  match x with
  | S754_zero _ => Some (0, 1)
  | S754_finite s m e =>
      let n := if s then Z.neg m else Z.pos m in
      Some (if 0 <=? e then (n * 2 ^ e, 1) else (n, 2 ^ (- e)))
  | _ => None
  end.

(** ** Python numbers *)

(** The objects [_eval] can return: an [int], a [bool] (a subclass of
    [int]), a [float], or the [complex] that a power can produce. *)
Inductive value :=
| VInt (n : Z)
| VBool (b : bool)
| VFloat (x : float)
| VComplex (re im : float).

Abbreviation complex := (float * float)%type.

(** The C library under the interpreter.  [pow] is libm's [pow]; [cpow] is
    the polar-form branch of CPython's [_Py_c_pow], a composition of libm's
    [hypot], [pow], [atan2], [exp], [log], [cos] and [sin].  Nothing is
    assumed of either. *)
Record libm := {
  pow : float -> float -> float;
  cpow : complex -> complex -> complex;
}.

Definition int_value (v : value) : option Z :=
  match v with
  | VInt n => Some n
  | VBool b => Some (Z.b2z b)
  | _ => None
  end.

(** [PyLong_AsDouble]. *)
Definition float_of_int (n : Z) : outcome float :=
  let x := float_of_Z n in
  if is_inf x then Raise OverflowError else Return x.

Definition to_float (v : value) : outcome float :=
  match v with
  | VInt n => float_of_int n
  | VBool b => float_of_int (Z.b2z b)
  | VFloat x => Return x
  | VComplex _ _ => Raise TypeError
  end.

Definition to_complex (v : value) : outcome complex :=
  match v with
  | VComplex re im => Return (re, im)
  | _ => x <~ to_float v ;; Return (x, fzero)
  end.

Definition is_complex (v : value) : bool :=
  match v with VComplex _ _ => true | _ => false end.

(** Binary dispatch over the numeric tower: both operands integers, else
    one of them complex, else floats. *)
Definition coerce (on_int : Z -> Z -> outcome value)
    (on_float : float -> float -> outcome value)
    (on_complex : complex -> complex -> outcome value)
    (a b : value) : outcome value :=
  match int_value a, int_value b with
  | Some m, Some n => on_int m n
  | _, _ =>
      if is_complex a || is_complex b then
        x <~ to_complex a ;; y <~ to_complex b ;; on_complex x y
      else
        x <~ to_float a ;; y <~ to_float b ;; on_float x y
  end.

Definition of_complex (c : complex) : value := VComplex (fst c) (snd c).

Definition c_sum (a b : complex) : complex :=
  (fadd (fst a) (fst b), fadd (snd a) (snd b)).

Definition c_diff (a b : complex) : complex :=
  (fsub (fst a) (fst b), fsub (snd a) (snd b)).

Definition c_prod (a b : complex) : complex :=
  (fsub (fmul (fst a) (fst b)) (fmul (snd a) (snd b)),
   fadd (fmul (fst a) (snd b)) (fmul (snd a) (fst b))).

(** [_Py_c_quot]; [None] is [errno = EDOM]. *)
Definition c_quot (a b : complex) : option complex :=
  let abs_breal := if fltb (fst b) fzero then fneg (fst b) else fst b in
  let abs_bimag := if fltb (snd b) fzero then fneg (snd b) else snd b in
  if fleb abs_bimag abs_breal then
    if feqb abs_breal fzero then None
    else
      let ratio := fdiv (snd b) (fst b) in
      let denom := fadd (fst b) (fmul (snd b) ratio) in
      Some (fdiv (fadd (fst a) (fmul (snd a) ratio)) denom,
            fdiv (fsub (snd a) (fmul (fst a) ratio)) denom)
  else if fleb abs_breal abs_bimag then
    let ratio := fdiv (fst b) (snd b) in
    let denom := fadd (fmul (fst b) ratio) (snd b) in
    Some (fdiv (fadd (fmul (fst a) ratio) (snd a)) denom,
          fdiv (fsub (fmul (snd a) ratio) (fst a)) denom)
  else Some (fnan, fnan).

Definition c_1 : complex := (fone, fzero).

(** [c_powu]: binary exponentiation, lowest bit first. *)
Fixpoint c_powu_loop (bits : nat) (n : Z) (r p : complex) : complex :=
  match bits with
  | O => r
  | S bits =>
      if n =? 0 then r
      else c_powu_loop bits (n / 2) (if Z.odd n then c_prod r p else r) (c_prod p p)
  end.

Definition c_powu (x : complex) (n : Z) : complex :=
  c_powu_loop (Z.to_nat (Z.log2 n + 1)) n c_1 x.

Definition c_powi (x : complex) (n : Z) : option complex :=
  if 0 <? n then Some (c_powu x n) else c_quot c_1 (c_powu x (- n)).

(** The integer a float with an integral value stands for. *)
Definition integral_value (x : float) : Z :=
  match float_fraction x with
  | Some (n, d) => n / d
  | None => 0
  end.

Definition c_is_zero (c : complex) : bool :=
  feqb (fst c) fzero && feqb (snd c) fzero.

Section Numbers.

Variable m : libm.

(** [complex.__pow__]. *)
Definition complex_pow (a b : complex) : outcome value :=
  let small_int :=
    feqb (snd b) fzero && is_integral (fst b) && fleb (fabs (fst b)) (float_of_Z 100) in
  let result :=
    if small_int then c_powi a (integral_value (fst b))
    else if c_is_zero b then Some c_1
    else if c_is_zero a then
      if negb (feqb (snd b) fzero) || fltb (fst b) fzero then None
      else Some (fzero, fzero)
    else Some (cpow m a b) in
  match result with
  | None => Raise ZeroDivisionError
  | Some p =>
      if is_inf (fst p) || is_inf (snd p) then Raise OverflowError
      else Return (of_complex p)
  end.

(** [float.__pow__]: the special cases CPython settles itself, then libm.
    A negative base with a fractional exponent is handed to
    [complex.__pow__]. *)
Definition float_pow (iv iw : float) : outcome value :=
  if feqb iw fzero then Return (VFloat fone)
  else if is_nan iv then Return (VFloat iv)
  else if is_nan iw then Return (VFloat (if feqb iv fone then fone else iw))
  else if is_inf iw then
    let iv := fabs iv in
    if feqb iv fone then Return (VFloat fone)
    else if eqb (fltb fzero iw) (fltb fone iv) then Return (VFloat (fabs iw))
    else Return (VFloat fzero)
  else if is_inf iv then
    let iw_is_odd := is_odd_integer iw in
    if fltb fzero iw then Return (VFloat (if iw_is_odd then iv else fabs iv))
    else Return (VFloat (if iw_is_odd then S754_zero (sign_bit iv) else fzero))
  else if feqb iv fzero then
    if fltb iw fzero then Raise ZeroDivisionError
    else Return (VFloat (if is_odd_integer iw then iv else fzero))
  else if fltb iv fzero && negb (is_integral iw) then
    complex_pow (iv, fzero) (iw, fzero)
  else
    let negate_result := fltb iv fzero && is_odd_integer iw in
    let iv := if fltb iv fzero then fneg iv else iv in
    if feqb iv fone then Return (VFloat (if negate_result then fneg fone else fone))
    else
      let ix := pow m iv iw in
      if is_inf ix then Raise OverflowError
      else Return (VFloat (if negate_result then fneg ix else ix)).

(** [int.__pow__]: exact for an exponent that is not negative, a float
    power otherwise. *)
Definition int_pow (a b : Z) : outcome value :=
  if 0 <=? b then Return (VInt (a ^ b))
  else x <~ float_of_int a ;; y <~ float_of_int b ;; float_pow x y.

(** [int.__truediv__]. *)
Definition int_true_divide (a b : Z) : outcome value :=
  if b =? 0 then Raise ZeroDivisionError
  else
    let q := float_of_quotient a b in
    if is_inf q then Raise OverflowError else Return (VFloat q).

(** [float.__truediv__]. *)
Definition float_div (a b : float) : outcome value :=
  if feqb b fzero then Raise ZeroDivisionError else Return (VFloat (fdiv a b)).

(** [complex.__truediv__]. *)
Definition complex_div (a b : complex) : outcome value :=
  match c_quot a b with
  | None => Raise ZeroDivisionError
  | Some q => Return (of_complex q)
  end.

End Numbers.

(** ** The [operator] module *)

Module operator.

(** The function objects [_ALLOWED_OPERATORS] maps to. *)
Inductive function := add | sub | mul | truediv | pow | neg.

Definition binary (m : libm) (f : function) (a b : value) : outcome value :=
  match f with
  | add =>
      coerce (fun x y => Return (VInt (x + y)))
             (fun x y => Return (VFloat (fadd x y)))
             (fun x y => Return (of_complex (c_sum x y))) a b
  | sub =>
      coerce (fun x y => Return (VInt (x - y)))
             (fun x y => Return (VFloat (fsub x y)))
             (fun x y => Return (of_complex (c_diff x y))) a b
  | mul =>
      coerce (fun x y => Return (VInt (x * y)))
             (fun x y => Return (VFloat (fmul x y)))
             (fun x y => Return (of_complex (c_prod x y))) a b
  | truediv => coerce int_true_divide float_div complex_div a b
  | pow => coerce (int_pow m) (float_pow m) (complex_pow m) a b
  | neg => Raise TypeError
  end.

Definition unary (f : function) (a : value) : outcome value :=
  match f with
  | neg =>
      match a with
      | VInt n => Return (VInt (- n))
      | VBool b => Return (VInt (- Z.b2z b))
      | VFloat x => Return (VFloat (fneg x))
      | VComplex re im => Return (VComplex (fneg re) (fneg im))
      end
  | _ => Raise TypeError
  end.

(** A call of [f] on [args].  A wrong number of arguments is a
    [TypeError]. *)
Definition call (m : libm) (f : function) (args : list value) : outcome value :=
  match args with
  | [a] => unary f a
  | [a; b] => binary m f a b
  | _ => Raise TypeError
  end.

End operator.

(** ** Equality of numbers: Python's [==] *)

(** An integer against a float: equal when the float is finite and its
    exact value is that integer. *)
Definition int_eq_float (n : Z) (x : float) : bool :=
  match float_fraction x with
  | Some (p, q) => p =? n * q
  | None => false
  end.

Definition py_eq (a b : value) : bool :=
  match a, b with
  | VComplex re im, VComplex re' im' => feqb re re' && feqb im im'
  | VComplex re im, VFloat x | VFloat x, VComplex re im => feqb re x && feqb im fzero
  | VComplex re im, _ =>
      match int_value b with
      | Some n => int_eq_float n re && feqb im fzero
      | None => false
      end
  | _, VComplex re im =>
      match int_value a with
      | Some n => int_eq_float n re && feqb im fzero
      | None => false
      end
  | VFloat x, VFloat y => feqb x y
  | VFloat x, _ =>
      match int_value b with Some n => int_eq_float n x | None => false end
  | _, VFloat x =>
      match int_value a with Some n => int_eq_float n x | None => false end
  | _, _ =>
      match int_value a, int_value b with
      | Some p, Some q => p =? q
      | _, _ => false
      end
  end.

(** ** The interpreter's state *)

(** A [dict] object lives in the heap and is passed by reference; the log
    is what the handlers of [logger] have written so far. *)
Abbreviation loc := positive.
Abbreviation dict := (gmap string value).

Record world := World {
  heap : gmap loc dict;
  log : list (string * dict);
}.

(** A computation: it reads and writes the world, and returns or raises. *)
Definition M (A : Type) : Type := world -> outcome A * world.

Definition ret {A} (a : A) : M A := fun w => (Return a, w).

Definition raise {A} (e : exn) : M A := fun w => (Raise e, w).

Definition bind {A B} (c : M A) (k : A -> M B) : M B :=
  fun w =>
    match c w with
    | (Return a, w') => k a w'
    | (Raise e, w') => (Raise e, w')
    end.

Definition lift {A} (x : outcome A) : M A := fun w => (x, w).

Notation "x <- c ;; k" := (bind c (fun x => k))
  (at level 100, c at next level, right associativity).
Notation "c ;;; k" := (bind c (fun _ => k))
  (at level 100, right associativity).

(** The contents of the dict at [d] (an address that holds nothing reads
    as an empty dict). *)
Definition deref (w : world) (d : loc) : dict := default ∅ (heap w !! d).

(** [key in d]. *)
Definition dict_contains (d : loc) (key : string) : M bool :=
  fun w => (Return (bool_decide (is_Some (deref w d !! key))), w).

(** [d[key]]. *)
Definition dict_getitem (d : loc) (key : string) : M value :=
  fun w =>
    match deref w d !! key with
    | Some v => (Return v, w)
    | None => (Raise KeyError, w)
    end.

(** The display [{}]: a new, empty dict. *)
Definition new_dict : M loc :=
  fun w =>
    let d := fresh (dom (heap w)) in
    (Return d, World (<[d := ∅]> (heap w)) (log w)).

(** [variables or {}]: [None] and the empty dict are false. *)
Definition or_new_dict (variables : option loc) : M loc :=
  fun w =>
    match variables with
    | Some d =>
        if bool_decide (deref w d = ∅) then new_dict w else (Return d, w)
    | None => new_dict w
    end.

(** [logger.debug(..., expression, variables)]: the logger's level is DEBUG
    and it has its two handlers, so the record is formatted and written. *)
Definition logger_debug (expression : string) (variables : loc) : M unit :=
  fun w => (Return tt, World (heap w) (log w ++ [(expression, deref w variables)])).

(** ** The evaluator *)

#[global] Instance operator_eq_dec : EqDecision ast.operator.
Proof. solve_decision. Defined.

#[global] Instance unaryop_eq_dec : EqDecision ast.unaryop.
Proof. solve_decision. Defined.

#[global] Instance op_class_eq_dec : EqDecision ast.op_class.
Proof. solve_decision. Defined.

(** Allowed operators for safe evaluation. *)
Definition _ALLOWED_OPERATORS : list (ast.op_class * operator.function) :=
  [ (ast.BinClass ast.Add, operator.add);
    (ast.BinClass ast.Sub, operator.sub);
    (ast.BinClass ast.Mult, operator.mul);
    (ast.BinClass ast.Div, operator.truediv);
    (ast.BinClass ast.Pow, operator.pow);
    (ast.UnClass ast.USub, operator.neg) ].

(** [table[key]] on a dict literal. *)
Fixpoint getitem (table : list (ast.op_class * operator.function))
    (key : ast.op_class) : option operator.function :=
  match table with
  | [] => None
  | (k, f) :: table => if bool_decide (k = key) then Some f else getitem table key
  end.

(** [key in table]. *)
Definition contains (table : list (ast.op_class * operator.function))
    (key : ast.op_class) : bool :=
  bool_decide (is_Some (getitem table key)).

Section Evaluator.

(** [ast.parse(expression, mode="eval").body], and the C library. *)
Variable ast_parse : string -> outcome ast.expr.
Variable m : libm.

Definition apply (op_type : ast.op_class) (args : list value) : M value :=
  match getitem _ALLOWED_OPERATORS op_type with
  | Some f => lift (operator.call m f args)
  | None => raise KeyError
  end.

Fixpoint _eval (variables : loc) (node : ast.expr) : M value :=
  match node with
  | ast.BinOp node_left op node_right =>
      let op_type := ast.BinClass op in
      if contains _ALLOWED_OPERATORS op_type then
        left <- _eval variables node_left ;;
        right <- _eval variables node_right ;;
        apply op_type [left; right]
      else raise (ValueError (OperatorNotAllowed op_type))
  | ast.UnaryOp op operand =>
      let op_type := ast.UnClass op in
      if contains _ALLOWED_OPERATORS op_type then
        operand <- _eval variables operand ;;
        apply op_type [operand]
      else raise (ValueError (UnaryOperatorNotAllowed op_type))
  | ast.Name id =>
      present <- dict_contains variables id ;;
      if present then dict_getitem variables id
      else raise (ValueError (UndefinedVariable id))
  | ast.Constant (ast.CInt n) => ret (VInt n)
  | ast.Constant (ast.CBool b) => ret (VBool b)
  | ast.Constant (ast.CFloat x) => ret (VFloat x)
  | _ => raise (ValueError (UnsupportedElement node))
  end.

Definition safe_eval (expression : string) (variables : option loc) : M value :=
  variables <- or_new_dict variables ;;
  logger_debug expression variables ;;;
  tree <- lift (ast_parse expression) ;;
  _eval variables tree.

End Evaluator.

(** ** The tokenizer

    A model of the tokenizer behind [ast.parse] on ASCII input: blanks
    (a form feed among them), comments, line joining inside brackets and
    after a backslash, at most [max_level] nested brackets, names,
    decimal, hexadecimal, octal and binary integers, floats and imaginary
    numbers (with underscores), plainly quoted strings, and the operators
    and delimiters.  Input outside this fragment (a byte past 127, a
    string prefix, a triple quote, a numeric escape) is answered with
    [SyntaxError]. *)

Inductive token :=
| NAME (s : string)
| NUMBER (value : ast.constant)
| STRING (s : string)
| NEWLINE
| ELLIPSIS
| LPAR | RPAR | LSQB | RSQB | COMMA | SEMI | DOT
| PLUS | MINUS | STAR | SLASH | VBAR | AMPER | TILDE | CIRCUMFLEX
| PERCENT | AT | DOUBLESTAR | DOUBLESLASH | LEFTSHIFT | RIGHTSHIFT
| OP (c : ascii).

Definition code (c : ascii) : N := N_of_ascii c.

Definition is_digit (c : ascii) : bool :=
  ((48 <=? code c) && (code c <=? 57))%N.

Definition is_letter (c : ascii) : bool :=
  (((65 <=? code c) && (code c <=? 90)) || ((97 <=? code c) && (code c <=? 122)))%N.

Definition is_name_start (c : ascii) : bool :=
  is_letter c || (c =? "_")%char.

Definition is_name_char (c : ascii) : bool :=
  is_name_start c || is_digit c.

(** Space, tab and form feed. *)
Definition is_blank (c : ascii) : bool :=
  ((code c =? 32) || (code c =? 9) || (code c =? 12))%N.

(** Line feed and carriage return. *)
Definition is_newline (c : ascii) : bool :=
  ((code c =? 10) || (code c =? 13))%N.

Fixpoint span (p : ascii -> bool) (s : string) : string * string :=
  match s with
  | String c s' =>
      if p c then let '(a, b) := span p s' in (String c a, b) else ("", s)
  | EmptyString => ("", s)
  end.

(** [digit (["_"] digit)*]: the digits read, without the underscores, and
    what follows them. *)
Fixpoint digitpart (digit : ascii -> bool) (s : string) : string * string :=
  match s with
  | String c s' =>
      if digit c then
        let '(ds, rest) :=
          match s' with
          | String c' s'' =>
              if (c' =? "_")%char then
                match s'' with
                | String c'' _ => if digit c'' then digitpart digit s'' else ("", s')
                | EmptyString => ("", s')
                end
              else digitpart digit s'
          | EmptyString => ("", s')
          end in
        (String c ds, rest)
      else ("", s)
  | EmptyString => ("", s)
  end.

(** The number a string of decimal digits writes. *)
Definition decimal_value (ds : string) : N :=
  match NilEmpty.uint_of_string ds with
  | Some u => N.of_uint u
  | None => 0
  end.

Definition digit_value (c : ascii) : N :=
  (if is_digit c then code c - 48
   else if (97 <=? code c) then code c - 87
   else code c - 55)%N.

Definition is_radix_digit (base : N) (c : ascii) : bool :=
  (is_digit c || is_letter c) && (digit_value c <? base)%N.

Fixpoint radix_value (base acc : N) (ds : string) : N :=
  match ds with
  | String c ds => radix_value base (acc * base + digit_value c)%N ds
  | EmptyString => acc
  end.

(** [mant * 10 ^ e10] as a fraction of two integers. *)
Definition decimal_fraction (mant e10 : Z) : Z * Z :=
  if 0 <=? e10 then (mant * 10 ^ e10, 1) else (mant, 10 ^ (- e10)).

(** The float nearest to [mant * 10 ^ e10]: the value of a float
    literal. *)
Definition decimal_to_float (mant : N) (e10 : Z) : float :=
  match mant with
  | N0 => S754_zero false
  | Npos _ =>
      let '(n, d) := decimal_fraction (Z.of_N mant) e10 in nearest_float n d
  end.

(** The most decimal digits a conversion between [int] and [str] takes:
    [sys.get_int_max_str_digits()] as the interpreter starts. *)
Definition int_max_str_digits : nat := 4300.

Definition all_zeros (ds : string) : bool :=
  match span (fun c => (c =? "0")%char) ds with
  | (_, EmptyString) => true
  | _ => false
  end.

Definition starts_with_name_char (s : string) : bool :=
  match s with
  | String c _ => is_name_char c
  | EmptyString => false
  end.

(** An integer literal with a radix prefix; [s] follows the prefix. *)
Definition radix_number (base : N) (s : string) : outcome (token * string) :=
  let s := match s with
           | String c s' => if (c =? "_")%char then s' else s
           | EmptyString => s
           end in
  match digitpart (is_radix_digit base) s with
  | (EmptyString, _) => Raise SyntaxError
  | (ds, rest) =>
      if starts_with_name_char rest then Raise SyntaxError
      else Return (NUMBER (ast.CInt (Z.of_N (radix_value base 0 ds))), rest)
  end.

(** The exponent of a float literal: [None] when there is none, and
    otherwise its value and what follows, or an error. *)
Definition exponent (s : string) : option (outcome (Z * string)) :=
  match s with
  | String c s' =>
      if (c =? "e")%char || (c =? "E")%char then
        let '(negative, s'') :=
          match s' with
          | String sg t =>
              if (sg =? "-")%char then (true, t)
              else if (sg =? "+")%char then (false, t)
              else (false, s')
          | EmptyString => (false, s')
          end in
        match digitpart is_digit s'' with
        | (EmptyString, _) => Some (Raise SyntaxError)
        | (ds, rest) =>
            let e := Z.of_N (decimal_value ds) in
            Some (Return (if negative then - e else e, rest))
        end
      else None
  | EmptyString => None
  end.

(** A decimal literal: an integer, a float or an imaginary number.  [s]
    starts with a digit, or with a point that a digit follows.  An
    integer of more than [int_max_str_digits] digits is a syntax error,
    and so is one that starts with a zero and is not zero. *)
Definition decimal_number (s : string) : outcome (token * string) :=
  let '(intpart, r1) := digitpart is_digit s in
  let '(point, fraction, r2) :=
    match r1 with
    | String c t =>
        if (c =? ".")%char then
          let '(ds, r) := digitpart is_digit t in (true, ds, r)
        else (false, "", r1)
    | EmptyString => (false, "", r1)
    end in
  e <~ match exponent r2 with
       | Some e => x <~ e ;; Return (true, fst x, snd x)
       | None => Return (false, 0, r2)
       end ;;
  let '(scaled, e10, r3) := e in
  let is_float := point || scaled in
  let as_float :=
    decimal_to_float (decimal_value (intpart ++ fraction))
      (e10 - Z.of_nat (String.length fraction)) in
  let '(imaginary, r4) :=
    match r3 with
    | String c t =>
        if (c =? "j")%char || (c =? "J")%char then (true, t) else (false, r3)
    | EmptyString => (false, r3)
    end in
  if starts_with_name_char r4 then Raise SyntaxError
  else if imaginary then Return (NUMBER (ast.CComplex fzero as_float), r4)
  else if is_float then Return (NUMBER (ast.CFloat as_float), r4)
  else
    match intpart with
    | String c (String _ _) =>
        if all_zeros intpart then Return (NUMBER (ast.CInt 0), r4)
        else if (c =? "0")%char then Raise SyntaxError
        else if (int_max_str_digits <? String.length intpart)%nat then Raise SyntaxError
        else Return (NUMBER (ast.CInt (Z.of_N (decimal_value intpart))), r4)
    | _ => Return (NUMBER (ast.CInt (Z.of_N (decimal_value intpart))), r4)
    end.

Definition number (s : string) : outcome (token * string) :=
  match s with
  | String c (String x s') =>
      if (c =? "0")%char then
        if (x =? "x")%char || (x =? "X")%char then radix_number 16 s'
        else if (x =? "o")%char || (x =? "O")%char then radix_number 8 s'
        else if (x =? "b")%char || (x =? "B")%char then radix_number 2 s'
        else decimal_number s
      else decimal_number s
  | _ => decimal_number s
  end.

(** The body of a string literal opened by [quote], up to the closing
    quote. *)
Fixpoint string_body (quote : ascii) (s : string) : outcome (string * string) :=
  match s with
  | EmptyString => Raise SyntaxError
  | String c s' =>
      if (c =? quote)%char then Return ("", s')
      else if is_newline c then Raise SyntaxError
      else if (128 <=? code c)%N then Raise SyntaxError
      else if (c =? "\")%char then
        match s' with
        | EmptyString => Raise SyntaxError
        | String e s'' =>
            let continue (text : string) :=
              r <~ string_body quote s'' ;; Return (text ++ fst r, snd r) in
            if (e =? "\")%char || (e =? "'")%char || (code e =? 34)%N
            then continue (String e "")
            else if (e =? "n")%char then continue (String (ascii_of_N 10) "")
            else if (e =? "t")%char then continue (String (ascii_of_N 9) "")
            else if (e =? "r")%char then continue (String (ascii_of_N 13) "")
            else if (e =? "a")%char then continue (String (ascii_of_N 7) "")
            else if (e =? "b")%char then continue (String (ascii_of_N 8) "")
            else if (e =? "f")%char then continue (String (ascii_of_N 12) "")
            else if (e =? "v")%char then continue (String (ascii_of_N 11) "")
            else if (code e =? 10)%N then continue ""
            else if is_digit e || (e =? "x")%char || (e =? "N")%char
                    || (e =? "u")%char || (e =? "U")%char || (128 <=? code e)%N
                    || (code e =? 13)%N
            then Raise SyntaxError
            else continue (String c (String e ""))
        end
      else r <~ string_body quote s' ;; Return (String c (fst r), snd r)
  end.

Definition string_literal (quote : ascii) (s : string) : outcome (token * string) :=
  match s with
  | String a (String b _) =>
      if (a =? quote)%char && (b =? quote)%char then Raise SyntaxError
      else r <~ string_body quote s ;; Return (STRING (fst r), snd r)
  | _ => r <~ string_body quote s ;; Return (STRING (fst r), snd r)
  end.

(** An operator or a delimiter that starts with [c]. *)
Definition punctuation (c : ascii) (s' : string) : outcome (token * string) :=
  let next := match s' with String d _ => Some d | EmptyString => None end in
  let tail := match s' with String _ t => t | EmptyString => s' end in
  let twice := match next with Some d => (d =? c)%char | None => false end in
  if (c =? "(")%char then Return (LPAR, s')
  else if (c =? ")")%char then Return (RPAR, s')
  else if (c =? "[")%char then Return (LSQB, s')
  else if (c =? "]")%char then Return (RSQB, s')
  else if (c =? ",")%char then Return (COMMA, s')
  else if (c =? ";")%char then Return (SEMI, s')
  else if (c =? "+")%char then Return (PLUS, s')
  else if (c =? "-")%char then Return (MINUS, s')
  else if (c =? "*")%char then
    if twice then Return (DOUBLESTAR, tail) else Return (STAR, s')
  else if (c =? "/")%char then
    if twice then Return (DOUBLESLASH, tail) else Return (SLASH, s')
  else if (c =? "<")%char then
    if twice then Return (LEFTSHIFT, tail) else Return (OP c, s')
  else if (c =? ">")%char then
    if twice then Return (RIGHTSHIFT, tail) else Return (OP c, s')
  else if (c =? "|")%char then Return (VBAR, s')
  else if (c =? "&")%char then Return (AMPER, s')
  else if (c =? "~")%char then Return (TILDE, s')
  else if (c =? "^")%char then Return (CIRCUMFLEX, s')
  else if (c =? "%")%char then Return (PERCENT, s')
  else if (c =? "@")%char then Return (AT, s')
  else if (c =? ".")%char then
    match s' with
    | String p (String q t) =>
        if (p =? ".")%char && (q =? ".")%char then Return (ELLIPSIS, t)
        else Return (DOT, s')
    | _ => Return (DOT, s')
    end
  else if (c =? "=")%char || (c =? "!")%char || (c =? ":")%char
          || (c =? "{")%char || (c =? "}")%char
  then Return (OP c, s')
  else Raise SyntaxError.

Definition opens (t : token) : bool :=
  match t with LPAR | LSQB => true | OP c => (c =? "{")%char | _ => false end.

Definition closes (t : token) : bool :=
  match t with RPAR | RSQB => true | OP c => (c =? "}")%char | _ => false end.

(** The column that a line's leading blanks end at, and what follows
    them: a form feed starts the count again. *)
Fixpoint indentation (col : nat) (s : string) : nat * string :=
  match s with
  | String c s' =>
      if is_blank c then indentation (if (code c =? 12)%N then O else S col) s'
      else (col, s)
  | EmptyString => (col, s)
  end.

(** The most brackets that can be open at once: [MAXLEVEL]. *)
Definition max_level : nat := 200.

(** The tokens of [s].  [bol] says that [s] starts a line, [depth] counts
    the brackets that are open. *)
Fixpoint tokens (fuel : nat) (bol : bool) (depth : nat) (s : string)
    : outcome (list token) :=
  match fuel with
  | O => Raise SyntaxError
  | S fuel =>
      if bol then
        let '(indent, rest) := indentation 0 s in
        match rest with
        | EmptyString => Return []
        | String c rest' =>
            if is_newline c then tokens fuel true depth rest'
            else if (c =? "#")%char then
              tokens fuel true depth (snd (span (fun c => negb (is_newline c)) rest'))
            else
              match indent with
              | O => tokens fuel false depth rest
              | S _ => Raise SyntaxError
              end
        end
      else
        match s with
        | EmptyString => Return []
        | String c s' =>
            if is_blank c then tokens fuel false depth s'
            else if (c =? "#")%char then
              tokens fuel false depth (snd (span (fun c => negb (is_newline c)) s'))
            else if is_newline c then
              match depth with
              | O => ts <~ tokens fuel true depth s' ;; Return (NEWLINE :: ts)
              | S _ => tokens fuel false depth s'
              end
            else if (c =? "\")%char then
              match s' with
              | String n s'' =>
                  if is_newline n then tokens fuel false depth s''
                  else Raise SyntaxError
              | EmptyString => Raise SyntaxError
              end
            else
              r <~ (if is_digit c then number s
                    else if (c =? ".")%char
                            && match s' with String d _ => is_digit d | _ => false end
                    then number s
                    else if is_name_start c then
                      let '(name, rest) := span is_name_char s in
                      Return (NAME name, rest)
                    else if (c =? "'")%char || (code c =? 34)%N then string_literal c s'
                    else punctuation c s') ;;
              if opens (fst r) && (max_level <=? depth)%nat then Raise SyntaxError
              else
                let depth :=
                  if opens (fst r) then S depth
                  else if closes (fst r) then Nat.pred depth
                  else depth in
                ts <~ tokens fuel false depth (snd r) ;;
                Return (fst r :: ts)
        end
  end.

Definition tokenize (s : string) : outcome (list token) :=
  tokens (2 * String.length s + 2) true 0 s.

(** ** The parser

    A model of [ast.parse(expression, mode="eval").body] on the part of the
    expression grammar made of atoms (names, numbers, strings, the three
    constant keywords, the ellipsis, parenthesised groups, tuples and list
    displays), trailers (attribute, call on positional arguments,
    subscript by an expression), the power, the unary and binary
    arithmetic and bitwise operators, and the top-level tuple.  An input
    outside this fragment is answered with [SyntaxError]; the
    [RecursionError] and [MemoryError] of [ast.parse] on an input nested
    thousands of levels deep are outside it as well. *)

Definition keywords : list string :=
  [ "False"; "None"; "True"; "and"; "as"; "assert"; "async"; "await";
    "break"; "class"; "continue"; "def"; "del"; "elif"; "else"; "except";
    "finally"; "for"; "from"; "global"; "if"; "import"; "in"; "is";
    "lambda"; "nonlocal"; "not"; "or"; "pass"; "raise"; "return"; "try";
    "while"; "with"; "yield" ].

Definition is_keyword (s : string) : bool :=
  existsb (String.eqb s) keywords.

(** The binary operator a token is at a level of the grammar: 1 for
    [term], 2 for [sum], 3 for [shift_expr], 4 for [bitwise_and], 5 for
    [bitwise_xor], 6 for [bitwise_or]. *)
Definition binary_operator (level : nat) (t : token) : option ast.operator :=
  match level, t with
  | 1%nat, STAR => Some ast.Mult
  | 1%nat, SLASH => Some ast.Div
  | 1%nat, DOUBLESLASH => Some ast.FloorDiv
  | 1%nat, PERCENT => Some ast.Mod
  | 1%nat, AT => Some ast.MatMult
  | 2%nat, PLUS => Some ast.Add
  | 2%nat, MINUS => Some ast.Sub
  | 3%nat, LEFTSHIFT => Some ast.LShift
  | 3%nat, RIGHTSHIFT => Some ast.RShift
  | 4%nat, AMPER => Some ast.BitAnd
  | 5%nat, CIRCUMFLEX => Some ast.BitXor
  | 6%nat, VBAR => Some ast.BitOr
  | _, _ => None
  end.

Definition is_rpar (t : token) : bool :=
  match t with RPAR => true | _ => false end.

Definition is_rsqb (t : token) : bool :=
  match t with RSQB => true | _ => false end.

(** Adjacent string literals are one constant. *)
Fixpoint strings (ts : list token) : string * list token :=
  match ts with
  | STRING s :: ts => let '(rest, ts') := strings ts in (s ++ rest, ts')
  | _ => ("", ts)
  end.

Abbreviation parsed A := (option (A * list token)).

Fixpoint atom (fuel : nat) (ts : list token) {struct fuel} : parsed ast.expr :=
  match fuel with
  | O => None
  | S fuel =>
      match ts with
      | NAME s :: ts' =>
          if String.eqb s "True" then Some (ast.Constant (ast.CBool true), ts')
          else if String.eqb s "False" then Some (ast.Constant (ast.CBool false), ts')
          else if String.eqb s "None" then Some (ast.Constant ast.CNone, ts')
          else if is_keyword s then None
          else Some (ast.Name s, ts')
      | NUMBER c :: ts' => Some (ast.Constant c, ts')
      | STRING _ :: _ =>
          let '(s, ts') := strings ts in Some (ast.Constant (ast.CStr s), ts')
      | ELLIPSIS :: ts' => Some (ast.Constant ast.CEllipsis, ts')
      | LPAR :: RPAR :: ts' => Some (ast.Tuple [], ts')
      | LPAR :: ts' =>
          match binary fuel 6 ts' with
          | Some (e, RPAR :: ts'') => Some (e, ts'')
          | Some (e, COMMA :: ts'') =>
              match expression_list fuel is_rpar ts'' with
              | Some (es, ts''') => Some (ast.Tuple (e :: es), ts''')
              | None => None
              end
          | _ => None
          end
      | LSQB :: ts' =>
          match expression_list fuel is_rsqb ts' with
          | Some (es, ts'') => Some (ast.List es, ts'')
          | None => None
          end
      | _ => None
      end
  end

(** [(expression ("," expression)* [","])?] and the closing bracket. *)
with expression_list (fuel : nat) (close : token -> bool) (ts : list token)
    {struct fuel} : parsed (list ast.expr) :=
  match fuel with
  | O => None
  | S fuel =>
      match ts with
      | [] => None
      | t :: ts' =>
          if close t then Some ([], ts')
          else
            match binary fuel 6 ts with
            | Some (e, t' :: ts'') =>
                if close t' then Some ([e], ts'')
                else
                  match t' with
                  | COMMA =>
                      match expression_list fuel close ts'' with
                      | Some (es, ts''') => Some (e :: es, ts''')
                      | None => None
                      end
                  | _ => None
                  end
            | _ => None
            end
      end
  end

(** The trailers of a primary: [.name], [(args)], [[index]]. *)
with trailers (fuel : nat) (e : ast.expr) (ts : list token) {struct fuel}
    : parsed ast.expr :=
  match fuel with
  | O => None
  | S fuel =>
      match ts with
      | DOT :: NAME s :: ts' =>
          if is_keyword s then None else trailers fuel (ast.Attribute e s) ts'
      | DOT :: _ => None
      | LPAR :: ts' =>
          match expression_list fuel is_rpar ts' with
          | Some (args, ts'') => trailers fuel (ast.Call e args) ts''
          | None => None
          end
      | LSQB :: ts' =>
          match binary fuel 6 ts' with
          | Some (i, RSQB :: ts'') => trailers fuel (ast.Subscript e i) ts''
          | Some (i, COMMA :: ts'') =>
              match expression_list fuel is_rsqb ts'' with
              | Some (es, ts''') =>
                  trailers fuel (ast.Subscript e (ast.Tuple (i :: es))) ts'''
              | None => None
              end
          | _ => None
          end
      | _ => Some (e, ts)
      end
  end

(** [power: primary ["**" factor]]. *)
with power (fuel : nat) (ts : list token) {struct fuel} : parsed ast.expr :=
  match fuel with
  | O => None
  | S fuel =>
      match atom fuel ts with
      | Some (a, ts') =>
          match trailers fuel a ts' with
          | Some (p, DOUBLESTAR :: ts'') =>
              match factor fuel ts'' with
              | Some (f, ts''') => Some (ast.BinOp p ast.Pow f, ts''')
              | None => None
              end
          | r => r
          end
      | None => None
      end
  end

(** [factor: ("+" | "-" | "~") factor | power]. *)
with factor (fuel : nat) (ts : list token) {struct fuel} : parsed ast.expr :=
  match fuel with
  | O => None
  | S fuel =>
      let unary op ts' :=
        match factor fuel ts' with
        | Some (f, ts'') => Some (ast.UnaryOp op f, ts'')
        | None => None
        end in
      match ts with
      | PLUS :: ts' => unary ast.UAdd ts'
      | MINUS :: ts' => unary ast.USub ts'
      | TILDE :: ts' => unary ast.Invert ts'
      | _ => power fuel ts
      end
  end

(** The left-associative binary operators, by level. *)
with binary (fuel : nat) (level : nat) (ts : list token) {struct fuel}
    : parsed ast.expr :=
  match fuel with
  | O => None
  | S fuel =>
      match level with
      | O => factor fuel ts
      | S below =>
          match binary fuel below ts with
          | Some (e, ts') => binary_rest fuel level e ts'
          | None => None
          end
      end
  end

with binary_rest (fuel : nat) (level : nat) (e : ast.expr) (ts : list token)
    {struct fuel} : parsed ast.expr :=
  match fuel with
  | O => None
  | S fuel =>
      match ts with
      | t :: ts' =>
          match binary_operator level t with
          | Some op =>
              match binary fuel (Nat.pred level) ts' with
              | Some (r, ts'') => binary_rest fuel level (ast.BinOp e op r) ts''
              | None => None
              end
          | None => Some (e, ts)
          end
      | [] => Some (e, ts)
      end
  end.

(** [expressions]: one expression, or a tuple without brackets. *)
Fixpoint expressions_rest (fuel : nat) (ts : list token) : parsed (list ast.expr) :=
  match fuel with
  | O => None
  | S fuel' =>
      match ts with
      | COMMA :: ts' =>
          match binary fuel 6 ts' with
          | Some (e, ts'') =>
              match expressions_rest fuel' ts'' with
              | Some (es, ts''') => Some (e :: es, ts''')
              | None => None
              end
          | None => Some ([], ts')
          end
      | _ => Some ([], ts)
      end
  end.

Definition expressions (fuel : nat) (ts : list token) : parsed ast.expr :=
  match binary fuel 6 ts with
  | Some (e, COMMA :: ts') =>
      match expressions_rest fuel (COMMA :: ts') with
      | Some (es, ts'') => Some (ast.Tuple (e :: es), ts'')
      | None => None
      end
  | r => r
  end.

Definition only_newlines (ts : list token) : bool :=
  forallb (fun t => match t with NEWLINE => true | _ => false end) ts.

(** [eval: expressions NEWLINE* ENDMARKER]. *)
Definition parse_tokens (ts : list token) : outcome ast.expr :=
  match expressions (20 + 10 * List.length ts) ts with
  | Some (e, rest) => if only_newlines rest then Return e else Raise SyntaxError
  | None => Raise SyntaxError
  end.

Definition py_parse (expression : string) : outcome ast.expr :=
  ts <~ tokenize expression ;; parse_tokens ts.

(** [safe_eval] on this parser. *)
Definition evaluate (m : libm) : string -> option loc -> M value :=
  safe_eval py_parse m.

(** ** [str] of a number *)

Definition digits_of_N (n : N) : string := NilEmpty.string_of_uint (N.to_uint n).

(** The decimal text of an [int]: what [str] returns when the digits are
    within the limit. *)
Definition str_int (n : Z) : string :=
  match n with
  | Zneg p => String "-" (digits_of_N (Npos p))
  | _ => digits_of_N (Z.to_N n)
  end.

(** The least [j >= 1] with [d <= n * 10 ^ j], found within [fuel] steps. *)
Fixpoint first_scale (fuel : nat) (n d j : Z) : Z :=
  match fuel with
  | O => j
  | S fuel => if d <=? n * 10 then j + 1 else first_scale fuel (n * 10) d (j + 1)
  end.

(** The position [k] of the decimal point of [n / d]:
    [10 ^ (k - 1) <= n / d < 10 ^ k]. *)
Definition decimal_point (n d : Z) : Z :=
  if d <=? n then Z.of_nat (String.length (digits_of_N (Z.to_N (n / d))))
  else 1 - first_scale 400 n d 0.

(** The decimal [c * 10 ^ e10] of [p] digits that reads back as [x] and is
    nearest to it, if there is one; [x = n / d] is positive and finite. *)
Definition candidate (x : float) (n d k : Z) (p : Z) : option (Z * Z) :=
  let e10 := k - p in
  let num := if 0 <=? p - k then n * 10 ^ (p - k) else n in
  let den := if 0 <=? p - k then d else d * 10 ^ (k - p) in
  let lo := num / den in
  let rem := num mod den in
  let reads_back c := feqb (decimal_to_float (Z.to_N c) e10) x in
  let lo_first :=
    match 2 * rem ?= den with
    | Lt => true
    | Gt => false
    | Eq => Z.even lo
    end in
  let first := if lo_first then lo else lo + 1 in
  let second := if lo_first then lo + 1 else lo in
  if reads_back first then Some (first, e10)
  else if reads_back second then Some (second, e10)
  else None.

(** All the digits of [n / d], for [d] a power of two:
    [n / d = c * 10 ^ e10]. *)
Definition exact_decimal (n d : Z) : Z * Z :=
  let j := Z.log2 d in (n * 5 ^ j, - j).

(** The shortest decimal that reads back as [x], the nearest to [x] among
    those of its length: [repr] tries one digit, then two, and so on.
    Seventeen digits are always enough; past them stands the decimal
    with all the digits of [x]. *)
Fixpoint shortest (fuel : nat) (x : float) (n d k : Z) (p : Z) : Z * Z :=
  match fuel with
  | O => exact_decimal n d
  | S fuel =>
      match candidate x n d k p with
      | Some r => r
      | None => shortest fuel x n d k (p + 1)
      end
  end.

Fixpoint strip_zeros (fuel : nat) (c e10 : Z) : Z * Z :=
  match fuel with
  | O => (c, e10)
  | S fuel =>
      if (c mod 10 =? 0) && negb (c =? 0) then strip_zeros fuel (c / 10) (e10 + 1)
      else (c, e10)
  end.

Fixpoint zeros (n : nat) : string :=
  match n with
  | O => ""
  | S n => String "0" (zeros n)
  end.

(** [s[:n]] and [s[n:]]. *)
Fixpoint string_take (n : nat) (s : string) : string :=
  match n, s with
  | S n, String c s => String c (string_take n s)
  | _, _ => ""
  end.

Fixpoint string_drop (n : nat) (s : string) : string :=
  match n, s with
  | S n, String _ s => string_drop n s
  | _, _ => s
  end.

(** The exponent of a float in [repr]: a sign and two digits at least. *)
Definition exponent_text (e : Z) : string :=
  "e" ++ (if e <? 0 then "-" else "+") ++ (if Z.abs e <? 10 then "0" else "")
    ++ digits_of_N (Z.to_N (Z.abs e)).

(** The digits [ds] with the decimal point after the first [decpt] of
    them, laid out as [repr] does: plainly, or with an exponent when the
    point is far from the digits. *)
Definition layout (add_dot_0 : bool) (ds : string) (decpt : Z) : string :=
  let nd := Z.of_nat (String.length ds) in
  if (decpt <=? -4) || (16 <? decpt) then
    let mantissa :=
      match ds with
      | String c1 (String _ _ as more) => String c1 (String "." more)
      | _ => ds
      end in
    mantissa ++ exponent_text (decpt - 1)
  else if decpt <=? 0 then
    "0." ++ zeros (Z.to_nat (- decpt)) ++ ds
  else if nd <=? decpt then
    ds ++ zeros (Z.to_nat (decpt - nd)) ++ (if add_dot_0 then ".0" else "")
  else
    string_take (Z.to_nat decpt) ds ++ "." ++ string_drop (Z.to_nat decpt) ds.

(** [PyOS_double_to_string(x, 'r', 0, flags)] on a positive finite [x]:
    the digits and the position of the point from the shortest decimal. *)
Definition format_positive (add_dot_0 : bool) (x : float) : string :=
  match float_fraction x with
  | Some (n, d) =>
      let k := decimal_point n d in
      let '(c, e10) := shortest 17 x n d k 1 in
      let '(c, e10) := strip_zeros 17 c e10 in
      let ds := digits_of_N (Z.to_N c) in
      layout add_dot_0 ds (Z.of_nat (String.length ds) + e10)
  | None => ""
  end.

Definition format_float (add_dot_0 force_sign : bool) (x : float) : string :=
  let plus := if force_sign then "+" else "" in
  match x with
  | S754_nan => plus ++ "nan"
  | S754_infinity s => (if s then "-" else plus) ++ "inf"
  | S754_zero s => (if s then "-" else plus) ++ (if add_dot_0 then "0.0" else "0")
  | S754_finite s _ _ =>
      (if s then "-" else plus) ++ format_positive add_dot_0 (fabs x)
  end.

(** [repr] of a [float]. *)
Definition str_float (x : float) : string := format_float true false x.

(** [repr] of a [complex]. *)
Definition str_complex (re im : float) : string :=
  match re with
  | S754_zero false => format_float false false im ++ "j"
  | _ => "(" ++ format_float false false re ++ format_float false true im ++ "j)"
  end.

(** [str(v)]: a [ValueError] for an [int] of more than
    [int_max_str_digits] digits. *)
Definition py_str (v : value) : outcome string :=
  match v with
  | VInt n =>
      if (int_max_str_digits <? String.length (digits_of_N (Z.abs_N n)))%nat
      then Raise (ValueError ExceedsDigitLimit)
      else Return (str_int n)
  | VBool b => Return (if b then "True" else "False")
  | VFloat x => Return (str_float x)
  | VComplex re im => Return (str_complex re im)
  end.

(** ** The evaluator of the specification

    Section 4.3 of the specification reads the evaluator as a function of
    the tree and the environment alone: a literal is its value, a
    variable reference is looked up, a negation and a binary operation
    reduce their operands left to right and stop at the first failure.
    [eval_tree] is that function; [_eval_eval_tree] below compares it
    with the closure of the source. *)

Fixpoint eval_tree (m : libm) (env : dict) (node : ast.expr) : outcome value :=
  match node with
  | ast.BinOp l op r =>
      match getitem _ALLOWED_OPERATORS (ast.BinClass op) with
      | Some f =>
          x <~ eval_tree m env l ;;
          y <~ eval_tree m env r ;;
          operator.call m f [x; y]
      | None => Raise (ValueError (OperatorNotAllowed (ast.BinClass op)))
      end
  | ast.UnaryOp op e =>
      match getitem _ALLOWED_OPERATORS (ast.UnClass op) with
      | Some f => x <~ eval_tree m env e ;; operator.call m f [x]
      | None => Raise (ValueError (UnaryOperatorNotAllowed (ast.UnClass op)))
      end
  | ast.Name id =>
      match env !! id with
      | Some v => Return v
      | None => Raise (ValueError (UndefinedVariable id))
      end
  | ast.Constant (ast.CInt n) => Return (VInt n)
  | ast.Constant (ast.CBool b) => Return (VBool b)
  | ast.Constant (ast.CFloat x) => Return (VFloat x)
  | _ => Raise (ValueError (UnsupportedElement node))
  end.

(** The environment a call supplies: the contents of the dict passed, or
    nothing. *)
Definition env_of (w : world) (variables : option loc) : dict :=
  match variables with
  | Some d => deref w d
  | None => ∅
  end.

(** The trees [_eval] has a case for at every node: the structural
    whitelist of section 4.2. *)
Fixpoint whitelisted (node : ast.expr) : bool :=
  match node with
  | ast.BinOp l op r =>
      contains _ALLOWED_OPERATORS (ast.BinClass op) && whitelisted l && whitelisted r
  | ast.UnaryOp op e =>
      contains _ALLOWED_OPERATORS (ast.UnClass op) && whitelisted e
  | ast.Name _ => true
  | ast.Constant (ast.CInt _ | ast.CBool _ | ast.CFloat _) => true
  | _ => false
  end.

(** An input uses a disallowed form when it does not parse, or parses to
    a tree that is not whitelisted. *)
Definition uses_disallowed_syntax (ast_parse : string -> outcome ast.expr)
    (expression : string) : bool :=
  match ast_parse expression with
  | Return tree => negb (whitelisted tree)
  | Raise _ => true
  end.

(** The kinds of failure of section 7. *)
Inductive error_kind :=
| SyntaxErrorKind
| UnsupportedOperationError
| UndefinedVariableError (name : string)
| OtherError.

Definition kind_of (e : exn) : error_kind :=
  match e with
  | SyntaxError => SyntaxErrorKind
  | ValueError (OperatorNotAllowed _)
  | ValueError (UnaryOperatorNotAllowed _)
  | ValueError (UnsupportedElement _) => UnsupportedOperationError
  | ValueError (UndefinedVariable id) => UndefinedVariableError id
  | _ => OtherError
  end.

(** [n] calls in a row, on the same string and the same argument. *)
Fixpoint repeat_eval (ast_parse : string -> outcome ast.expr) (m : libm)
    (n : nat) (expression : string) (variables : option loc) (w : world)
    : list (outcome value) * world :=
  match n with
  | O => ([], w)
  | S n =>
      let '(r, w') := safe_eval ast_parse m expression variables w in
      let '(rs, w'') := repeat_eval ast_parse m n expression variables w' in
      (r :: rs, w'')
  end.

(** [id] is the name of a variable reference of the tree, at a node that
    [_eval] descends to. *)
Fixpoint mentions (id : string) (node : ast.expr) : bool :=
  match node with
  | ast.BinOp l _ r => mentions id l || mentions id r
  | ast.UnaryOp _ e => mentions id e
  | ast.Name id' => String.eqb id id'
  | _ => false
  end.

(** The literal that evaluates to a number: a complex number has none
    that [_eval] accepts. *)
Definition literal_of (v : value) : option ast.constant :=
  match v with
  | VInt n => Some (ast.CInt n)
  | VBool b => Some (ast.CBool b)
  | VFloat x => Some (ast.CFloat x)
  | VComplex _ _ => None
  end.

(** The tree with the bound value in the place of each variable
    reference that the environment binds. *)
Fixpoint substitute (env : dict) (node : ast.expr) : ast.expr :=
  match node with
  | ast.BinOp l op r => ast.BinOp (substitute env l) op (substitute env r)
  | ast.UnaryOp op e => ast.UnaryOp op (substitute env e)
  | ast.Name id =>
      match env !! id with
      | Some v =>
          match literal_of v with
          | Some c => ast.Constant c
          | None => node
          end
      | None => node
      end
  | _ => node
  end.

(** An environment of [int], [bool] and [float] values: the
    [dict[str, float]] of the signature. *)
Definition real_valued (env : dict) : Prop :=
  forall id re im, env !! id <> Some (VComplex re im).

(** A place in a tree that [_eval] descends to: the tree itself, or a
    place in an operand of a binary or unary operation. *)
Inductive place :=
| Here
| InLeft (p : place) (op : ast.operator) (r : ast.expr)
| InRight (l : ast.expr) (op : ast.operator) (p : place)
| InOperand (op : ast.unaryop) (p : place).

(** The tree with [node] at the place. *)
Fixpoint fill (p : place) (node : ast.expr) : ast.expr :=
  match p with
  | Here => node
  | InLeft p op r => ast.BinOp (fill p node) op r
  | InRight l op p => ast.BinOp l op (fill p node)
  | InOperand op p => ast.UnaryOp op (fill p node)
  end.

(** Nothing fails before the place is reached: the operators on the way
    are allowed, and the left operands passed on the way return. *)
Fixpoint reached (m : libm) (env : dict) (p : place) : bool :=
  match p with
  | Here => true
  | InLeft p op _ => contains _ALLOWED_OPERATORS (ast.BinClass op) && reached m env p
  | InRight l op p =>
      contains _ALLOWED_OPERATORS (ast.BinClass op)
      && match eval_tree m env l with Return _ => true | Raise _ => false end
      && reached m env p
  | InOperand op p => contains _ALLOWED_OPERATORS (ast.UnClass op) && reached m env p
  end.

(** The interpreter as it starts: no dict, nothing logged. *)
Definition initial_world : world := World ∅ [].

(** A world with the dict [{name: v}] at address 1. *)
Definition world_with (name : string) (v : value) : world :=
  World {[ 1%positive := {[ name := v ]} ]} [].

(** A C library that answers NaN to every call.  The statements below
    hold for every library; this one lets them be run on an input. *)
Definition libm_nan : libm :=
  {| pow := fun _ _ => fnan; cpow := fun _ _ => (fnan, fnan) |}.

(** ** The evaluator and the world *)

Lemma getitem_contains table key :
  contains table key = match getitem table key with Some _ => true | None => false end.
Proof.
  unfold contains. destruct (getitem table key); reflexivity.
Qed.

(** [_eval] reads the dict it closes over and nothing else, and leaves
    the world as it found it. *)
Lemma _eval_eval_tree m d node w :
  _eval m d node w = (eval_tree m (deref w d) node, w).
Proof.
  revert w. induction node as [l IHl op r IHr | op e IHe | id | c | | | | | | ];
    intros w; try reflexivity.
  - cbn [_eval eval_tree]. rewrite getitem_contains. unfold apply.
    destruct (getitem _ALLOWED_OPERATORS (ast.BinClass op)) as [f|]; [|reflexivity].
    unfold bind. rewrite IHl.
    destruct (eval_tree m (deref w d) l) as [x|e]; [|reflexivity].
    rewrite IHr. cbn [obind].
    destruct (eval_tree m (deref w d) r) as [y|e]; reflexivity.
  - cbn [_eval eval_tree]. rewrite getitem_contains. unfold apply.
    destruct (getitem _ALLOWED_OPERATORS (ast.UnClass op)) as [f|]; [|reflexivity].
    unfold bind. rewrite IHe.
    destruct (eval_tree m (deref w d) e) as [x|e']; reflexivity.
  - cbn [_eval eval_tree]. unfold bind, dict_contains, dict_getitem.
    destruct (deref w d !! id) as [v|] eqn:E.
    + rewrite bool_decide_eq_true_2 by eauto. rewrite E. reflexivity.
    + rewrite bool_decide_eq_false_2 by (intros [x Hx]; discriminate). reflexivity.
  - destruct c; reflexivity.
Qed.

Lemma or_new_dict_spec variables w :
  exists d w',
    or_new_dict variables w = (Return d, w')
    /\ log w' = log w
    /\ heap w ⊆ heap w'
    /\ (forall d', deref w' d' = deref w d')
    /\ deref w' d = env_of w variables.
Proof.
  assert (Hnew : exists d w',
    new_dict w = (Return d, w') /\ log w' = log w /\ heap w ⊆ heap w'
    /\ (forall d', deref w' d' = deref w d') /\ deref w' d = ∅).
  { exists (fresh (dom (heap w))), (World (<[fresh (dom (heap w)) := ∅]> (heap w)) (log w)).
    assert (Hf : heap w !! fresh (dom (heap w)) = None).
    { apply not_elem_of_dom. apply is_fresh. }
    repeat split.
    - simpl. apply insert_subseteq. exact Hf.
    - intros d'. unfold deref. simpl.
      destruct (decide (fresh (dom (heap w)) = d')) as [<-|Hne].
      + rewrite lookup_insert_eq, Hf. reflexivity.
      + rewrite lookup_insert_ne by exact Hne. reflexivity.
    - unfold deref. simpl. rewrite lookup_insert_eq. reflexivity. }
  destruct variables as [d|]; simpl.
  - destruct (bool_decide (deref w d = ∅)) eqn:E.
    + apply bool_decide_eq_true in E.
      destruct Hnew as (d0 & w' & H1 & H2 & H3 & H4 & H5).
      exists d0, w'. rewrite E. auto.
    + exists d, w. repeat split; auto.
  - exact Hnew.
Qed.

(** What a call answers and what it leaves behind. *)
Lemma safe_eval_spec ast_parse m expression variables w :
  fst (safe_eval ast_parse m expression variables w)
    = (tree <~ ast_parse expression ;; eval_tree m (env_of w variables) tree)
  /\ heap w ⊆ heap (snd (safe_eval ast_parse m expression variables w))
  /\ (forall d, deref (snd (safe_eval ast_parse m expression variables w)) d = deref w d).
Proof.
  destruct (or_new_dict_spec variables w) as (d & w' & H1 & H2 & H3 & H4 & H5).
  unfold safe_eval, bind. rewrite H1. unfold logger_debug, lift.
  destruct (ast_parse expression) as [tree|e]; simpl.
  - rewrite _eval_eval_tree. simpl.
    replace (deref (World (heap w') (log w' ++ [(expression, deref w' d)])) d)
      with (deref w' d) by reflexivity.
    rewrite H5. repeat split; auto.
  - repeat split; auto.
Qed.

Lemma safe_eval_result ast_parse m expression variables w :
  fst (safe_eval ast_parse m expression variables w)
    = (tree <~ ast_parse expression ;; eval_tree m (env_of w variables) tree).
Proof. apply safe_eval_spec. Qed.

Lemma safe_eval_env ast_parse m expression variables variables' w :
  env_of (snd (safe_eval ast_parse m expression variables w)) variables'
    = env_of w variables'.
Proof.
  destruct variables' as [d|]; [|reflexivity]. simpl. apply safe_eval_spec.
Qed.

Lemma eval_tree_not_whitelisted m env node :
  whitelisted node = false -> exists e, eval_tree m env node = Raise e.
Proof.
  induction node as [l IHl op r IHr | op e IHe | id | c | | | | | | ];
    cbn [whitelisted eval_tree]; intros H; try discriminate; eauto.
  - rewrite getitem_contains in H.
    destruct (getitem _ALLOWED_OPERATORS (ast.BinClass op)) as [f|]; [|eauto].
    cbn [andb] in H. destruct (whitelisted l).
    + destruct (IHr H) as [e He]. rewrite He.
      destruct (eval_tree m env l); cbn [obind]; eauto.
    + destruct (IHl eq_refl) as [e He]. rewrite He. cbn [obind]. eauto.
  - rewrite getitem_contains in H.
    destruct (getitem _ALLOWED_OPERATORS (ast.UnClass op)) as [f|]; [|eauto].
    destruct (IHe H) as [e' He]. rewrite He. cbn [obind]. eauto.
  - destruct c; try discriminate; eauto.
Qed.

(** ** The errors of the operators *)

(** The binary functions of the table return, or raise one of two
    arithmetic errors. *)
Definition arithmetic (o : outcome value) : Prop :=
  match o with
  | Return _ => True
  | Raise e => e = ZeroDivisionError \/ e = OverflowError
  end.

Lemma coerce_arithmetic on_int on_float on_complex a b :
  (forall x y, arithmetic (on_int x y)) ->
  (forall x y, arithmetic (on_float x y)) ->
  (forall x y, arithmetic (on_complex x y)) ->
  arithmetic (coerce on_int on_float on_complex a b).
Proof.
  intros Hi Hf Hc. unfold coerce.
  destruct a as [p|c|x|re im], b as [q|c'|y|re' im'];
    cbn [int_value is_complex orb to_float to_complex obind];
    unfold float_of_int;
    repeat match goal with
           | |- context [is_inf ?t] => destruct (is_inf t)
           end;
    cbn [obind arithmetic]; auto.
Qed.

Lemma complex_pow_arithmetic m a b : arithmetic (complex_pow m a b).
Proof.
  unfold complex_pow.
  match goal with |- arithmetic (match ?r with _ => _ end) => destruct r as [p|] end;
    cbn [arithmetic]; auto.
  destruct (is_inf p.1 || is_inf p.2); cbn [arithmetic]; auto.
Qed.

Lemma float_pow_arithmetic m x y : arithmetic (float_pow m x y).
Proof.
  unfold float_pow.
  repeat match goal with
         | |- arithmetic (complex_pow _ _ _) => apply complex_pow_arithmetic
         | |- arithmetic (Return _) => exact I
         | |- arithmetic (Raise _) => cbn [arithmetic]; auto
         | |- arithmetic (if ?c then _ else _) => destruct c
         | |- arithmetic (let _ := _ in _) => cbv zeta
         end.
Qed.

Lemma binary_arithmetic m f a b :
  f <> operator.neg -> arithmetic (operator.binary m f a b).
Proof.
  intros Hf. destruct f; try congruence; cbn [operator.binary];
    apply coerce_arithmetic; intros x y; try exact I.
  - unfold int_true_divide. destruct (y =? 0); cbn [arithmetic]; auto.
    destruct (is_inf (float_of_quotient x y)); cbn [arithmetic]; auto.
  - unfold float_div. destruct (feqb y fzero); cbn [arithmetic]; auto.
  - unfold complex_div. destruct (c_quot x y); cbn [arithmetic]; auto.
  - unfold int_pow. destruct (0 <=? y); [exact I|].
    unfold float_of_int.
    destruct (is_inf (float_of_Z x)); cbn [obind arithmetic]; auto.
    destruct (is_inf (float_of_Z y)); cbn [obind arithmetic]; auto.
    apply float_pow_arithmetic.
  - apply float_pow_arithmetic.
  - apply complex_pow_arithmetic.
Qed.

Lemma unary_neg_returns a : exists v, operator.unary operator.neg a = Return v.
Proof. destruct a; cbn; eauto. Qed.

Lemma getitem_binary op f :
  getitem _ALLOWED_OPERATORS (ast.BinClass op) = Some f -> f <> operator.neg.
Proof. destruct op; cbn; intros [= <-]; discriminate. Qed.

Lemma getitem_unary op f :
  getitem _ALLOWED_OPERATORS (ast.UnClass op) = Some f -> f = operator.neg.
Proof. destruct op; cbn; intros [= <-]; reflexivity. Qed.

(** ** Claims *)

(** C1 (as amended).  An input that does not parse, or whose tree has a
    node outside the whitelist, never makes [safe_eval] return a value:
    the call raises, and when parsing failed it raises the parser's
    error.  Of the four strings listed, "1; 2" raises [SyntaxError] and
    the other three raise the [ValueError] of an unsupported element. *)
Theorem disallowed_syntax_rejected m variables w :
  (forall ast_parse expression,
      uses_disallowed_syntax ast_parse expression = true ->
      (exists e, fst (safe_eval ast_parse m expression variables w) = Raise e)
      /\ (forall e, ast_parse expression = Raise e ->
            fst (safe_eval ast_parse m expression variables w) = Raise e))
  /\ fst (evaluate m "1; 2" variables w) = Raise SyntaxError
  /\ fst (evaluate m "__import__('os')" variables w)
       = Raise (ValueError (UnsupportedElement
                  (ast.Call (ast.Name "__import__") [ast.Constant (ast.CStr "os")])))
  /\ fst (evaluate m "sin(1)" variables w)
       = Raise (ValueError (UnsupportedElement
                  (ast.Call (ast.Name "sin") [ast.Constant (ast.CInt 1)])))
  /\ fst (evaluate m "[1,2,3]" variables w)
       = Raise (ValueError (UnsupportedElement
                  (ast.List [ast.Constant (ast.CInt 1); ast.Constant (ast.CInt 2);
                             ast.Constant (ast.CInt 3)]))).
Proof.
  split; [|unfold evaluate; rewrite !safe_eval_result; repeat split; reflexivity].
  intros ast_parse expression H. rewrite safe_eval_result.
  unfold uses_disallowed_syntax in H.
  destruct (ast_parse expression) as [tree|e]; cbn [obind].
  - split; [|discriminate].
    apply eval_tree_not_whitelisted. destruct (whitelisted tree); [discriminate|reflexivity].
  - split; [eauto|]. intros e' [= ->]. reflexivity.
Qed.

Lemma disallowed_syntax_rejected_witness :
  uses_disallowed_syntax py_parse "2 + sin(1)" = true
  /\ exists e, fst (safe_eval py_parse libm_nan "2 + sin(1)" None initial_world) = Raise e.
Proof.
  split; [reflexivity|].
  apply (proj1 (disallowed_syntax_rejected libm_nan None initial_world) py_parse "2 + sin(1)").
  reflexivity.
Defined.

(** C1, counterexample.  "1/0+sin(1)" uses a call, and the error raised
    is the [ZeroDivisionError] of its left operand: neither a syntax
    error nor an unsupported operation. *)
Lemma disallowed_syntax_counterexample :
  uses_disallowed_syntax py_parse "1/0+sin(1)" = true
  /\ fst (evaluate libm_nan "1/0+sin(1)" None initial_world) = Raise ZeroDivisionError
  /\ kind_of ZeroDivisionError = OtherError.
Proof. repeat split; vm_compute; reflexivity. Qed.

(** A float that Python's [==] finds equal to the integer 0 is a zero. *)
Lemma int_eq_float_zero x :
  int_eq_float 0 x = true -> exists s, x = S754_zero s.
Proof.
  unfold int_eq_float, float_fraction.
  destruct x as [s| | |s p e]; try discriminate; [eauto|].
  destruct (Z.leb_spec 0 e) as [He|He], s; intros H; apply Z.eqb_eq in H; exfalso.
  - assert (0 < 2 ^ e) by (apply Z.pow_pos_nonneg; lia).
    apply Z.mul_eq_0 in H. lia.
  - assert (0 < 2 ^ e) by (apply Z.pow_pos_nonneg; lia).
    apply Z.mul_eq_0 in H. lia.
  - lia.
  - lia.
Qed.

Lemma feqb_zero x :
  feqb x fzero = true -> exists s, x = S754_zero s.
Proof.
  destruct x as [s|s| |s p e]; intros H; eauto; try discriminate H;
    destruct s; discriminate H.
Qed.

(** C2 (as amended).  evaluate("1/0") raises [ZeroDivisionError], and so
    do "1/0.0" and "1.0/0"; in general a true division by a number equal
    to zero returns no value: it raises [ZeroDivisionError], or
    [OverflowError] when an integer operand has no float. *)
Theorem division_by_zero_raises m :
  (forall variables w,
      fst (evaluate m "1/0" variables w) = Raise ZeroDivisionError
      /\ fst (evaluate m "1/0.0" variables w) = Raise ZeroDivisionError
      /\ fst (evaluate m "1.0/0" variables w) = Raise ZeroDivisionError)
  /\ (forall a b,
        py_eq b (VInt 0) = true ->
        operator.call m operator.truediv [a; b] = Raise ZeroDivisionError
        \/ operator.call m operator.truediv [a; b] = Raise OverflowError).
Proof.
  split.
  - intros variables w. unfold evaluate. rewrite !safe_eval_result.
    repeat split; reflexivity.
  - intros a b H.
    assert (Hb : (exists n, int_value b = Some n /\ n = 0)
                 \/ (exists s, b = VFloat (S754_zero s))
                 \/ (exists s s', b = VComplex (S754_zero s) (S754_zero s'))).
    { destruct b as [n|c|x|re im]; cbn in H.
      - left. exists n. split; [reflexivity|]. apply Z.eqb_eq in H. exact H.
      - left. exists (Z.b2z c). split; [reflexivity|]. apply Z.eqb_eq in H. exact H.
      - right. left. destruct (int_eq_float_zero x H) as [s ->]. eauto.
      - right. right. apply andb_true_iff in H as [H1 H2].
        destruct (int_eq_float_zero re H1) as [s ->].
        destruct (feqb_zero im H2) as [s' ->]. eauto. }
    cbn [operator.call operator.binary]. unfold coerce.
    destruct Hb as [(n & Hn & ->) | [[s ->] | (s & s' & ->)]].
    + rewrite Hn. destruct a as [p|c|x|re im]; cbn [int_value].
      * left. reflexivity.
      * left. reflexivity.
      * cbn [is_complex orb to_float obind].
        assert (Hz : to_float b = Return fzero).
        { destruct b; try discriminate; cbn in Hn; injection Hn as Hn.
          - subst. reflexivity.
          - destruct b; [discriminate|reflexivity]. }
        assert (Hc : is_complex b = false) by (destruct b; try discriminate; reflexivity).
        rewrite Hc, Hz. left. reflexivity.
      * cbn [is_complex orb to_complex obind].
        assert (Hz : to_complex b = Return (fzero, fzero)).
        { destruct b; try discriminate; cbn in Hn; injection Hn as Hn.
          - subst. reflexivity.
          - destruct b; [discriminate|reflexivity]. }
        rewrite Hz. left. reflexivity.
    + destruct a as [p|c|x|re im]; cbn [int_value is_complex orb to_float to_complex obind].
      * unfold float_of_int. destruct (is_inf (float_of_Z p)); [right; reflexivity|].
        left. destruct s; reflexivity.
      * unfold float_of_int. destruct (is_inf (float_of_Z (Z.b2z c))); [right; reflexivity|].
        left. destruct s; reflexivity.
      * left. destruct s; reflexivity.
      * left. destruct s; reflexivity.
    + destruct a as [p|c|x|re im]; cbn [int_value is_complex orb to_float to_complex obind].
      * unfold float_of_int. destruct (is_inf (float_of_Z p)); [right; reflexivity|].
        left. destruct s, s'; reflexivity.
      * unfold float_of_int. destruct (is_inf (float_of_Z (Z.b2z c))); [right; reflexivity|].
        left. destruct s, s'; reflexivity.
      * left. destruct s, s'; reflexivity.
      * left. destruct s, s'; reflexivity.
Qed.

Lemma division_by_zero_raises_witness :
  py_eq (VFloat (S754_zero true)) (VInt 0) = true
  /\ (operator.call libm_nan operator.truediv [VInt 7; VFloat (S754_zero true)]
        = Raise ZeroDivisionError
      \/ operator.call libm_nan operator.truediv [VInt 7; VFloat (S754_zero true)]
        = Raise OverflowError).
Proof.
  split; [reflexivity|].
  apply (proj2 (division_by_zero_raises libm_nan) (VInt 7) (VFloat (S754_zero true))).
  reflexivity.
Defined.

(** C2, counterexample.  evaluate("1/0") does not return positive
    infinity: it raises [ZeroDivisionError]. *)
Lemma division_by_zero_counterexample :
  fst (evaluate libm_nan "1/0" None initial_world) = Raise ZeroDivisionError
  /\ fst (evaluate libm_nan "1/0" None initial_world) <> Return (VFloat finf).
Proof. split; [vm_compute; reflexivity | vm_compute; discriminate]. Qed.

(** C3 (as amended).  The power operator is written [**] and is
    right-associative: "2**3**2" parses as 2**(3**2) and evaluates to 512.
    The caret is the bitwise exclusive or, which the table of allowed
    operators does not hold: "2^3^2", like every tree whose root is a
    [BitXor], raises the [ValueError] of an operator that is not
    allowed, before any operand is evaluated. *)
Theorem power_is_double_star m variables w :
  py_parse "2**3**2"
    = Return (ast.BinOp (ast.Constant (ast.CInt 2)) ast.Pow
                (ast.BinOp (ast.Constant (ast.CInt 3)) ast.Pow
                   (ast.Constant (ast.CInt 2))))
  /\ fst (evaluate m "2**3**2" variables w) = Return (VInt 512)
  /\ fst (evaluate m "(2**3)**2" variables w) = Return (VInt 64)
  /\ fst (evaluate m "2^3^2" variables w)
       = Raise (ValueError (OperatorNotAllowed (ast.BinClass ast.BitXor)))
  /\ (forall d l r,
        _eval m d (ast.BinOp l ast.BitXor r) w
          = (Raise (ValueError (OperatorNotAllowed (ast.BinClass ast.BitXor))), w)).
Proof.
  unfold evaluate. rewrite !safe_eval_result. repeat split; reflexivity.
Qed.

(** C3, counterexample.  evaluate("2^3^2") is not 512: it raises. *)
Lemma caret_counterexample :
  fst (evaluate libm_nan "2^3^2" None initial_world)
    = Raise (ValueError (OperatorNotAllowed (ast.BinClass ast.BitXor)))
  /\ fst (evaluate libm_nan "2^3^2" None initial_world) <> Return (VInt 512).
Proof. split; [vm_compute; reflexivity | vm_compute; discriminate]. Qed.

(** Evaluation in an environment of real numbers is evaluation, without
    an environment, of the tree with the bound values in the place of
    the references. *)
Lemma eval_tree_substitute m env node :
  real_valued env -> eval_tree m env node = eval_tree m ∅ (substitute env node).
Proof.
  intros R.
  induction node as [l IHl op r IHr | op e IHe | id | c | | | | | | ];
    cbn [substitute eval_tree]; try reflexivity.
  - rewrite IHl, IHr. reflexivity.
  - rewrite IHe. reflexivity.
  - destruct (env !! id) as [v|] eqn:E.
    + destruct v as [n|b|x|re im]; cbn [literal_of eval_tree]; try reflexivity.
      exfalso. exact (R id re im E).
    + cbn [eval_tree]. rewrite lookup_empty. reflexivity.
Qed.

(** A reference to an absent name that is reached raises the error for
    that name. *)
Lemma eval_tree_reached_absent m env p id :
  reached m env p = true -> env !! id = None ->
  eval_tree m env (fill p (ast.Name id)) = Raise (ValueError (UndefinedVariable id)).
Proof.
  intros H A. induction p as [|p IH op r|l op p IH|op p IH]; cbn [fill eval_tree reached] in *.
  - rewrite A. reflexivity.
  - apply andb_true_iff in H as [C H]. rewrite getitem_contains in C.
    destruct (getitem _ALLOWED_OPERATORS (ast.BinClass op)); [|discriminate].
    rewrite (IH H). reflexivity.
  - apply andb_true_iff in H as [H H2]. apply andb_true_iff in H as [C H1].
    rewrite getitem_contains in C.
    destruct (getitem _ALLOWED_OPERATORS (ast.BinClass op)); [|discriminate].
    destruct (eval_tree m env l); [|discriminate]. rewrite (IH H2). reflexivity.
  - apply andb_true_iff in H as [C H]. rewrite getitem_contains in C.
    destruct (getitem _ALLOWED_OPERATORS (ast.UnClass op)); [|discriminate].
    rewrite (IH H). reflexivity.
Qed.

(** A tree that refers to an absent name returns no value. *)
Lemma eval_tree_mentions_absent m env node id :
  mentions id node = true -> env !! id = None ->
  exists e, eval_tree m env node = Raise e.
Proof.
  intros H A.
  induction node as [l IHl op r IHr | op e IHe | id' | c | | | | | | ];
    cbn [mentions eval_tree] in *; try discriminate.
  - destruct (getitem _ALLOWED_OPERATORS (ast.BinClass op)); [|eauto].
    apply orb_true_iff in H as [H|H].
    + destruct (IHl H) as [e ->]. cbn [obind]. eauto.
    + destruct (IHr H) as [e ->]. destruct (eval_tree m env l); cbn [obind]; eauto.
  - destruct (getitem _ALLOWED_OPERATORS (ast.UnClass op)); [|eauto].
    destruct (IHe H) as [e' ->]. cbn [obind]. eauto.
  - apply String.eqb_eq in H. subst id'. rewrite A. eauto.
Qed.

Lemma call_not_undefined m f args id :
  operator.call m f args <> Raise (ValueError (UndefinedVariable id)).
Proof.
  assert (A : forall o, arithmetic o -> o <> Raise (ValueError (UndefinedVariable id))).
  { intros [v|e] H; [discriminate|]. cbn [arithmetic] in H. intros [= ->].
    destruct H; discriminate. }
  destruct args as [|a [|b [|c args]]]; cbn [operator.call]; try discriminate.
  - destruct f, a; cbn; discriminate.
  - destruct f; first [apply A, binary_arithmetic; discriminate | cbn; discriminate].
Qed.

(** The undefined-variable error names a reference of the tree that the
    environment does not bind. *)
Lemma eval_tree_undefined m env node id :
  eval_tree m env node = Raise (ValueError (UndefinedVariable id)) ->
  mentions id node = true /\ env !! id = None.
Proof.
  induction node as [l IHl op r IHr | op e IHe | id' | c | | | | | | ];
    cbn [mentions eval_tree]; intros H; try discriminate.
  - destruct (getitem _ALLOWED_OPERATORS (ast.BinClass op)) as [f|]; [|discriminate].
    destruct (eval_tree m env l) as [x|e1]; cbn [obind] in H.
    + destruct (eval_tree m env r) as [y|e2]; cbn [obind] in H.
      * exfalso. exact (call_not_undefined _ _ _ _ H).
      * destruct (IHr H) as [-> E]. rewrite orb_true_r. auto.
    + destruct (IHl H) as [-> E]. auto.
  - destruct (getitem _ALLOWED_OPERATORS (ast.UnClass op)) as [f|]; [|discriminate].
    destruct (eval_tree m env e) as [x|e1]; cbn [obind] in H.
    + exfalso. exact (call_not_undefined _ _ _ _ H).
    + apply IHe, H.
  - destruct (env !! id') eqn:E; [discriminate|]. injection H as <-.
    rewrite String.eqb_refl. auto.
  - destruct c; discriminate.
Qed.

(** C4 (as amended).  Evaluation puts the bound value in the place of
    every variable reference whose name the environment binds:
    evaluating a tree in an environment of real numbers is evaluating,
    in an empty environment, the tree with the values substituted, and
    evaluate("x+1", {"x": 4.0}) is 5.0.  A tree that refers to a name
    absent from the environment returns no value; it raises the
    undefined-variable [ValueError] carrying that name when the
    reference is reached, that is when nothing fails before it in the
    order of evaluation, as in evaluate("x+1"); and whenever that error
    is raised, the name it carries is referred to in the tree and absent
    from the environment. *)
Theorem variable_reference m d w :
  (forall node d0,
      real_valued (deref w d) -> deref w d0 = ∅ ->
      _eval m d node w = _eval m d0 (substitute (deref w d) node) w)
  /\ (forall id v, deref w d !! id = Some v -> _eval m d (ast.Name id) w = (Return v, w))
  /\ (forall p id,
        reached m (deref w d) p = true -> deref w d !! id = None ->
        _eval m d (fill p (ast.Name id)) w = (Raise (ValueError (UndefinedVariable id)), w)
        /\ kind_of (ValueError (UndefinedVariable id)) = UndefinedVariableError id)
  /\ (forall node id,
        mentions id node = true -> deref w d !! id = None ->
        exists e, _eval m d node w = (Raise e, w))
  /\ (forall node id w',
        _eval m d node w = (Raise (ValueError (UndefinedVariable id)), w') ->
        mentions id node = true /\ deref w d !! id = None)
  /\ (forall ast_parse expression variables p id,
        ast_parse expression = Return (fill p (ast.Name id)) ->
        reached m (env_of w variables) p = true -> env_of w variables !! id = None ->
        fst (safe_eval ast_parse m expression variables w)
          = Raise (ValueError (UndefinedVariable id)))
  /\ (deref w d !! "x" = Some (VFloat (float_of_Z 4)) ->
      fst (evaluate m "x+1" (Some d) w) = Return (VFloat (float_of_Z 5)))
  /\ fst (evaluate m "x+1" None w) = Raise (ValueError (UndefinedVariable "x")).
Proof.
  split.
  { intros node d0 R E. rewrite !_eval_eval_tree, E. f_equal.
    apply eval_tree_substitute, R. }
  split.
  { intros id v H. rewrite _eval_eval_tree. cbn [eval_tree]. rewrite H. reflexivity. }
  split.
  { intros p id H A. split; [|reflexivity].
    rewrite _eval_eval_tree, (eval_tree_reached_absent m _ p id H A). reflexivity. }
  split.
  { intros node id H A. rewrite _eval_eval_tree.
    destruct (eval_tree_mentions_absent m _ node id H A) as [e ->]. eauto. }
  split.
  { intros node id w' H. rewrite _eval_eval_tree in H. injection H as H _.
    eapply eval_tree_undefined, H. }
  split.
  { intros ast_parse expression variables p id P H A.
    rewrite safe_eval_result, P. cbn [obind].
    apply eval_tree_reached_absent; assumption. }
  split.
  { intros H. unfold evaluate. rewrite safe_eval_result.
    change (py_parse "x+1")
      with (Return (ast.BinOp (ast.Name "x") ast.Add (ast.Constant (ast.CInt 1)))).
    cbn [obind env_of eval_tree]. rewrite H. reflexivity. }
  unfold evaluate. rewrite safe_eval_result. reflexivity.
Qed.

Lemma variable_reference_witness :
  reached libm_nan (deref (world_with "x" (VFloat (float_of_Z 4))) 1%positive)
    (InRight (ast.BinOp (ast.Name "x") ast.Mult (ast.Constant (ast.CInt 2))) ast.Add
       (InOperand ast.USub Here)) = true
  /\ deref (world_with "x" (VFloat (float_of_Z 4))) 1%positive !! "y" = None
  /\ _eval libm_nan 1%positive
       (ast.BinOp (ast.BinOp (ast.Name "x") ast.Mult (ast.Constant (ast.CInt 2))) ast.Add
          (ast.UnaryOp ast.USub (ast.Name "y")))
       (world_with "x" (VFloat (float_of_Z 4)))
     = (Raise (ValueError (UndefinedVariable "y")), world_with "x" (VFloat (float_of_Z 4)))
  /\ deref (world_with "x" (VFloat (float_of_Z 4))) 1%positive !! "x"
     = Some (VFloat (float_of_Z 4))
  /\ fst (evaluate libm_nan "x+1" (Some 1%positive) (world_with "x" (VFloat (float_of_Z 4))))
     = Return (VFloat (float_of_Z 5)).
Proof.
  pose proof (variable_reference libm_nan 1%positive (world_with "x" (VFloat (float_of_Z 4))))
    as (_ & _ & R & _ & _ & _ & X & _).
  split; [reflexivity|]. split; [reflexivity|].
  split.
  - apply (R (InRight (ast.BinOp (ast.Name "x") ast.Mult (ast.Constant (ast.CInt 2))) ast.Add
                (InOperand ast.USub Here)) "y"); reflexivity.
  - split; [reflexivity|]. apply X. reflexivity.
Defined.

(** C4, counterexample.  "1/0+y" refers to [y], which no environment
    binds here, and the error raised is the [ZeroDivisionError] of the
    left operand, not the undefined-variable error for [y]. *)
Lemma variable_reference_counterexample :
  py_parse "1/0+y"
    = Return (ast.BinOp
                (ast.BinOp (ast.Constant (ast.CInt 1)) ast.Div (ast.Constant (ast.CInt 0)))
                ast.Add (ast.Name "y"))
  /\ env_of initial_world None !! "y" = None
  /\ fst (evaluate libm_nan "1/0+y" None initial_world) = Raise ZeroDivisionError
  /\ kind_of ZeroDivisionError <> UndefinedVariableError "y".
Proof.
  split; [vm_compute; reflexivity|]. split; [reflexivity|].
  split; [vm_compute; reflexivity|]. discriminate.
Qed.

(** C5.  Multiplication binds tighter than addition and subtraction
    associates to the left: "2+3*4" is 14, "2*3+4" is 10 and "10-3-2"
    is 5. *)
Theorem precedence_and_associativity m variables w :
  fst (evaluate m "2+3*4" variables w) = Return (VInt 14)
  /\ fst (evaluate m "2*3+4" variables w) = Return (VInt 10)
  /\ fst (evaluate m "10-3-2" variables w) = Return (VInt 5)
  /\ py_parse "2+3*4"
       = Return (ast.BinOp (ast.Constant (ast.CInt 2)) ast.Add
                   (ast.BinOp (ast.Constant (ast.CInt 3)) ast.Mult
                      (ast.Constant (ast.CInt 4))))
  /\ py_parse "10-3-2"
       = Return (ast.BinOp
                   (ast.BinOp (ast.Constant (ast.CInt 10)) ast.Sub
                      (ast.Constant (ast.CInt 3)))
                   ast.Sub (ast.Constant (ast.CInt 2))).
Proof.
  unfold evaluate. rewrite !safe_eval_result. repeat split; reflexivity.
Qed.

(** C7, on the code.  evaluate("(-8)**0.5") hands the power to
    [complex.__pow__]: the result is the complex number the C library
    computes, or an [OverflowError] when a part of it is infinite; it is
    neither a float NaN nor a domain error.  Written with a caret, the
    expression is rejected as a [BitXor]. *)
Theorem negative_base_fractional_power m variables w :
  fst (evaluate m "(-8)**0.5" variables w)
    = (let c := cpow m (float_of_Z (-8), fzero) (float_of_quotient 1 2, fzero) in
       if is_inf (fst c) || is_inf (snd c) then Raise OverflowError
       else Return (VComplex (fst c) (snd c)))
  /\ fst (evaluate m "(-8)^0.5" variables w)
       = Raise (ValueError (OperatorNotAllowed (ast.BinClass ast.BitXor))).
Proof.
  unfold evaluate. rewrite !safe_eval_result. split; reflexivity.
Qed.

(** A negative finite base and a finite exponent that is not an integer:
    [float.__pow__] answers with a complex number, or an
    [OverflowError]. *)
Lemma float_pow_negative_fractional m x y :
  fltb x fzero = true -> is_finite x = true ->
  is_finite y = true -> is_integral y = false ->
  float_pow m x y
    = (let c := cpow m (x, fzero) (y, fzero) in
       if is_inf (fst c) || is_inf (snd c) then Raise OverflowError
       else Return (VComplex (fst c) (snd c))).
Proof.
  intros Hx Fx Fy Iy.
  destruct y as [s| | |sy my ey]; try discriminate.
  destruct x as [s| | |sx mx ex]; try discriminate; try (destruct s; discriminate).
  destruct sx; [|discriminate].
  unfold float_pow, complex_pow.
  replace (feqb (S754_finite sy my ey) fzero) with false by (destruct sy; reflexivity).
  cbn [is_nan is_inf]. 
  replace (feqb (S754_finite true mx ex) fzero) with false by reflexivity.
  rewrite Hx, Iy. cbn [negb andb snd fst].
  replace (feqb fzero fzero) with true by reflexivity.
  cbn [andb]. unfold c_is_zero. cbn [fst snd].
  replace (feqb (S754_finite sy my ey) fzero) with false by (destruct sy; reflexivity).
  replace (feqb (S754_finite true mx ex) fzero) with false by reflexivity.
  rewrite ?Iy. reflexivity.
Qed.

(** C8.  The result of a call is a function of the expression and of
    the contents of the environment: two calls that agree on both
    return or raise the same, whatever the worlds they run in, and [n]
    calls in a row on the same arguments give [n] times the result of
    the first. *)
Theorem safe_eval_deterministic ast_parse m expression v1 v2 w1 w2 n :
  env_of w1 v1 = env_of w2 v2 ->
  fst (safe_eval ast_parse m expression v1 w1)
    = fst (safe_eval ast_parse m expression v2 w2)
  /\ fst (repeat_eval ast_parse m n expression v1 w1)
       = replicate n (fst (safe_eval ast_parse m expression v1 w1)).
Proof.
  intros H. split.
  - rewrite !safe_eval_result, H. reflexivity.
  - clear H. revert w1. induction n as [|n IH]; intros w1; [reflexivity|].
    cbn [repeat_eval replicate].
    destruct (safe_eval ast_parse m expression v1 w1) as [r w'] eqn:E.
    specialize (IH w').
    destruct (repeat_eval ast_parse m n expression v1 w') as [rs w''].
    cbn [fst] in *. rewrite IH. f_equal. f_equal.
    rewrite safe_eval_result.
    replace w' with (snd (safe_eval ast_parse m expression v1 w1)) by (rewrite E; reflexivity).
    rewrite safe_eval_env. rewrite <- safe_eval_result, E. reflexivity.
Qed.

Lemma safe_eval_deterministic_witness :
  env_of (world_with "x" (VInt 3)) (Some 1%positive)
    = env_of (World {[ 1%positive := {[ "x" := VInt 3 ]} ]} [("2+2", ∅)]) (Some 1%positive)
  /\ fst (safe_eval py_parse libm_nan "x*x" (Some 1%positive) (world_with "x" (VInt 3)))
       = fst (safe_eval py_parse libm_nan "x*x" (Some 1%positive)
                (World {[ 1%positive := {[ "x" := VInt 3 ]} ]} [("2+2", ∅)]))
  /\ fst (repeat_eval py_parse libm_nan 3 "x*x" (Some 1%positive) (world_with "x" (VInt 3)))
       = replicate 3
           (fst (safe_eval py_parse libm_nan "x*x" (Some 1%positive) (world_with "x" (VInt 3)))).
Proof.
  split; [reflexivity|].
  apply (safe_eval_deterministic py_parse libm_nan "x*x" (Some 1%positive) (Some 1%positive)
           (world_with "x" (VInt 3))
           (World {[ 1%positive := {[ "x" := VInt 3 ]} ]} [("2+2", ∅)]) 3).
  reflexivity.
Defined.

(** C9.  A call leaves every dict of the heap as it was, the one
    supplied among them: whether it returns or raises, no binding is
    added, removed or changed. *)
Theorem safe_eval_leaves_environment ast_parse m expression variables w :
  heap w ⊆ heap (snd (safe_eval ast_parse m expression variables w))
  /\ (forall d, deref (snd (safe_eval ast_parse m expression variables w)) d = deref w d)
  /\ env_of (snd (safe_eval ast_parse m expression variables w)) variables
       = env_of w variables.
Proof.
  split; [apply safe_eval_spec|]. split; [apply safe_eval_spec|]. apply safe_eval_env.
Qed.

(** C10.  The keywords [True] and [False] are accepted as constants:
    evaluate("True") returns [True], which Python's [==] finds equal to
    1, and evaluate("False") returns [False], equal to 0; in arithmetic
    they count as 1 and 0. *)
Theorem booleans_are_numbers m variables w :
  fst (evaluate m "True" variables w) = Return (VBool true)
  /\ py_eq (VBool true) (VInt 1) = true
  /\ fst (evaluate m "False" variables w) = Return (VBool false)
  /\ py_eq (VBool false) (VInt 0) = true
  /\ fst (evaluate m "True+True" variables w) = Return (VInt 2)
  /\ (forall d b, _eval m d (ast.Constant (ast.CBool b)) w = (Return (VBool b), w)).
Proof.
  unfold evaluate. rewrite !safe_eval_result. repeat split; reflexivity.
Qed.

(** ** Rounding a fraction to a float *)

(** [2 ^ e <= n / d]. *)
Definition below (n d e : Z) : Prop := snd (scale2 n d e) <= fst (scale2 n d e).

Lemma scale2_positive n d e :
  0 < n -> 0 < d -> 0 < fst (scale2 n d e) /\ 0 < snd (scale2 n d e).
Proof.
  intros Hn Hd. unfold scale2. destruct (Z.leb_spec 0 e); cbn [fst snd].
  - split; [lia|]. apply Z.mul_pos_pos; [lia|]. apply Z.pow_pos_nonneg; lia.
  - split; [|lia]. apply Z.mul_pos_pos; [lia|]. apply Z.pow_pos_nonneg; lia.
Qed.

(** The value at [e1] is [2 ^ (e2 - e1)] times the value at [e2]. *)
Lemma scale2_shift n d e1 e2 :
  e1 <= e2 ->
  fst (scale2 n d e1) * snd (scale2 n d e2)
    = 2 ^ (e2 - e1) * fst (scale2 n d e2) * snd (scale2 n d e1).
Proof.
  intros H. unfold scale2.
  destruct (Z.leb_spec 0 e1), (Z.leb_spec 0 e2); cbn [fst snd]; try lia.
  - replace e2 with (e1 + (e2 - e1)) at 1 by lia.
    rewrite Z.pow_add_r by lia. ring.
  - assert (E : 2 ^ (e2 - e1) = 2 ^ e2 * 2 ^ (- e1)).
    { rewrite <- Z.pow_add_r by lia. f_equal; lia. }
    rewrite E. ring.
  - assert (E : 2 ^ (- e1) = 2 ^ (e2 - e1) * 2 ^ (- e2)).
    { rewrite <- Z.pow_add_r by lia. f_equal; lia. }
    rewrite E. ring.
Qed.

Lemma below_antitone n d e1 e2 :
  0 < n -> 0 < d -> e1 <= e2 -> below n d e2 -> below n d e1.
Proof.
  intros Hn Hd H B. unfold below in *.
  pose proof (scale2_shift n d e1 e2 H) as S.
  destruct (scale2_positive n d e1 Hn Hd) as [A1 B1].
  destruct (scale2_positive n d e2 Hn Hd) as [A2 B2].
  assert (P : 1 <= 2 ^ (e2 - e1)).
  { assert (0 < 2 ^ (e2 - e1)) by (apply Z.pow_pos_nonneg; lia). lia. }
  apply Z.mul_le_mono_pos_r with (p := snd (scale2 n d e2)); [exact B2|].
  rewrite S.
  apply Z.le_trans with (fst (scale2 n d e2) * snd (scale2 n d e1)).
  - rewrite (Z.mul_comm (snd (scale2 n d e1))).
    apply Z.mul_le_mono_nonneg_r; lia.
  - rewrite <- Z.mul_assoc.
    rewrite <- (Z.mul_1_l (fst (scale2 n d e2) * snd (scale2 n d e1))) at 1.
    apply Z.mul_le_mono_nonneg_r; [|exact P].
    apply Z.lt_le_incl, Z.mul_pos_pos; assumption.
Qed.

Lemma below_log n d :
  0 < n -> 0 < d -> below n d (Z.log2 n - Z.log2 d - 1).
Proof.
  intros Hn Hd. unfold below, scale2.
  destruct (Z.log2_spec n Hn) as [N1 N2], (Z.log2_spec d Hd) as [D1 D2].
  pose proof (Z.log2_nonneg n). pose proof (Z.log2_nonneg d).
  destruct (Z.leb_spec 0 (Z.log2 n - Z.log2 d - 1)); cbn [fst snd].
  - assert (E : 2 ^ Z.succ (Z.log2 d) * 2 ^ (Z.log2 n - Z.log2 d - 1) = 2 ^ Z.log2 n).
    { rewrite <- Z.pow_add_r by lia. f_equal; lia. }
    assert (0 < 2 ^ (Z.log2 n - Z.log2 d - 1)) by (apply Z.pow_pos_nonneg; lia).
    nia.
  - assert (E : 2 ^ Z.log2 n * 2 ^ (- (Z.log2 n - Z.log2 d - 1)) = 2 ^ Z.succ (Z.log2 d)).
    { rewrite <- Z.pow_add_r by lia. f_equal; lia. }
    assert (0 < 2 ^ (- (Z.log2 n - Z.log2 d - 1))) by (apply Z.pow_pos_nonneg; lia).
    nia.
Qed.

Lemma not_below_log n d :
  0 < n -> 0 < d -> ~ below n d (Z.log2 n - Z.log2 d + 1).
Proof.
  intros Hn Hd. unfold below, scale2.
  destruct (Z.log2_spec n Hn) as [N1 N2], (Z.log2_spec d Hd) as [D1 D2].
  pose proof (Z.log2_nonneg n). pose proof (Z.log2_nonneg d).
  destruct (Z.leb_spec 0 (Z.log2 n - Z.log2 d + 1)); cbn [fst snd].
  - assert (E : 2 ^ Z.log2 d * 2 ^ (Z.log2 n - Z.log2 d + 1) = 2 ^ Z.succ (Z.log2 n)).
    { rewrite <- Z.pow_add_r by lia. f_equal; lia. }
    assert (0 < 2 ^ (Z.log2 n - Z.log2 d + 1)) by (apply Z.pow_pos_nonneg; lia).
    nia.
  - assert (E : 2 ^ Z.succ (Z.log2 n) * 2 ^ (- (Z.log2 n - Z.log2 d + 1)) = 2 ^ Z.log2 d).
    { rewrite <- Z.pow_add_r by lia. f_equal; lia. }
    assert (0 < 2 ^ (- (Z.log2 n - Z.log2 d + 1))) by (apply Z.pow_pos_nonneg; lia).
    nia.
Qed.

Lemma binade_spec n d :
  0 < n -> 0 < d -> below n d (binade n d) /\ ~ below n d (binade n d + 1).
Proof.
  intros Hn Hd. unfold binade.
  pose proof (below_log n d Hn Hd) as L. pose proof (not_below_log n d Hn Hd) as U.
  destruct (scale2 n d (Z.log2 n - Z.log2 d)) as [a b] eqn:E.
  destruct (Z.leb_spec b a) as [T|T].
  - split; [unfold below; rewrite E; exact T|exact U].
  - split; [exact L|].
    replace (Z.log2 n - Z.log2 d - 1 + 1) with (Z.log2 n - Z.log2 d) by lia.
    unfold below. rewrite E. cbn [fst snd]. lia.
Qed.

Lemma binade_unique n d e :
  0 < n -> 0 < d -> below n d e -> ~ below n d (e + 1) -> binade n d = e.
Proof.
  intros Hn Hd B N. destruct (binade_spec n d Hn Hd) as [B' N'].
  destruct (Z.lt_trichotomy (binade n d) e) as [H|[H|H]]; [|exact H|]; exfalso.
  - apply N'. apply below_antitone with (e2 := e); auto; lia.
  - apply N. apply below_antitone with (e2 := binade n d); auto; lia.
Qed.

Lemma scale2_cross n d n' d' e :
  n * d' = n' * d ->
  fst (scale2 n d e) * snd (scale2 n' d' e) = fst (scale2 n' d' e) * snd (scale2 n d e).
Proof.
  intros H. unfold scale2. destruct (0 <=? e); cbn [fst snd].
  - rewrite Z.mul_assoc, H. ring.
  - rewrite <- Z.mul_assoc, (Z.mul_comm (2 ^ (- e)) d'), Z.mul_assoc, H. ring.
Qed.

Lemma below_ext n d n' d' e :
  0 < n -> 0 < d -> 0 < n' -> 0 < d' -> n * d' = n' * d ->
  below n d e -> below n' d' e.
Proof.
  intros Hn Hd Hn' Hd' H B. unfold below in *.
  pose proof (scale2_cross n d n' d' e H) as C.
  destruct (scale2_positive n d e Hn Hd) as [A1 B1].
  destruct (scale2_positive n' d' e Hn' Hd') as [A2 B2].
  apply Z.mul_le_mono_pos_r with (p := snd (scale2 n d e)); [exact B1|].
  rewrite <- C. nia.
Qed.

Lemma binade_ext n d n' d' :
  0 < n -> 0 < d -> 0 < n' -> 0 < d' -> n * d' = n' * d ->
  binade n d = binade n' d'.
Proof.
  intros Hn Hd Hn' Hd' H. symmetry. apply binade_unique; auto.
  - apply below_ext with (n := n) (d := d); auto. apply binade_spec; auto.
  - intros B. apply (proj2 (binade_spec n d Hn Hd)).
    apply below_ext with (n := n') (d := d'); auto.
Qed.

Lemma div_cross a b a' b' :
  0 < b -> 0 < b' -> a * b' = a' * b -> a / b = a' / b'.
Proof.
  intros Hb Hb' H.
  rewrite <- (Z.div_mul_cancel_r a b b') by lia.
  rewrite H, (Z.mul_comm b b'), Z.div_mul_cancel_r by lia. reflexivity.
Qed.

(** The float depends on the value of the fraction alone. *)
Lemma nearest_float_ext n d n' d' :
  0 < n -> 0 < d -> 0 < n' -> 0 < d' -> n * d' = n' * d ->
  nearest_float n d = nearest_float n' d'.
Proof.
  intros Hn Hd Hn' Hd' H. unfold nearest_float.
  rewrite (binade_ext n d n' d') by assumption.
  set (e := Z.max (binade n' d' - 52) (-1074)).
  pose proof (scale2_cross n d n' d' e H) as C.
  destruct (scale2_positive n d e Hn Hd) as [A1 B1].
  destruct (scale2_positive n' d' e Hn' Hd') as [A2 B2].
  destruct (scale2 n d e) as [a b], (scale2 n' d' e) as [a' b']. cbn [fst snd] in *.
  rewrite (div_cross a b a' b') by assumption.
  replace (2 * a ?= (2 * (a' / b') + 1) * b) with (2 * a' ?= (2 * (a' / b') + 1) * b');
    [reflexivity|].
  rewrite (Zmult_compare_compat_r (2 * a') _ b) by lia.
  rewrite (Zmult_compare_compat_r (2 * a) _ b') by lia.
  f_equal; [|ring].
  rewrite <- !Z.mul_assoc, C. reflexivity.
Qed.

(** A fraction that is a float rounds to that float. *)
Lemma nearest_float_exact n d m e :
  0 < n -> 0 < d ->
  Z.max (Z.log2 (Z.pos m) + e - 52) (-1074) = e -> e <= 971 ->
  fst (scale2 n d e) = Z.pos m * snd (scale2 n d e) ->
  nearest_float n d = S754_finite false m e.
Proof.
  intros Hn Hd C E X.
  destruct (Z.log2_spec (Z.pos m) eq_refl) as [M1 M2].
  pose proof (Z.log2_nonneg (Z.pos m)) as M0.
  set (t := Z.log2 (Z.pos m)) in *.
  assert (T : forall u, 0 <= u -> below n d (e + u) <-> 2 ^ u <= Z.pos m).
  { intros u Hu. unfold below.
    pose proof (scale2_shift n d e (e + u) ltac:(lia)) as S.
    replace (e + u - e) with u in S by lia. rewrite X in S.
    destruct (scale2_positive n d e Hn Hd) as [A1 B1].
    destruct (scale2_positive n d (e + u) Hn Hd) as [A2 B2].
    assert (0 < 2 ^ u) by (apply Z.pow_pos_nonneg; lia).
    assert (S' : Z.pos m * snd (scale2 n d (e + u)) = 2 ^ u * fst (scale2 n d (e + u))).
    { apply Z.mul_reg_r with (snd (scale2 n d e)); [lia|]. rewrite <- S. ring. }
    split; intros K.
    - apply Z.mul_le_mono_pos_r with (snd (scale2 n d (e + u))); [lia|].
      rewrite S'. apply Z.mul_le_mono_nonneg_l; lia.
    - apply Z.mul_le_mono_pos_l with (2 ^ u); [lia|].
      rewrite <- S'. apply Z.mul_le_mono_nonneg_r; lia. }
  assert (B : binade n d = e + t).
  { apply binade_unique; auto.
    - apply T; [lia|exact M1].
    - replace (e + t + 1) with (e + Z.succ t) by lia. rewrite T by lia. lia. }
  unfold nearest_float. rewrite B.
  replace (Z.max (e + t - 52) (-1074)) with e by lia.
  destruct (scale2_positive n d e Hn Hd) as [A1 B1].
  destruct (scale2 n d e) as [a b]. cbn [fst snd] in *. subst a.
  rewrite Z.div_mul by lia.
  replace (2 * (Z.pos m * b) ?= (2 * Z.pos m + 1) * b) with Lt
    by (symmetry; apply Z.compare_lt_iff; nia).
  assert (M53 : Z.pos m < 2 ^ 53).
  { eapply Z.lt_le_trans; [exact M2|]. apply Z.pow_le_mono_r; lia. }
  replace (Z.pos m =? 2 ^ 53) with false by (symmetry; apply Z.eqb_neq; lia).
  replace (971 <? e) with false by (symmetry; apply Z.ltb_ge; lia).
  reflexivity.
Qed.

(** ** The string of a number, read back *)

Lemma append_empty (s : string) : s ++ "" = s.
Proof.
  induction s as [|c s IH]; [reflexivity|].
  change (String c (s ++ "") = String c s). f_equal. exact IH.
Qed.

Lemma append_append (a b c : string) : (a ++ b) ++ c = a ++ (b ++ c).
Proof.
  induction a as [|x a IH]; [reflexivity|].
  change (String x ((a ++ b) ++ c) = String x (a ++ (b ++ c))).
  f_equal. exact IH.
Qed.

Lemma length_append (a b : string) :
  String.length (a ++ b) = (String.length a + String.length b)%nat.
Proof.
  induction a as [|x a IH]; [reflexivity|].
  change (S (String.length (a ++ b)) = S (String.length a + String.length b)).
  f_equal. exact IH.
Qed.

(** Strings of decimal digits. *)
Fixpoint all_digits (s : string) : bool :=
  match s with
  | String c s => is_digit c && all_digits s
  | EmptyString => true
  end.

(** What can follow the digits of a number: anything but a digit or an
    underscore. *)
Definition ends_digits (rest : string) : bool :=
  match rest with
  | String c _ => negb (is_digit c) && negb (c =? "_")%char
  | EmptyString => true
  end.

(** What the tokenizer tests on the first character of a number. *)
Lemma digit_is_plain c :
  is_digit c = true ->
  is_blank c = false /\ is_newline c = false /\ (c =? "#")%char = false
  /\ (c =? "\")%char = false /\ (c =? "_")%char = false.
Proof.
  destruct c as [[] [] [] [] [] [] [] []]; intros H; try discriminate H;
    repeat split; reflexivity.
Qed.

Lemma digitpart_all_digits ds rest :
  all_digits ds = true -> ends_digits rest = true ->
  digitpart is_digit (ds ++ rest) = (ds, rest).
Proof.
  intros D E.
  assert (R : digitpart is_digit rest = ("", rest)).
  { destruct rest as [|c r]; [reflexivity|]. cbn [ends_digits] in E.
    apply andb_true_iff in E as [E _]. cbn [digitpart].
    destruct (is_digit c); [discriminate|reflexivity]. }
  induction ds as [|c ds IH]; [exact R|].
  cbn [all_digits] in D. apply andb_true_iff in D as [Dc Ds].
  change (String c ds ++ rest) with (String c (ds ++ rest)).
  cbn [digitpart]. rewrite Dc.
  destruct ds as [|c' ds'].
  - change ("" ++ rest) with rest.
    destruct rest as [|c' r]; [reflexivity|].
    cbn [ends_digits] in E. apply andb_true_iff in E as [_ E].
    destruct (c' =? "_")%char; [discriminate|]. rewrite R. reflexivity.
  - change (String c' ds' ++ rest) with (String c' (ds' ++ rest)) in *.
    cbn [all_digits] in Ds. apply andb_true_iff in Ds as [Dc' Ds'].
    destruct (digit_is_plain c' Dc') as (_ & _ & _ & _ & ->).
    rewrite IH; [reflexivity|]. cbn [all_digits]. rewrite Dc', Ds'. reflexivity.
Qed.

Lemma digitpart_digits ds :
  all_digits ds = true -> digitpart is_digit ds = (ds, "").
Proof.
  intros D. rewrite <- (append_empty ds) at 1. apply digitpart_all_digits; auto.
Qed.

Lemma all_digits_append a b :
  all_digits (a ++ b) = all_digits a && all_digits b.
Proof.
  induction a as [|c a IH]; [reflexivity|].
  change (String c a ++ b) with (String c (a ++ b)). cbn [all_digits].
  rewrite IH, andb_assoc. reflexivity.
Qed.

Lemma all_digits_zeros k : all_digits (zeros k) = true.
Proof. induction k as [|k IH]; [reflexivity|]. cbn [zeros all_digits]. exact IH. Qed.

Lemma all_digits_uint u : all_digits (NilEmpty.string_of_uint u) = true.
Proof. induction u; [reflexivity|..]; cbn [NilEmpty.string_of_uint all_digits]; exact IHu. Qed.

Lemma all_digits_of_N n : all_digits (digits_of_N n) = true.
Proof. apply all_digits_uint. Qed.

Lemma take_drop n s : string_take n s ++ string_drop n s = s.
Proof.
  revert s. induction n as [|n IH]; intros s; [reflexivity|].
  destruct s as [|c s]; [reflexivity|]. cbn [string_take string_drop].
  change (String c (string_take n s ++ string_drop n s) = String c s).
  f_equal. apply IH.
Qed.

Lemma all_digits_take_drop n s :
  all_digits s = true ->
  all_digits (string_take n s) = true /\ all_digits (string_drop n s) = true.
Proof.
  intros H. rewrite <- (take_drop n s), all_digits_append in H.
  apply andb_true_iff in H. exact H.
Qed.

Lemma length_drop n s :
  (n <= String.length s)%nat ->
  String.length (string_drop n s) = (String.length s - n)%nat.
Proof.
  revert s. induction n as [|n IH]; intros s H.
  - cbn [string_drop]. lia.
  - destruct s as [|c s]; [cbn in H; lia|]. cbn [string_drop String.length] in *.
    rewrite IH by lia. reflexivity.
Qed.

(** The number a string of digits writes, digit by digit. *)
Lemma of_uint_acc_radix u acc :
  N.pos (Pos.of_uint_acc u acc) = radix_value 10 (N.pos acc) (NilEmpty.string_of_uint u).
Proof.
  revert acc. induction u; intros acc; [reflexivity|..];
    cbn [Pos.of_uint_acc NilEmpty.string_of_uint radix_value]; rewrite IHu;
    f_equal;
    match goal with |- context [digit_value ?c] =>
      let v := eval vm_compute in (digit_value c) in change (digit_value c) with v
    end; lia.
Qed.

Lemma of_uint_radix u :
  N.of_uint u = radix_value 10 0 (NilEmpty.string_of_uint u).
Proof.
  unfold N.of_uint.
  induction u; [reflexivity|..];
    cbn [Pos.of_uint NilEmpty.string_of_uint radix_value];
    [exact IHu|apply of_uint_acc_radix..].
Qed.

Lemma all_digits_uint_of_string s :
  all_digits s = true ->
  exists u, NilEmpty.uint_of_string s = Some u /\ NilEmpty.string_of_uint u = s.
Proof.
  induction s as [|c s IH]; intros H.
  - exists Decimal.Nil. split; reflexivity.
  - cbn [all_digits] in H. apply andb_true_iff in H as [Hc Hs].
    destruct (IH Hs) as (u & E & <-). cbn [NilEmpty.uint_of_string]. rewrite E.
    destruct c as [[] [] [] [] [] [] [] []]; try discriminate Hc;
      eexists; split; reflexivity.
Qed.

Lemma decimal_value_radix s :
  all_digits s = true -> decimal_value s = radix_value 10 0 s.
Proof.
  intros H. destruct (all_digits_uint_of_string s H) as (u & E & <-).
  unfold decimal_value. rewrite NilEmpty.usu. apply of_uint_radix.
Qed.

Lemma radix_value_append base acc a b :
  radix_value base acc (a ++ b) = radix_value base (radix_value base acc a) b.
Proof.
  revert acc. induction a as [|c a IH]; intros acc; [reflexivity|].
  change (String c a ++ b) with (String c (a ++ b)). cbn [radix_value]. apply IH.
Qed.

Lemma radix_value_zeros acc k :
  radix_value 10 acc (zeros k) = (acc * 10 ^ N.of_nat k)%N.
Proof.
  revert acc. induction k as [|k IH]; intros acc.
  - cbn. lia.
  - cbn [zeros radix_value]. rewrite IH.
    replace (N.of_nat (S k)) with (N.succ (N.of_nat k)) by lia.
    rewrite N.pow_succ_r'. change (digit_value "0") with 0%N. ring.
Qed.

Lemma decimal_value_digits n : decimal_value (digits_of_N n) = n.
Proof.
  unfold digits_of_N, decimal_value. rewrite NilEmpty.usu.
  apply DecimalN.Unsigned.of_to.
Qed.

Lemma decimal_value_zeros_digits k s :
  all_digits s = true -> decimal_value (zeros k ++ s) = decimal_value s.
Proof.
  intros H. rewrite !decimal_value_radix;
    [|exact H|rewrite all_digits_append, all_digits_zeros; exact H].
  rewrite radix_value_append, radix_value_zeros. reflexivity.
Qed.

Lemma decimal_value_digits_zeros s k :
  all_digits s = true ->
  decimal_value (s ++ zeros k) = (decimal_value s * 10 ^ N.of_nat k)%N.
Proof.
  intros H. rewrite !decimal_value_radix;
    [|exact H|rewrite all_digits_append, all_digits_zeros, H; reflexivity].
  rewrite radix_value_append, radix_value_zeros. reflexivity.
Qed.

(** The digits of a number are "0", or start with a digit that is not 0. *)
Lemma unorm_head u :
  NilEmpty.string_of_uint (Decimal.unorm u) = "0"
  \/ exists c s, NilEmpty.string_of_uint (Decimal.unorm u) = String c s
       /\ is_digit c = true /\ (c =? "0")%char = false.
Proof.
  unfold Decimal.unorm.
  induction u; cbn [Decimal.nzhead]; try (right; eexists _, _; repeat split; reflexivity).
  - left. reflexivity.
  - exact IHu.
Qed.

Lemma digits_of_N_head n :
  digits_of_N n = "0"
  \/ exists c s, digits_of_N n = String c s /\ is_digit c = true /\ (c =? "0")%char = false.
Proof.
  unfold digits_of_N.
  replace (N.to_uint n) with (Decimal.unorm (N.to_uint n)); [apply unorm_head|].
  rewrite <- DecimalN.Unsigned.to_of, DecimalN.Unsigned.of_to. reflexivity.
Qed.

Lemma digits_of_N_positive n :
  (0 < n)%N ->
  exists c s, digits_of_N n = String c s /\ is_digit c = true /\ (c =? "0")%char = false.
Proof.
  intros H. destruct (digits_of_N_head n) as [E|E]; [|exact E]. exfalso.
  pose proof (decimal_value_digits n) as V. rewrite E in V. cbn in V. lia.
Qed.

(** ** Tokens of a number *)

Lemma number_decimal c s :
  (c =? "0")%char = false -> number (String c s) = decimal_number (String c s).
Proof. intros H. unfold number. destruct s; [reflexivity|]. rewrite H. reflexivity. Qed.

Lemma all_zeros_head c s : (c =? "0")%char = false -> all_zeros (String c s) = false.
Proof. intros H. unfold all_zeros. cbn [span]. rewrite H. reflexivity. Qed.

(** A number written in decimal, within the limit on the digits, is one
    NUMBER token. *)
Lemma number_digits n :
  (String.length (digits_of_N n) <= int_max_str_digits)%nat ->
  number (digits_of_N n) = Return (NUMBER (ast.CInt (Z.of_N n)), "").
Proof.
  intros L.
  assert (D : decimal_number (digits_of_N n) = Return (NUMBER (ast.CInt (Z.of_N n)), "")).
  { unfold decimal_number. rewrite digitpart_digits by apply all_digits_of_N.
    cbn [exponent obind fst snd orb starts_with_name_char].
    rewrite decimal_value_digits.
    destruct (digits_of_N_head n) as [-> | (c & s & E & Hc & Hz)]; [reflexivity|].
    rewrite E in *. destruct s as [|a s]; [reflexivity|].
    rewrite (all_zeros_head c _ Hz), Hz.
    replace (int_max_str_digits <? String.length (String c (String a s)))%nat with false;
      [reflexivity|].
    symmetry. apply Nat.ltb_ge. exact L. }
  destruct (digits_of_N_head n) as [E | (c & s & E & Hc & Hz)].
  - rewrite E in *. exact D.
  - rewrite E in *. rewrite number_decimal by exact Hz. exact D.
Qed.

Lemma tokens_line_start fuel depth c s :
  is_blank c = false -> is_newline c = false -> (c =? "#")%char = false ->
  tokens (S fuel) true depth (String c s) = tokens fuel false depth (String c s).
Proof. intros Hb Hn Hh. cbn [tokens indentation]. rewrite Hb, Hn, Hh. reflexivity. Qed.

Lemma tokens_number fuel c s v :
  is_digit c = true -> number (String c s) = Return (NUMBER v, "") ->
  tokens (S (S fuel)) false 0 (String c s) = Return [NUMBER v].
Proof.
  intros Hc Hn. cbn [tokens].
  destruct (digit_is_plain c Hc) as (-> & -> & -> & -> & _).
  rewrite Hc, Hn. reflexivity.
Qed.

Lemma tokenize_number c s v :
  is_digit c = true -> number (String c s) = Return (NUMBER v, "") ->
  tokenize (String c s) = Return [NUMBER v].
Proof.
  intros Hc Hn. unfold tokenize.
  replace (2 * String.length (String c s) + 2)%nat
    with (S (S (S (2 * String.length s + 1)))) by (cbn [String.length]; lia).
  destruct (digit_is_plain c Hc) as (Hb & Hl & Hh & _).
  rewrite tokens_line_start by assumption. apply tokens_number; assumption.
Qed.

Lemma tokens_minus fuel depth s :
  tokens (S fuel) false depth (String "-" s)
    = (ts <~ tokens fuel false depth s ;; Return (MINUS :: ts)).
Proof. reflexivity. Qed.

Lemma tokenize_minus_number c s v :
  is_digit c = true -> number (String c s) = Return (NUMBER v, "") ->
  tokenize (String "-" (String c s)) = Return [MINUS; NUMBER v].
Proof.
  intros Hc Hn. unfold tokenize.
  replace (2 * String.length (String "-" (String c s)) + 2)%nat
    with (S (S (S (S (2 * String.length (String c s)))))) by (cbn [String.length]; lia).
  rewrite tokens_line_start by reflexivity.
  rewrite tokens_minus, (tokens_number _ c s v Hc Hn). reflexivity.
Qed.

Lemma parse_number c s v :
  is_digit c = true -> number (String c s) = Return (NUMBER v, "") ->
  py_parse (String c s) = Return (ast.Constant v)
  /\ py_parse (String "-" (String c s)) = Return (ast.UnaryOp ast.USub (ast.Constant v)).
Proof.
  intros Hc Hn. unfold py_parse.
  rewrite (tokenize_number c s v Hc Hn), (tokenize_minus_number c s v Hc Hn).
  split; reflexivity.
Qed.

(** The string of an integer evaluates to that integer. *)
Lemma evaluate_str_int m n variables w :
  (String.length (digits_of_N (Z.abs_N n)) <= int_max_str_digits)%nat ->
  fst (evaluate m (str_int n) variables w) = Return (VInt n).
Proof.
  intros L. unfold evaluate. rewrite safe_eval_result.
  assert (H : forall p, Z.abs_N n = N.pos p ->
            py_parse (digits_of_N (N.pos p)) = Return (ast.Constant (ast.CInt (Z.pos p)))
            /\ py_parse (String "-" (digits_of_N (N.pos p)))
               = Return (ast.UnaryOp ast.USub (ast.Constant (ast.CInt (Z.pos p))))).
  { intros p E. rewrite E in L. pose proof (number_digits (N.pos p) L) as Hn.
    destruct (digits_of_N_positive (N.pos p) eq_refl) as (c & s & Ed & Hc & _).
    rewrite Ed in *. apply parse_number; assumption. }
  unfold str_int. destruct n as [|p|p].
  - reflexivity.
  - cbn [Z.to_N]. destruct (H p eq_refl) as [-> _]. reflexivity.
  - destruct (H p eq_refl) as [_ ->]. reflexivity.
Qed.

(** ** A float literal *)

Lemma decimal_value_leading_zero s : decimal_value (String "0" s) = decimal_value s.
Proof.
  unfold decimal_value. cbn [NilEmpty.uint_of_string].
  destruct (NilEmpty.uint_of_string s); reflexivity.
Qed.

Lemma exponent_exponent_text e : exponent (exponent_text e) = Some (Return (e, "")).
Proof.
  unfold exponent_text.
  set (ex := digits_of_N (Z.to_N (Z.abs e))).
  set (pad := if Z.abs e <? 10 then "0" else "").
  assert (D : all_digits (pad ++ ex) = true).
  { rewrite all_digits_append. unfold ex. rewrite all_digits_of_N.
    unfold pad. destruct (Z.abs e <? 10); reflexivity. }
  assert (V : Z.of_N (decimal_value (pad ++ ex)) = Z.abs e).
  { assert (decimal_value (pad ++ ex) = decimal_value ex) as ->.
    { unfold pad. destruct (Z.abs e <? 10); [|reflexivity].
      apply decimal_value_leading_zero. }
    unfold ex. rewrite decimal_value_digits. lia. }
  assert (N : exists c s, pad ++ ex = String c s).
  { unfold pad. destruct (Z.abs e <? 10); [eexists _, _; reflexivity|].
    destruct (digits_of_N_head (Z.to_N (Z.abs e))) as [E | (c & s & E & _)];
      fold ex in E; rewrite E; eexists _, _; reflexivity. }
  destruct N as (c & s & N).
  destruct (Z.ltb_spec e 0) as [H|H].
  - change ("e" ++ "-" ++ pad ++ ex) with (String "e" (String "-" (pad ++ ex))).
    cbn [exponent Ascii.eqb Bool.eqb orb].
    rewrite (digitpart_digits _ D), V, N. do 3 f_equal. lia.
  - change ("e" ++ "+" ++ pad ++ ex) with (String "e" (String "+" (pad ++ ex))).
    cbn [exponent Ascii.eqb Bool.eqb orb].
    rewrite (digitpart_digits _ D), V, N. do 3 f_equal. lia.
Qed.

Lemma ends_digits_exponent_text e : ends_digits (exponent_text e) = true.
Proof. reflexivity. Qed.

(** The tail of a float literal: nothing, or an exponent. *)
Definition tail_of (tail : string) (e : Z) : Prop :=
  (tail = "" /\ e = 0) \/ tail = exponent_text e.

Lemma tail_of_exponent tail e :
  tail_of tail e ->
  ends_digits tail = true
  /\ match exponent tail with
     | Some r => r = Return (e, "")
     | None => tail = "" /\ e = 0
     end.
Proof.
  intros [[-> ->] | ->].
  - split; [reflexivity|]. cbn. auto.
  - split; [reflexivity|]. rewrite exponent_exponent_text. reflexivity.
Qed.

Lemma decimal_number_point ip fr tail e :
  all_digits ip = true -> all_digits fr = true -> tail_of tail e ->
  decimal_number (ip ++ "." ++ fr ++ tail)
    = Return (NUMBER (ast.CFloat (decimal_to_float (decimal_value (ip ++ fr))
                                    (e - Z.of_nat (String.length fr)))), "").
Proof.
  intros I F T. destruct (tail_of_exponent tail e T) as [E X].
  unfold decimal_number.
  rewrite (digitpart_all_digits ip _ I) by reflexivity.
  change ("." ++ fr ++ tail) with (String "." (fr ++ tail)).
  cbn [Ascii.eqb Bool.eqb]. rewrite (digitpart_all_digits fr tail F E).
  destruct (exponent tail) as [r|].
  - subst r. reflexivity.
  - destruct X as [-> ->]. reflexivity.
Qed.

Lemma decimal_number_exponent ip e :
  all_digits ip = true ->
  decimal_number (ip ++ exponent_text e)
    = Return (NUMBER (ast.CFloat (decimal_to_float (decimal_value ip) e)), "").
Proof.
  intros I. unfold decimal_number.
  rewrite (digitpart_all_digits ip _ I) by reflexivity.
  assert (P : exists s, exponent_text e = String "e" s) by (eexists; reflexivity).
  destruct P as [s P]. pose proof (exponent_exponent_text e) as X.
  rewrite P in *. cbn [Ascii.eqb Bool.eqb]. rewrite X.
  cbn [obind fst snd orb String.length].
  rewrite append_empty, Z.sub_0_r. reflexivity.
Qed.

(** ** The value of a decimal *)

Lemma decimal_fraction_positive c e :
  0 < c -> 0 < fst (decimal_fraction c e) /\ 0 < snd (decimal_fraction c e).
Proof.
  intros H. unfold decimal_fraction. destruct (Z.leb_spec 0 e); cbn [fst snd].
  - split; [|lia]. apply Z.mul_pos_pos; [lia|]. apply Z.pow_pos_nonneg; lia.
  - split; [lia|]. apply Z.pow_pos_nonneg; lia.
Qed.

(** Zeros at the end of the digits count as a larger exponent. *)
Lemma decimal_fraction_shift c e k :
  0 <= k ->
  fst (decimal_fraction (c * 10 ^ k) e) * snd (decimal_fraction c (e + k))
    = fst (decimal_fraction c (e + k)) * snd (decimal_fraction (c * 10 ^ k) e).
Proof.
  intros K. unfold decimal_fraction.
  destruct (Z.leb_spec 0 e), (Z.leb_spec 0 (e + k)); cbn [fst snd]; try lia.
  - rewrite (Z.add_comm e k), Z.pow_add_r by lia. ring.
  - assert (E : 10 ^ k = 10 ^ (e + k) * 10 ^ (- e)).
    { rewrite <- Z.pow_add_r by lia. f_equal; lia. }
    rewrite E. ring.
  - assert (E : 10 ^ (- e) = 10 ^ k * 10 ^ (- (e + k))).
    { rewrite <- Z.pow_add_r by lia. f_equal; lia. }
    rewrite E. ring.
Qed.

Lemma decimal_to_float_shift c e k :
  (0 < c)%N -> 0 <= k ->
  decimal_to_float (c * N.pow 10 (Z.to_N k)) e = decimal_to_float c (e + k).
Proof.
  intros C K. unfold decimal_to_float.
  assert (P : (0 < c * 10 ^ Z.to_N k)%N).
  { apply N.mul_pos_pos; [exact C|]. apply N.neq_0_lt_0, N.pow_nonzero. discriminate. }
  destruct (c * 10 ^ Z.to_N k)%N as [|p] eqn:Ep; [lia|].
  destruct c as [|q]; [lia|]. rewrite <- Ep.
  assert (Z : Z.of_N (N.pos q * 10 ^ Z.to_N k) = Z.pos q * 10 ^ k).
  { rewrite N2Z.inj_mul, N2Z.inj_pow, Z2N.id by lia. reflexivity. }
  rewrite Z. change (Z.of_N (N.pos q)) with (Z.pos q).
  pose proof (decimal_fraction_shift (Z.pos q) e k K) as S.
  destruct (decimal_fraction_positive (Z.pos q * 10 ^ k) e) as [A1 B1].
  { apply Z.mul_pos_pos; [lia|]. apply Z.pow_pos_nonneg; lia. }
  destruct (decimal_fraction_positive (Z.pos q) (e + k)) as [A2 B2]; [lia|].
  destruct (decimal_fraction (Z.pos q * 10 ^ k) e) as [n d].
  destruct (decimal_fraction (Z.pos q) (e + k)) as [n' d'].
  cbn [fst snd] in *. apply nearest_float_ext; assumption.
Qed.

(** ** The floats of the format *)

Lemma digits2_log2 m : Z.pos (digits2_pos m) = Z.log2 (Z.pos m) + 1.
Proof.
  induction m as [m IH|m IH|]; [| |reflexivity]; cbn [digits2_pos Z.log2];
    rewrite Pos2Z.inj_succ, IH; destruct m; cbn [Z.log2 Pos.size]; lia.
Qed.

(** A float of the format: a significand of at most 53 bits on an
    exponent in range, in the one way the format writes it. *)
Lemma valid_binary_canonical s m e :
  valid_binary prec emax (S754_finite s m e) = true ->
  Z.max (Z.log2 (Z.pos m) + e - 52) (-1074) = e /\ e <= 971.
Proof.
  cbn [valid_binary]. unfold bounded, canonical_mantissa, fexp, emin, prec, emax.
  intros H. apply andb_true_iff in H as [C B].
  apply Z.eqb_eq in C. apply Z.leb_le in B. rewrite digits2_log2 in C.
  split; [|lia]. lia.
Qed.

Lemma float_fraction_exact s m e n d :
  float_fraction (S754_finite s m e) = Some (n, d) ->
  0 < d /\ fst (scale2 (Z.abs n) d e) = Z.pos m * snd (scale2 (Z.abs n) d e)
  /\ 0 < Z.abs n /\ d = 2 ^ Z.log2 d
  /\ (0 <= e -> d = 1) /\ (e < 0 -> Z.log2 d = - e /\ Z.abs n = Z.pos m).
Proof.
  cbn [float_fraction]. unfold scale2.
  assert (P : forall k, 0 <= k -> 0 < 2 ^ k) by (intros; apply Z.pow_pos_nonneg; lia).
  destruct (Z.leb_spec 0 e) as [H|H]; intros [= <- <-].
  - specialize (P e H). cbn [fst snd].
    assert (A : Z.abs ((if s then Z.neg m else Z.pos m) * 2 ^ e) = Z.pos m * 2 ^ e).
    { destruct s; rewrite Z.abs_mul, (Z.abs_eq (2 ^ e)) by lia; reflexivity. }
    rewrite A. repeat split; try lia.
  - specialize (P (- e) ltac:(lia)). cbn [fst snd].
    assert (A : Z.abs (if s then Z.neg m else Z.pos m) = Z.pos m) by (destruct s; reflexivity).
    rewrite A, Z.log2_pow2 by lia. repeat split; try lia.
Qed.

Lemma feqb_finite y m e :
  feqb y (S754_finite false m e) = true -> y = S754_finite false m e.
Proof.
  unfold feqb, SFeqb, SFcompare.
  destruct y as [s|s| |s m' e']; try discriminate; try (destruct s; discriminate).
  destruct s; [discriminate|].
  destruct (Z.compare_spec e' e) as [E|E|E]; try discriminate. subst e'.
  destruct (Pos.compare_cont Eq m' m) eqn:C; try discriminate.
  change (Pos.compare_cont Eq m' m) with (Pos.compare m' m) in C.
  apply Pos.compare_eq in C. subst m'. reflexivity.
Qed.

(** ** The digits of [repr] read back *)

(** A decimal whose value is a float of the format reads as that
    float. *)
Lemma decimal_to_float_exact c e10 m e :
  0 < c ->
  Z.max (Z.log2 (Z.pos m) + e - 52) (-1074) = e -> e <= 971 ->
  (let '(n, d) := decimal_fraction c e10 in
   fst (scale2 n d e) = Z.pos m * snd (scale2 n d e)) ->
  decimal_to_float (Z.to_N c) e10 = S754_finite false m e.
Proof.
  intros C K E X. unfold decimal_to_float.
  destruct c as [|p|p]; try lia. cbn [Z.to_N Z.of_N].
  destruct (decimal_fraction_positive (Z.pos p) e10 C) as [A B].
  destruct (decimal_fraction (Z.pos p) e10) as [n d]. cbn [fst snd] in *.
  apply nearest_float_exact; assumption.
Qed.

Lemma exact_reads_back m e n d :
  valid_binary prec emax (S754_finite false m e) = true ->
  float_fraction (S754_finite false m e) = Some (n, d) ->
  0 < fst (exact_decimal n d)
  /\ decimal_to_float (Z.to_N (fst (exact_decimal n d))) (snd (exact_decimal n d))
     = S754_finite false m e.
Proof.
  intros V F. destruct (valid_binary_canonical _ _ _ V) as [K E].
  unfold exact_decimal. cbn [fst snd].
  cbn [float_fraction] in F.
  assert (P : forall k, 0 <= k -> 0 < 5 ^ k /\ 0 < 2 ^ k /\ 10 ^ k = 5 ^ k * 2 ^ k).
  { intros k Hk. split; [apply Z.pow_pos_nonneg; lia|].
    split; [apply Z.pow_pos_nonneg; lia|]. rewrite <- Z.pow_mul_l. reflexivity. }
  destruct (Z.leb_spec 0 e) as [H|H]; injection F as <- <-.
  - change (Z.log2 1) with 0. rewrite Z.pow_0_r, Z.mul_1_r.
    destruct (P e H) as (_ & P2 & _).
    split; [lia|]. apply decimal_to_float_exact; [lia|exact K|exact E|].
    unfold decimal_fraction, scale2. change (0 <=? - 0) with true.
    replace (0 <=? e) with true by (symmetry; apply Z.leb_le; lia).
    cbn [fst snd]. change (10 ^ (- 0)) with 1. ring.
  - rewrite Z.log2_pow2 by lia. destruct (P (- e) ltac:(lia)) as (P5 & P2 & P10).
    split; [lia|]. apply decimal_to_float_exact; [lia|exact K|exact E|].
    unfold decimal_fraction, scale2.
    replace (0 <=? - - e) with false by (symmetry; apply Z.leb_gt; lia).
    replace (0 <=? e) with false by (symmetry; apply Z.leb_gt; lia).
    cbn [fst snd]. rewrite Z.opp_involutive, P10. ring.
Qed.

Lemma decimal_to_float_positive c e10 m e :
  decimal_to_float (Z.to_N c) e10 = S754_finite false m e -> 0 < c.
Proof. destruct c; try discriminate. lia. Qed.

Lemma candidate_reads_back m e n d k p c e10 :
  candidate (S754_finite false m e) n d k p = Some (c, e10) ->
  0 < c /\ decimal_to_float (Z.to_N c) e10 = S754_finite false m e.
Proof.
  unfold candidate. cbv zeta.
  match goal with |- context [feqb (decimal_to_float (Z.to_N ?a) ?b) _] =>
    destruct (feqb (decimal_to_float (Z.to_N a) b) (S754_finite false m e)) eqn:F1
  end.
  - intros [= <- <-]. apply feqb_finite in F1.
    split; [eapply decimal_to_float_positive; exact F1|exact F1].
  - match goal with |- context [feqb (decimal_to_float (Z.to_N ?a) ?b) _] =>
      destruct (feqb (decimal_to_float (Z.to_N a) b) (S754_finite false m e)) eqn:F2
    end; [|discriminate].
    intros [= <- <-]. apply feqb_finite in F2.
    split; [eapply decimal_to_float_positive; exact F2|exact F2].
Qed.

Lemma shortest_reads_back fuel m e n d k p :
  valid_binary prec emax (S754_finite false m e) = true ->
  float_fraction (S754_finite false m e) = Some (n, d) ->
  0 < fst (shortest fuel (S754_finite false m e) n d k p)
  /\ decimal_to_float (Z.to_N (fst (shortest fuel (S754_finite false m e) n d k p)))
       (snd (shortest fuel (S754_finite false m e) n d k p))
     = S754_finite false m e.
Proof.
  intros V F. revert p. induction fuel as [|fuel IH]; intros p; cbn [shortest].
  - apply exact_reads_back; assumption.
  - destruct (candidate (S754_finite false m e) n d k p) as [[c e10]|] eqn:C.
    + apply candidate_reads_back in C. exact C.
    + apply IH.
Qed.

Lemma strip_zeros_reads_back fuel c e10 :
  0 < c ->
  0 < fst (strip_zeros fuel c e10)
  /\ decimal_to_float (Z.to_N (fst (strip_zeros fuel c e10))) (snd (strip_zeros fuel c e10))
     = decimal_to_float (Z.to_N c) e10.
Proof.
  revert c e10. induction fuel as [|fuel IH]; intros c e10 C; cbn [strip_zeros].
  - split; [exact C|reflexivity].
  - destruct (Z.eqb_spec (c mod 10) 0) as [M|M]; cbn [andb]; [|split; [exact C|reflexivity]].
    destruct (Z.eqb_spec c 0) as [Z|Z]; cbn [negb]; [lia|].
    assert (D : c = c / 10 * 10).
    { rewrite (Z.div_mod c 10) at 1 by lia. rewrite M. ring. }
    assert (Q : 0 < c / 10) by lia.
    destruct (IH (c / 10) (e10 + 1) Q) as [P R]. split; [exact P|].
    rewrite R. rewrite D at 2. rewrite Z2N.inj_mul by lia.
    rewrite <- (decimal_to_float_shift (Z.to_N (c / 10)) e10 1) by lia.
    reflexivity.
Qed.

(** ** The layout of [repr] read back *)

Lemma length_zeros k : String.length (zeros k) = k.
Proof. induction k as [|k IH]; [reflexivity|]. cbn [zeros String.length]. rewrite IH. reflexivity. Qed.

Lemma zeros_snoc k : zeros k ++ "0" = zeros (S k).
Proof.
  induction k as [|k IH]; [reflexivity|].
  change (String "0" (zeros k ++ "0") = String "0" (zeros (S k))). rewrite IH. reflexivity.
Qed.

Lemma decimal_number_plain ip fr :
  all_digits ip = true -> all_digits fr = true ->
  decimal_number (ip ++ "." ++ fr)
    = Return (NUMBER (ast.CFloat (decimal_to_float (decimal_value (ip ++ fr))
                                    (- Z.of_nat (String.length fr)))), "").
Proof.
  intros I F. rewrite <- (append_empty fr) at 1.
  rewrite (decimal_number_point ip fr "" 0 I F); [reflexivity|]. left. auto.
Qed.

Ltac same_exponent :=
  match goal with
  | |- Return (NUMBER (ast.CFloat (decimal_to_float ?a ?x)), _)
       = Return (NUMBER (ast.CFloat (decimal_to_float ?a ?y)), _) =>
      replace x with y; [reflexivity|]
  end.

Lemma number_layout c e10 :
  (0 < c)%N ->
  exists ch s,
    layout true (digits_of_N c) (Z.of_nat (String.length (digits_of_N c)) + e10) = String ch s
    /\ is_digit ch = true
    /\ number (String ch s) = Return (NUMBER (ast.CFloat (decimal_to_float c e10)), "").
Proof.
  intros C.
  destruct (digits_of_N_positive c C) as (c1 & rest & E & H1 & Z1).
  pose proof (all_digits_of_N c) as D. pose proof (decimal_value_digits c) as V.
  rewrite E in *. clear E.
  assert (Dr : all_digits rest = true).
  { cbn [all_digits] in D. apply andb_true_iff in D. apply D. }
  unfold layout. set (ds := String c1 rest) in *.
  set (nd := Z.of_nat (String.length ds)).
  assert (Nd : nd = 1 + Z.of_nat (String.length rest)).
  { unfold nd, ds. cbn [String.length]. lia. }
  destruct ((nd + e10 <=? -4) || (16 <? nd + e10)) eqn:X.
  - (* with an exponent *)
    clear X. unfold ds. destruct rest as [|c2 r].
    + exists c1, (exponent_text (nd + e10 - 1)). split; [reflexivity|]. split; [exact H1|].
      rewrite number_decimal by exact Z1.
      change (String c1 (exponent_text (nd + e10 - 1)))
        with (String c1 "" ++ exponent_text (nd + e10 - 1)).
      rewrite decimal_number_exponent by exact D. fold ds. rewrite V.
      same_exponent. cbn in Nd. lia.
    + exists c1, ("." ++ String c2 r ++ exponent_text (nd + e10 - 1)).
      split; [reflexivity|]. split; [exact H1|].
      rewrite number_decimal by exact Z1.
      change (String c1 ("." ++ String c2 r ++ exponent_text (nd + e10 - 1)))
        with (String c1 "" ++ "." ++ String c2 r ++ exponent_text (nd + e10 - 1)).
      rewrite (decimal_number_point (String c1 "") (String c2 r) _ (nd + e10 - 1));
        [| cbn [all_digits]; rewrite H1; reflexivity | exact Dr | right; reflexivity].
      change (String c1 "" ++ String c2 r) with ds. rewrite V.
      same_exponent. lia.
  - apply orb_false_iff in X as [X1 X2].
    apply Z.leb_gt in X1. apply Z.ltb_ge in X2.
    destruct (Z.leb_spec (nd + e10) 0) as [P|P].
    + (* zeros after the point *)
      set (z := Z.to_nat (- (nd + e10))).
      exists "0"%char, ("." ++ zeros z ++ ds). split; [reflexivity|]. split; [reflexivity|].
      change (number (String "0" ("." ++ zeros z ++ ds)))
        with (decimal_number ("0" ++ "." ++ zeros z ++ ds)).
      rewrite decimal_number_plain;
        [| reflexivity | rewrite all_digits_append, all_digits_zeros; exact D].
      change ("0" ++ zeros z ++ ds) with (zeros (S z) ++ ds).
      rewrite decimal_value_zeros_digits, V by exact D.
      same_exponent. rewrite length_append, length_zeros. fold nd. unfold nd in *. lia.
    + destruct (Z.leb_spec nd (nd + e10)) as [Q|Q].
      * (* zeros before the point *)
        set (z := Z.to_nat (nd + e10 - nd)).
        exists c1, (rest ++ zeros z ++ ".0"). split; [reflexivity|]. split; [exact H1|].
        rewrite number_decimal by exact Z1.
        change (String c1 (rest ++ zeros z ++ ".0")) with (ds ++ zeros z ++ "." ++ "0").
        rewrite <- append_append.
        rewrite decimal_number_plain;
          [| rewrite all_digits_append, all_digits_zeros, D; reflexivity | reflexivity].
        rewrite append_append, zeros_snoc, decimal_value_digits_zeros, V by exact D.
        replace (N.of_nat (S z)) with (Z.to_N (Z.of_nat (S z))) by lia.
        rewrite decimal_to_float_shift by lia.
        same_exponent. cbn [String.length]. lia.
      * (* the point among the digits *)
        set (n := Z.to_nat (nd + e10)).
        destruct n as [|n'] eqn:En; [lia|].
        exists c1, (string_take n' rest ++ "." ++ string_drop n' rest).
        split; [reflexivity|]. split; [exact H1|].
        rewrite number_decimal by exact Z1.
        change (String c1 (string_take n' rest ++ "." ++ string_drop n' rest))
          with (string_take (S n') ds ++ "." ++ string_drop (S n') ds).
        destruct (all_digits_take_drop (S n') ds D) as [Dt Dd].
        rewrite decimal_number_plain by assumption.
        rewrite take_drop, V. same_exponent.
        rewrite length_drop by (unfold nd, ds in *; cbn [String.length] in *; lia).
        fold nd. unfold nd in *. lia.
Qed.

(** [repr] of a positive float of the format is one NUMBER token, of
    that float. *)
Lemma number_format_positive m e :
  valid_binary prec emax (S754_finite false m e) = true ->
  exists ch s,
    format_positive true (S754_finite false m e) = String ch s
    /\ is_digit ch = true
    /\ number (String ch s) = Return (NUMBER (ast.CFloat (S754_finite false m e)), "").
Proof.
  intros V. unfold format_positive.
  destruct (float_fraction (S754_finite false m e)) as [[n d]|] eqn:F;
    [|cbn in F; discriminate].
  pose proof (shortest_reads_back 17 m e n d (decimal_point n d) 1 V F) as [P R].
  destruct (shortest 17 (S754_finite false m e) n d (decimal_point n d) 1) as [c0 e0].
  cbn [fst snd] in P, R.
  pose proof (strip_zeros_reads_back 17 c0 e0 P) as [P' R'].
  destruct (strip_zeros 17 c0 e0) as [c e10]. cbn [fst snd] in P', R'.
  rewrite R in R'. rewrite <- R'. apply number_layout. lia.
Qed.

(** [repr] of a finite float evaluates to that float. *)
Lemma evaluate_str_float m x variables w :
  is_finite x = true -> valid_binary prec emax x = true ->
  fst (evaluate m (str_float x) variables w) = Return (VFloat x).
Proof.
  intros F V. unfold evaluate. rewrite safe_eval_result.
  destruct x as [s|s| |s p e]; try discriminate F.
  - destruct s; reflexivity.
  - assert (V' : valid_binary prec emax (S754_finite false p e) = true) by exact V.
    destruct (number_format_positive p e V') as (ch & t & E & Hc & Hn).
    destruct (parse_number ch t _ Hc Hn) as [P1 P2].
    unfold str_float, format_float. cbn [fabs SFabs]. rewrite E.
    destruct s.
    + change ("-" ++ String ch t) with (String "-" (String ch t)). rewrite P2. reflexivity.
    + change ("" ++ String ch t) with (String ch t). rewrite P1. reflexivity.
Qed.

(** The values the round trip is about: an [int], [True] or [False], or
    a finite float of the format. *)
Definition literal_value (v : value) : bool :=
  match v with
  | VInt _ | VBool _ => true
  | VFloat x => is_finite x && valid_binary prec emax x
  | VComplex _ _ => false
  end.

(** The string of a value of a literal evaluates to that value. *)
Lemma evaluate_py_str m v text variables w :
  literal_value v = true -> py_str v = Return text ->
  fst (evaluate m text variables w) = Return v.
Proof.
  intros L S. destruct v as [n|b|x|re im]; try discriminate L; cbn [py_str] in S.
  - destruct (Nat.ltb_spec int_max_str_digits (String.length (digits_of_N (Z.abs_N n))))
      as [H|H]; [discriminate|].
    injection S as <-. apply evaluate_str_int. exact H.
  - injection S as <-. unfold evaluate. rewrite safe_eval_result. destruct b; reflexivity.
  - injection S as <-. cbn [literal_value] in L. apply andb_true_iff in L as [F V].
    apply evaluate_str_float; assumption.
Qed.

(** C6 (as amended).  For every integer [v] that [str] prints (at most
    [int_max_str_digits] digits), for [True] and [False], and for every
    finite float [v], evaluate(str(v)) returns [v].  [str] prints every
    such value but an integer of more digits, for which it raises a
    [ValueError]. *)
Theorem literal_round_trip m variables w :
  (forall v text,
      literal_value v = true -> py_str v = Return text ->
      fst (evaluate m text variables w) = Return v)
  /\ (forall v,
        literal_value v = true ->
        (exists text, py_str v = Return text)
        \/ (exists n, v = VInt n
              /\ (int_max_str_digits < String.length (digits_of_N (Z.abs_N n)))%nat
              /\ py_str v = Raise (ValueError ExceedsDigitLimit))).
Proof.
  split.
  - intros v text L S. apply evaluate_py_str; assumption.
  - intros v L. destruct v as [n|b|x|re im]; try discriminate L; cbn [py_str]; eauto.
    destruct (Nat.ltb_spec int_max_str_digits (String.length (digits_of_N (Z.abs_N n))))
      as [H|H]; eauto.
Qed.

Lemma literal_round_trip_witness :
  literal_value (VFloat (S754_finite false 7205759403792794 (-56))) = true
  /\ py_str (VFloat (S754_finite false 7205759403792794 (-56))) = Return "0.1"
  /\ fst (evaluate libm_nan "0.1" None initial_world)
     = Return (VFloat (S754_finite false 7205759403792794 (-56))).
Proof.
  split; [reflexivity|]. split; [vm_compute; reflexivity|].
  apply (proj1 (literal_round_trip libm_nan None initial_world)
           (VFloat (S754_finite false 7205759403792794 (-56))) "0.1").
  - reflexivity.
  - vm_compute. reflexivity.
Defined.

(** C6, counterexample.  The literal 1e999 has the value infinity; its
    string is "inf", a name, and evaluating it raises the
    undefined-variable [ValueError].  And 10 ** 4300, an integer of 4301
    digits, has no string to evaluate: [str] raises a [ValueError]. *)
Lemma literal_round_trip_counterexample :
  py_parse "1e999" = Return (ast.Constant (ast.CFloat finf))
  /\ py_str (VFloat finf) = Return "inf"
  /\ fst (evaluate libm_nan "inf" None initial_world)
       = Raise (ValueError (UndefinedVariable "inf"))
  /\ py_str (VInt (10 ^ 4300)) = Raise (ValueError ExceedsDigitLimit).
Proof.
  split; [vm_compute; reflexivity|]. split; [vm_compute; reflexivity|].
  split; vm_compute; reflexivity.
Qed.

(** * The callers of [safe_eval]: [CalculatorApp] and [main] *)

(** ** The application state *)

(** What the logger writes besides the debug line of [safe_eval] (which
    is in the log of the world): one constructor for each call of
    [logger.debug], [logger.info] and [logger.exception] in the class and
    in [main]. *)
Inductive record :=
| ButtonPressed (symbol : string)
| Evaluated (expr : string) (result : value)
| EvaluationError (expr : string)
| Clearing
| GraphingError (expr : string) (x : value)
| Graphed (expr : string)
| CliEvaluation (expr : string) (result : value)
| CliError (expr : string).

(** A figure handed to [pyplot]: the two sequences to plot and the
    expression of the title. *)
Record figure := Figure {
  figure_xs : list value;
  figure_ys : list value;
  figure_expr : string;
}.

(** A [CalculatorApp] at work: the text of its [tk.StringVar], the
    interpreter's world, the records logged, the errors that
    [messagebox.showerror] has shown and the figures that [plt.show] has
    displayed.  [backend] is [pyplot] as installed: what the calls from
    [plt.figure] to [plt.show] do with a figure, [None] when it is
    displayed and the exception when one of them raises.  Nothing
    catches that exception in the handler: it is [escaped], for Tk to
    report. *)
Record app := App {
  expression_var : string;
  interpreter : world;
  journal : list record;
  dialogs : list exn;
  figures : list figure;
  backend : figure -> option exn;
  escaped : list exn;
}.

(** A [tk.Event] of a key: the fields the handler reads. *)
Record event := Event {
  char : string;
  keysym : string;
}.

(** [range(start, stop)]. *)
Definition range (start stop : Z) : list Z :=
  map (fun i => start + Z.of_nat i) (seq 0 (Z.to_nat (stop - start))).

(** [sub in s] on strings: [sub] occurs in [s]. *)
Fixpoint occurs (sub s : string) : bool :=
  String.prefix sub s
  || match s with
     | String _ s' => occurs sub s'
     | EmptyString => false
     end.

(** [str.lower] on ASCII text. *)
Definition lower_char (c : ascii) : ascii :=
  if ((65 <=? code c) && (code c <=? 90))%N then ascii_of_N (code c + 32) else c.

Fixpoint lower (s : string) : string :=
  match s with
  | String c s' => String (lower_char c) (lower s')
  | EmptyString => EmptyString
  end.

(** The characters the key handler lets through. *)
Definition typed_characters : string := "0123456789.+-*/".

(** The sample points of a graph: [[x / 10 for x in range(-100, 101)]],
    each the float that the true division of two ints returns. *)
Definition xs : list value :=
  map (fun x => VFloat (float_of_quotient x 10)) (range (-100) 101).

(** A dict display with contents: a new dict that holds them. *)
Definition dict_display (contents : dict) : M loc :=
  fun w =>
    let d := fresh (dom (heap w)) in
    (Return d, World (<[d := contents]> (heap w)) (log w)).

Section Application.

Variable ast_parse : string -> outcome ast.expr.
Variable m : libm.

(** [self.expression_var.set(text)]. *)
Definition set_expression (text : string) (self : app) : app :=
  App text (interpreter self) (journal self) (dialogs self) (figures self)
    (backend self) (escaped self).

Definition logged (r : record) (self : app) : app :=
  App (expression_var self) (interpreter self) (journal self ++ [r])
    (dialogs self) (figures self) (backend self) (escaped self).

(** Evaluate current expression: the text of the result, or "Error" for
    whatever [safe_eval] or [str] raises. *)
Definition _evaluate (self : app) : app :=
  let expr := expression_var self in
  let failed w :=
    App "Error" w (journal self ++ [EvaluationError expr])
      (dialogs self) (figures self) (backend self) (escaped self) in
  match safe_eval ast_parse m expr None (interpreter self) with
  | (Return result, w) =>
      match py_str result with
      | Return text =>
          App text w (journal self ++ [Evaluated expr result])
            (dialogs self) (figures self) (backend self) (escaped self)
      | Raise exc => failed w
      end
  | (Raise exc, w) => failed w
  end.

(** Clear the expression. *)
Definition _clear (self : app) : app :=
  set_expression "" (logged Clearing self).

(** The loop of [_graph_expression] over the points left: the values
    collected, or the first exception with the point it came from. *)
Fixpoint sample (expr : string) (points : list value) (ys : list value) (w : world)
    : (list value + value * exn) * world :=
  match points with
  | [] => (inl ys, w)
  | x :: points =>
      let '(d, w1) := dict_display {[ "x" := x ]} w in
      match d with
      | Return d =>
          match safe_eval ast_parse m expr (Some d) w1 with
          | (Return y, w2) => sample expr points (ys ++ [y]) w2
          | (Raise exc, w2) => (inr (x, exc), w2)
          end
      | Raise exc => (inr (x, exc), w1)
      end
  end.

(** Plot the current expression as y=f(x).  The calls of [pyplot] come
    after the loop and outside its [try]. *)
Definition _graph_expression (self : app) : app :=
  let expr := expression_var self in
  match sample expr xs [] (interpreter self) with
  | (inl ys, w) =>
      match backend self (Figure xs ys expr) with
      | None =>
          App expr w (journal self ++ [Graphed expr]) (dialogs self)
            (figures self ++ [Figure xs ys expr]) (backend self) (escaped self)
      | Some exc =>
          App expr w (journal self) (dialogs self) (figures self)
            (backend self) (escaped self ++ [exc])
      end
  | (inr (x, exc), w) =>
      App expr w (journal self ++ [GraphingError expr x])
        (dialogs self ++ [exc]) (figures self) (backend self) (escaped self)
  end.

(** Handle button presses. *)
Definition _on_button_press (symbol : string) (self : app) : app :=
  let self := logged (ButtonPressed symbol) self in
  if String.eqb symbol "C" then _clear self
  else if String.eqb symbol "=" then _evaluate self
  else set_expression (expression_var self ++ symbol) self.

(** Handle keyboard input. *)
Definition _on_keypress (e : event) (self : app) : app :=
  if occurs (char e) typed_characters then
    set_expression (expression_var self ++ char e) self
  else if String.eqb (keysym e) "Return" then _evaluate self
  else if String.eqb (keysym e) "Escape" then _clear self
  else if String.eqb (lower (keysym e)) "g" then _graph_expression self
  else self.

(** What a run of [main] ends in: the result printed, the exit with
    status 1 after the error went to stderr, or the GUI. *)
Inductive ending :=
| Printed (text : string)
| Exit1 (exc : exn)
| Gui.

(** Entry point for command-line and GUI usage; [expression] is
    [args.expression].  [print] is inside the [try]: an error of [str]
    ends the run like an error of [safe_eval]. *)
Definition main (expression : option string) (w : world)
    : ending * list record * world :=
  match expression with
  | Some (String _ _ as expr) =>
      match safe_eval ast_parse m expr None w with
      | (Return result, w') =>
          match py_str result with
          | Return text => (Printed text, [CliEvaluation expr result], w')
          | Raise exc => (Exit1 exc, [CliError expr], w')
          end
      | (Raise exc, w') => (Exit1 exc, [CliError expr], w')
      end
  | _ => (Gui, [], w)
  end.

(** A run of button presses, first to last. *)
Definition press_all (symbols : list string) (self : app) : app :=
  fold_left (fun self symbol => _on_button_press symbol self) symbols self.

(** A run of key events, first to last. *)
Definition type_all (events : list event) (self : app) : app :=
  fold_left (fun self e => _on_keypress e self) events self.

End Application.

(** [pyplot] when it displays whatever it is given. *)
Definition plots_all : figure -> option exn := fun _ => None.

(** A new application: nothing typed, nothing shown. *)
Definition new_app : app := App "" initial_world [] [] [] plots_all [].

(** ** Properties of the evaluator beyond the claims *)

(** The height of a tree: the calls of [_eval] open at once while it is
    evaluated are at most that many. *)
Fixpoint height (node : ast.expr) : nat :=
  match node with
  | ast.BinOp l _ r => S (Nat.max (height l) (height r))
  | ast.UnaryOp _ e => S (height e)
  | _ => 1
  end.

(** A tree with a power in it.  The result of a power of integers can be
    too large to store, which the integers of this file never are. *)
Fixpoint uses_power (node : ast.expr) : bool :=
  match node with
  | ast.BinOp l op r => bool_decide (op = ast.Pow) || uses_power l || uses_power r
  | ast.UnaryOp _ e => uses_power e
  | _ => false
  end.

Section Limited.

Variable m : libm.

(** The frames that [ast.dump(node)], a recursive function of the
    library, needs: nothing is assumed of them. *)
Variable dump_frames : ast.expr -> nat.

(** [_eval] under the interpreter's limit on recursion, with [frames]
    calls left before the limit: a call that finds none left raises
    [RecursionError], and each call of [_eval] inside takes one. *)
Fixpoint _eval_within (frames : nat) (variables : loc) (node : ast.expr) : M value :=
  match frames with
  | O => raise RecursionError
  | S frames =>
      match node with
      | ast.BinOp node_left op node_right =>
          let op_type := ast.BinClass op in
          if contains _ALLOWED_OPERATORS op_type then
            left <- _eval_within frames variables node_left ;;
            right <- _eval_within frames variables node_right ;;
            apply m op_type [left; right]
          else raise (ValueError (OperatorNotAllowed op_type))
      | ast.UnaryOp op operand =>
          let op_type := ast.UnClass op in
          if contains _ALLOWED_OPERATORS op_type then
            operand <- _eval_within frames variables operand ;;
            apply m op_type [operand]
          else raise (ValueError (UnaryOperatorNotAllowed op_type))
      | ast.Name id =>
          present <- dict_contains variables id ;;
          if present then dict_getitem variables id
          else raise (ValueError (UndefinedVariable id))
      | ast.Constant (ast.CInt n) => ret (VInt n)
      | ast.Constant (ast.CBool b) => ret (VBool b)
      | ast.Constant (ast.CFloat x) => ret (VFloat x)
      | _ =>
          if (dump_frames node <=? frames)%nat
          then raise (ValueError (UnsupportedElement node))
          else raise RecursionError
      end
  end.

End Limited.

(** The integer a tree of integer literals under [+], [-], [*] and the
    unary minus stands for. *)
Fixpoint integer_value (node : ast.expr) : option Z :=
  match node with
  | ast.Constant (ast.CInt n) => Some n
  | ast.UnaryOp ast.USub e =>
      match integer_value e with Some n => Some (- n) | None => None end
  | ast.BinOp l op r =>
      match integer_value l, integer_value r with
      | Some a, Some b =>
          match op with
          | ast.Add => Some (a + b)
          | ast.Sub => Some (a - b)
          | ast.Mult => Some (a * b)
          | _ => None
          end
      | _, _ => None
      end
  | _ => None
  end.

(** An integer tree whose value has a float. *)
Definition integer_operand (node : ast.expr) : bool :=
  match integer_value node with
  | Some n => negb (is_inf (float_of_Z n))
  | None => false
  end.

(** Trees that compute in floats under [+], [-], [*] and the unary
    minus: float literals, the names [is_float] holds of, and sums,
    differences and products of such trees with each other or with an
    integer operand. *)
Fixpoint float_closed (is_float : string -> bool) (node : ast.expr) : bool :=
  match node with
  | ast.Constant (ast.CFloat _) => true
  | ast.Name id => is_float id
  | ast.UnaryOp ast.USub e => float_closed is_float e
  | ast.BinOp l (ast.Add | ast.Sub | ast.Mult) r =>
      (float_closed is_float l && (float_closed is_float r || integer_operand r))
      || (integer_operand l && float_closed is_float r)
  | _ => false
  end.

(** The outcome of a sample of a graph at [x]. *)
Definition at_point (ast_parse : string -> outcome ast.expr) (m : libm)
    (expr : string) (x : value) : outcome value :=
  tree <~ ast_parse expr ;; eval_tree m {[ "x" := x ]} tree.

(** Text made of characters that occur in [alphabet]. *)
Fixpoint text_over (alphabet s : string) : bool :=
  match s with
  | String c s' => occurs (String c "") alphabet && text_over alphabet s'
  | EmptyString => true
  end.

(** Text made of the characters the key handler lets through. *)
Definition typed_text (s : string) : bool := text_over typed_characters s.

(** A button that edits the text: neither "C" nor "=". *)
Definition edits (symbol : string) : bool :=
  negb (String.eqb symbol "C") && negb (String.eqb symbol "=").

(** The loop of [_graph_expression] as a function of the outcomes at the
    points: the values up to the first failure, or that failure. *)
Fixpoint collect (run : value -> outcome value) (points : list value)
    (ys : list value) : list value + value * exn :=
  match points with
  | [] => inl ys
  | x :: points =>
      match run x with
      | Return y => collect run points (ys ++ [y])
      | Raise exc => inr (x, exc)
      end
  end.

Lemma eval_tree_whitelisted_errors m env node e :
  whitelisted node = true ->
  eval_tree m env node = Raise e ->
  e = ZeroDivisionError \/ e = OverflowError
  \/ exists id, e = ValueError (UndefinedVariable id)
       /\ env !! id = None /\ mentions id node = true.
Proof.
  revert e.
  induction node as [l IHl op r IHr | op t IHt | id | c | | | | | | ];
    cbn [whitelisted eval_tree mentions]; intros e W H; try discriminate.
  - rewrite getitem_contains in W.
    destruct (getitem _ALLOWED_OPERATORS (ast.BinClass op)) as [f|] eqn:G; [|discriminate].
    cbn [andb] in W. apply andb_true_iff in W as [Wl Wr].
    destruct (eval_tree m env l) as [x|e1] eqn:El; cbn [obind] in H.
    + destruct (eval_tree m env r) as [y|e2] eqn:Er; cbn [obind] in H.
      * pose proof (binary_arithmetic m f x y (getitem_binary op f G)) as A.
        cbn [operator.call] in H. rewrite H in A. cbn [arithmetic] in A.
        destruct A; auto.
      * injection H as <-. destruct (IHr e2 Wr eq_refl) as [?|[?|(id & ? & ? & Hm)]]; auto.
        right. right. exists id. rewrite Hm, orb_true_r. auto.
    + injection H as <-. destruct (IHl e1 Wl eq_refl) as [?|[?|(id & ? & ? & Hm)]]; auto.
      right. right. exists id. rewrite Hm. auto.
  - rewrite getitem_contains in W.
    destruct (getitem _ALLOWED_OPERATORS (ast.UnClass op)) as [f|] eqn:G; [|discriminate].
    destruct (eval_tree m env t) as [x|e1] eqn:Et; cbn [obind] in H.
    + rewrite (getitem_unary op f G) in H. cbn [operator.call] in H.
      destruct (unary_neg_returns x) as [v Hv]. rewrite Hv in H. discriminate.
    + injection H as <-. apply IHt; auto.
  - destruct (env !! id) eqn:E; [discriminate|]. injection H as <-.
    right. right. exists id. rewrite String.eqb_refl. auto.
  - destruct c; discriminate.
Qed.

(** Under the limit, [_eval] answers as it does without it, or raises
    [RecursionError]; either way it leaves the world as it is. *)
Lemma _eval_within_outcome m dump_frames frames d node w :
  _eval_within m dump_frames frames d node w = (eval_tree m (deref w d) node, w)
  \/ _eval_within m dump_frames frames d node w = (Raise RecursionError, w).
Proof.
  revert node. induction frames as [|frames IH]; intros node; [right; reflexivity|].
  destruct node as [l op r | op t | id | c | | | | | | ]; cbn [_eval_within eval_tree];
    try (destruct (dump_frames _ <=? frames)%nat; [left|right]; reflexivity).
  - rewrite getitem_contains. unfold apply.
    destruct (getitem _ALLOWED_OPERATORS (ast.BinClass op)) as [f|]; [|left; reflexivity].
    unfold bind. destruct (IH l) as [-> | ->]; [|right; reflexivity].
    destruct (eval_tree m (deref w d) l) as [x|e]; [|left; reflexivity].
    destruct (IH r) as [-> | ->]; [|right; reflexivity]. cbn [obind].
    destruct (eval_tree m (deref w d) r) as [y|e]; left; reflexivity.
  - rewrite getitem_contains. unfold apply.
    destruct (getitem _ALLOWED_OPERATORS (ast.UnClass op)) as [f|]; [|left; reflexivity].
    unfold bind. destruct (IH t) as [-> | ->]; [|right; reflexivity].
    destruct (eval_tree m (deref w d) t) as [x|e]; left; reflexivity.
  - left. change (_eval m d (ast.Name id) w = (eval_tree m (deref w d) (ast.Name id), w)).
    apply _eval_eval_tree.
  - destruct c; try (destruct (dump_frames _ <=? frames)%nat; [left|right]; reflexivity);
      left; reflexivity.
Qed.

Lemma height_positive node : (1 <= height node)%nat.
Proof. destruct node; cbn [height]; lia. Qed.

(** On a tree of the whitelist that is not higher than the calls left,
    the limit is not met. *)
Lemma _eval_within_agrees m dump_frames frames d node w :
  (height node <= frames)%nat -> whitelisted node = true ->
  _eval_within m dump_frames frames d node w = _eval m d node w.
Proof.
  rewrite _eval_eval_tree.
  revert node. induction frames as [|frames IH]; intros node H W.
  { pose proof (height_positive node). lia. }
  destruct node as [l op r | op t | id | c | | | | | | ];
    cbn [whitelisted] in W; try discriminate W; cbn [_eval_within eval_tree height] in *.
  - apply andb_true_iff in W as [W Wr]. apply andb_true_iff in W as [C Wl].
    rewrite C. rewrite getitem_contains in C. unfold apply.
    destruct (getitem _ALLOWED_OPERATORS (ast.BinClass op)) as [f|]; [|discriminate].
    unfold bind. rewrite (IH l) by (assumption || lia).
    destruct (eval_tree m (deref w d) l) as [x|e]; [|reflexivity].
    rewrite (IH r) by (assumption || lia). cbn [obind].
    destruct (eval_tree m (deref w d) r) as [y|e]; reflexivity.
  - apply andb_true_iff in W as [C Wt].
    rewrite C. rewrite getitem_contains in C. unfold apply.
    destruct (getitem _ALLOWED_OPERATORS (ast.UnClass op)) as [f|]; [|discriminate].
    unfold bind. rewrite (IH t) by (assumption || lia).
    destruct (eval_tree m (deref w d) t) as [x|e]; reflexivity.
  - change (_eval m d (ast.Name id) w = (eval_tree m (deref w d) (ast.Name id), w)).
    apply _eval_eval_tree.
  - destruct c; try discriminate W; reflexivity.
Qed.

(** X1.  On a tree of the whitelist without a power, [_eval] under the
    limit on recursion raises nothing but a [ZeroDivisionError], an
    [OverflowError], a [RecursionError], or the undefined-variable
    [ValueError] for a name that the tree refers to and the environment
    does not bind: no [TypeError], no [KeyError] from the table of
    operators or the dict, no unsupported-element error.  It leaves the
    world as it is. *)
Theorem whitelisted_tree_errors m dump_frames frames d node w e w' :
  whitelisted node = true -> uses_power node = false ->
  _eval_within m dump_frames frames d node w = (Raise e, w') ->
  w' = w
  /\ (e = ZeroDivisionError \/ e = OverflowError \/ e = RecursionError
      \/ exists id, e = ValueError (UndefinedVariable id)
           /\ deref w d !! id = None /\ mentions id node = true).
Proof.
  intros W _ H.
  destruct (_eval_within_outcome m dump_frames frames d node w) as [E|E];
    rewrite E in H; injection H as H <-; (split; [reflexivity|]).
  - destruct (eval_tree_whitelisted_errors m _ node e W H) as [?|[?|?]]; auto.
  - subst e. auto.
Qed.

Lemma whitelisted_tree_errors_witness :
  whitelisted (ast.BinOp (ast.Constant (ast.CInt 1)) ast.Div (ast.Name "y")) = true
  /\ uses_power (ast.BinOp (ast.Constant (ast.CInt 1)) ast.Div (ast.Name "y")) = false
  /\ _eval_within libm_nan height 2 1%positive
       (ast.BinOp (ast.Constant (ast.CInt 1)) ast.Div (ast.Name "y"))
       (world_with "x" (VInt 3))
     = (Raise (ValueError (UndefinedVariable "y")), world_with "x" (VInt 3))
  /\ world_with "x" (VInt 3) = world_with "x" (VInt 3)
  /\ (ValueError (UndefinedVariable "y") = ZeroDivisionError
      \/ ValueError (UndefinedVariable "y") = OverflowError
      \/ ValueError (UndefinedVariable "y") = RecursionError
      \/ exists id, ValueError (UndefinedVariable "y") = ValueError (UndefinedVariable id)
           /\ deref (world_with "x" (VInt 3)) 1%positive !! id = None
           /\ mentions id (ast.BinOp (ast.Constant (ast.CInt 1)) ast.Div (ast.Name "y")) = true).
Proof.
  split; [reflexivity|]. split; [reflexivity|]. split; [reflexivity|].
  apply (whitelisted_tree_errors libm_nan height 2 1%positive
           (ast.BinOp (ast.Constant (ast.CInt 1)) ast.Div (ast.Name "y"))
           (world_with "x" (VInt 3)) (ValueError (UndefinedVariable "y"))
           (world_with "x" (VInt 3))); reflexivity.
Defined.

Lemma eval_tree_integer m env node n :
  integer_value node = Some n -> eval_tree m env node = Return (VInt n).
Proof.
  revert n.
  induction node as [l IHl op r IHr | op t IHt | id | c | | | | | | ];
    cbn [integer_value eval_tree]; intros n H; try discriminate.
  - destruct (integer_value l) as [a|]; [|discriminate].
    destruct (integer_value r) as [b|]; [|discriminate].
    rewrite (IHl a eq_refl), (IHr b eq_refl).
    destruct op; try discriminate.
    + injection H as <-. reflexivity.
    + injection H as <-. reflexivity.
    + injection H as <-. reflexivity.
  - destruct op; try discriminate.
    destruct (integer_value t) as [a|]; [|discriminate]. injection H as <-.
    rewrite (IHt a eq_refl). reflexivity.
  - destruct c; try discriminate. injection H as <-. reflexivity.
Qed.

Lemma integer_value_whitelisted node n :
  integer_value node = Some n -> whitelisted node = true.
Proof.
  revert n.
  induction node as [l IHl op r IHr | op t IHt | id | c | | | | | | ];
    cbn [integer_value whitelisted]; intros n H; try discriminate.
  - destruct (integer_value l) as [a|]; [|discriminate].
    destruct (integer_value r) as [b|]; [|discriminate].
    rewrite (IHl a eq_refl), (IHr b eq_refl).
    destruct op; try discriminate; reflexivity.
  - destruct op; try discriminate.
    destruct (integer_value t) as [a|]; [|discriminate]. rewrite (IHt a eq_refl). reflexivity.
  - destruct c; try discriminate. reflexivity.
Qed.

(** X2.  Integer arithmetic is exact: a tree of integer literals under
    [+], [-], [*] and the unary minus that is lower than the calls left
    before the limit on recursion evaluates to the integer it stands
    for, however large, whatever the environment and the C library. *)
Theorem integer_arithmetic_is_exact m dump_frames frames d node w n :
  integer_value node = Some n -> (height node < frames)%nat ->
  _eval_within m dump_frames frames d node w = (Return (VInt n), w).
Proof.
  intros H L.
  rewrite _eval_within_agrees by (lia || exact (integer_value_whitelisted node n H)).
  rewrite _eval_eval_tree, (eval_tree_integer m _ node n H). reflexivity.
Qed.

Lemma integer_arithmetic_is_exact_witness :
  integer_value
    (ast.BinOp (ast.Constant (ast.CInt 4294967296)) ast.Mult
       (ast.BinOp (ast.Constant (ast.CInt 4294967290)) ast.Sub
          (ast.UnaryOp ast.USub (ast.Constant (ast.CInt 6)))))
    = Some 18446744073709551616
  /\ (height
        (ast.BinOp (ast.Constant (ast.CInt 4294967296)) ast.Mult
           (ast.BinOp (ast.Constant (ast.CInt 4294967290)) ast.Sub
              (ast.UnaryOp ast.USub (ast.Constant (ast.CInt 6))))) < 5)%nat
  /\ _eval_within libm_nan height 5 1%positive
       (ast.BinOp (ast.Constant (ast.CInt 4294967296)) ast.Mult
          (ast.BinOp (ast.Constant (ast.CInt 4294967290)) ast.Sub
             (ast.UnaryOp ast.USub (ast.Constant (ast.CInt 6)))))
       initial_world
     = (Return (VInt 18446744073709551616), initial_world).
Proof.
  split; [reflexivity|]. split; [cbn; lia|].
  apply (integer_arithmetic_is_exact libm_nan height 5 1%positive
           (ast.BinOp (ast.Constant (ast.CInt 4294967296)) ast.Mult
              (ast.BinOp (ast.Constant (ast.CInt 4294967290)) ast.Sub
                 (ast.UnaryOp ast.USub (ast.Constant (ast.CInt 6)))))
           initial_world 18446744073709551616); [reflexivity|cbn; lia].
Defined.

Lemma float_operation_returns m f x y :
  f = operator.add \/ f = operator.sub \/ f = operator.mul ->
  exists z, operator.binary m f (VFloat x) (VFloat y) = Return (VFloat z).
Proof. intros [->|[->| ->]]; cbn; eauto. Qed.

Lemma float_int_operation_returns m f x n :
  f = operator.add \/ f = operator.sub \/ f = operator.mul ->
  is_inf (float_of_Z n) = false ->
  (exists z, operator.binary m f (VFloat x) (VInt n) = Return (VFloat z))
  /\ (exists z, operator.binary m f (VInt n) (VFloat x) = Return (VFloat z)).
Proof.
  intros [->|[->| ->]] H; cbn; unfold float_of_int; rewrite H; cbn; eauto.
Qed.

Lemma eval_tree_float_closed m env is_float node :
  (forall id, is_float id = true -> exists x, env !! id = Some (VFloat x)) ->
  float_closed is_float node = true ->
  exists x, eval_tree m env node = Return (VFloat x).
Proof.
  intros Henv.
  induction node as [l IHl op r IHr | op t IHt | id | c | | | | | | ];
    cbn [float_closed eval_tree]; intros H; try discriminate.
  - assert (Hop : exists f, getitem _ALLOWED_OPERATORS (ast.BinClass op) = Some f
                   /\ (f = operator.add \/ f = operator.sub \/ f = operator.mul)).
    { destruct op; try discriminate; cbn; eauto. }
    destruct Hop as (f & -> & Hf).
    assert (H' : (float_closed is_float l && (float_closed is_float r || integer_operand r))
                 || (integer_operand l && float_closed is_float r) = true).
    { destruct op; try discriminate; exact H. }
    clear H. apply orb_true_iff in H' as [H|H]; apply andb_true_iff in H as [H1 H2].
    + destruct (IHl H1) as [x ->]. cbn [obind].
      apply orb_true_iff in H2 as [H2|H2].
      * destruct (IHr H2) as [y ->]. cbn [obind operator.call].
        apply float_operation_returns; exact Hf.
      * unfold integer_operand in H2.
        destruct (integer_value r) as [n|] eqn:E; [|discriminate].
        rewrite (eval_tree_integer m env r n E). cbn [obind operator.call].
        apply float_int_operation_returns; [exact Hf|].
        destruct (is_inf (float_of_Z n)); [discriminate|reflexivity].
    + unfold integer_operand in H1.
      destruct (integer_value l) as [n|] eqn:E; [|discriminate].
      rewrite (eval_tree_integer m env l n E). cbn [obind].
      destruct (IHr H2) as [y ->]. cbn [obind operator.call].
      apply float_int_operation_returns; [exact Hf|].
      destruct (is_inf (float_of_Z n)); [discriminate|reflexivity].
  - destruct op; try discriminate.
    destruct (IHt H) as [x ->]. cbn. eauto.
  - destruct (Henv id H) as [x ->]. eauto.
  - destruct c; try discriminate. eauto.
Qed.

Lemma float_closed_whitelisted is_float node :
  float_closed is_float node = true -> whitelisted node = true.
Proof.
  assert (I : forall t, integer_operand t = true -> whitelisted t = true).
  { intros t H. unfold integer_operand in H.
    destruct (integer_value t) as [n|] eqn:E; [|discriminate].
    exact (integer_value_whitelisted t n E). }
  induction node as [l IHl op r IHr | op t IHt | id | c | | | | | | ];
    cbn [float_closed whitelisted]; intros H; try discriminate.
  - assert (H' : (float_closed is_float l && (float_closed is_float r || integer_operand r))
                 || (integer_operand l && float_closed is_float r) = true
                 /\ contains _ALLOWED_OPERATORS (ast.BinClass op) = true).
    { destruct op; try discriminate; split; (exact H || reflexivity). }
    destruct H' as [H' ->]. cbn [andb].
    apply orb_true_iff in H' as [K|K]; apply andb_true_iff in K as [K1 K2].
    + rewrite (IHl K1).
      apply orb_true_iff in K2 as [K2|K2]; [rewrite (IHr K2)|rewrite (I r K2)]; reflexivity.
    + rewrite (I l K1), (IHr K2). reflexivity.
  - destruct op; try discriminate. rewrite (IHt H). reflexivity.
  - reflexivity.
  - destruct c; try discriminate. reflexivity.
Qed.

(** X3.  A tree that computes in floats under [+], [-], [*] and the
    unary minus raises nothing when it is lower than the calls left
    before the limit on recursion: with float literals, names bound to
    floats, and integer operands that have a float, [_eval] returns a
    float (infinite or NaN when the arithmetic says so). *)
Theorem float_arithmetic_returns m dump_frames frames d is_float node w :
  (forall id, is_float id = true -> exists x, deref w d !! id = Some (VFloat x)) ->
  float_closed is_float node = true -> (height node < frames)%nat ->
  exists x, _eval_within m dump_frames frames d node w = (Return (VFloat x), w).
Proof.
  intros Henv H L.
  rewrite _eval_within_agrees by (lia || exact (float_closed_whitelisted is_float node H)).
  rewrite _eval_eval_tree.
  destruct (eval_tree_float_closed m (deref w d) is_float node Henv H) as [x ->]. eauto.
Qed.

Lemma float_arithmetic_returns_witness :
  (forall id, String.eqb "x" id = true ->
     exists x, deref (world_with "x" (VFloat (float_of_Z 3))) 1%positive !! id
               = Some (VFloat x))
  /\ float_closed (String.eqb "x")
       (ast.BinOp (ast.BinOp (ast.Constant (ast.CInt 2)) ast.Mult (ast.Name "x"))
          ast.Sub (ast.Constant (ast.CFloat (float_of_quotient 1 2)))) = true
  /\ (height
        (ast.BinOp (ast.BinOp (ast.Constant (ast.CInt 2)) ast.Mult (ast.Name "x"))
           ast.Sub (ast.Constant (ast.CFloat (float_of_quotient 1 2)))) < 4)%nat
  /\ exists x,
       _eval_within libm_nan height 4 1%positive
         (ast.BinOp (ast.BinOp (ast.Constant (ast.CInt 2)) ast.Mult (ast.Name "x"))
            ast.Sub (ast.Constant (ast.CFloat (float_of_quotient 1 2))))
         (world_with "x" (VFloat (float_of_Z 3)))
       = (Return (VFloat x), world_with "x" (VFloat (float_of_Z 3))).
Proof.
  assert (H : forall id, String.eqb "x" id = true ->
     exists x, deref (world_with "x" (VFloat (float_of_Z 3))) 1%positive !! id
               = Some (VFloat x)).
  { intros id E. apply String.eqb_eq in E. subst id. eexists. reflexivity. }
  split; [exact H|]. split; [reflexivity|]. split; [cbn; lia|].
  apply (float_arithmetic_returns libm_nan height 4 1%positive (String.eqb "x")
           (ast.BinOp (ast.BinOp (ast.Constant (ast.CInt 2)) ast.Mult (ast.Name "x"))
              ast.Sub (ast.Constant (ast.CFloat (float_of_quotient 1 2))))
           (world_with "x" (VFloat (float_of_Z 3))) H); [reflexivity|cbn; lia].
Defined.

(** X4.  An operator outside the table is refused before any operand is
    looked at: a binary operator other than [+], [-], [*], [/] and [**]
    raises the not-allowed [ValueError] whatever its operands are, and
    so does a unary operator other than the minus. *)
Theorem operator_outside_table m d w :
  (forall op l r,
      op <> ast.Add -> op <> ast.Sub -> op <> ast.Mult -> op <> ast.Div -> op <> ast.Pow ->
      _eval m d (ast.BinOp l op r) w
        = (Raise (ValueError (OperatorNotAllowed (ast.BinClass op))), w))
  /\ (forall op e,
      op <> ast.USub ->
      _eval m d (ast.UnaryOp op e) w
        = (Raise (ValueError (UnaryOperatorNotAllowed (ast.UnClass op))), w)).
Proof.
  split.
  - intros op l r; destruct op; intros; try congruence; reflexivity.
  - intros op e; destruct op; intros; try congruence; reflexivity.
Qed.

Lemma operator_outside_table_witness :
  _eval libm_nan 1%positive
    (ast.BinOp (ast.Call (ast.Name "sin") []) ast.Mod (ast.Name "y")) initial_world
  = (Raise (ValueError (OperatorNotAllowed (ast.BinClass ast.Mod))), initial_world).
Proof.
  apply (proj1 (operator_outside_table libm_nan 1%positive initial_world)); discriminate.
Defined.

(** ** The graph *)

Local Open Scope list_scope.

Lemma sample_collect ast_parse m expr points ys w :
  fst (sample ast_parse m expr points ys w)
    = collect (at_point ast_parse m expr) points ys
  /\ heap w ⊆ heap (snd (sample ast_parse m expr points ys w)).
Proof.
  revert ys w. induction points as [|x points IH]; intros ys w; [split; reflexivity|].
  cbn [sample collect]. unfold dict_display.
  set (d := fresh (dom (heap w))).
  set (w1 := World (<[d := {[ "x" := x ]}]> (heap w)) (log w)).
  assert (Hd : heap w !! d = None) by (apply not_elem_of_dom, is_fresh).
  assert (H1 : heap w ⊆ heap w1) by (apply insert_subseteq; exact Hd).
  assert (E1 : env_of w1 (Some d) = {[ "x" := x ]}).
  { cbn [env_of]. unfold deref, w1. cbn [heap]. rewrite lookup_insert_eq. reflexivity. }
  destruct (safe_eval_spec ast_parse m expr (Some d) w1) as (R & S & _).
  rewrite E1 in R. fold (at_point ast_parse m expr x) in R.
  destruct (safe_eval ast_parse m expr (Some d) w1) as [r w2].
  cbn [fst snd] in R, S. subst r.
  destruct (at_point ast_parse m expr x) as [y|exc].
  - destruct (IH (ys ++ [y]) w2) as [IH1 IH2]. split; [exact IH1|].
    etrans; [exact H1|]. etrans; [exact S|exact IH2].
  - split; [reflexivity|]. cbn [snd]. etrans; [exact H1|exact S].
Qed.

Lemma collect_returns run points ys ys' :
  collect run points ys = inl ys' ->
  exists new, ys' = ys ++ new /\ Forall2 (fun x y => run x = Return y) points new.
Proof.
  revert ys. induction points as [|x points IH]; intros ys; cbn [collect].
  - intros [= <-]. exists []. rewrite app_nil_r. split; [reflexivity|constructor].
  - destruct (run x) as [y|exc] eqn:E; [|discriminate]. intros H.
    destruct (IH _ H) as (new & -> & F). exists (y :: new).
    rewrite <- app_assoc. split; [reflexivity|]. constructor; assumption.
Qed.

Lemma collect_raises run points ys x exc :
  collect run points ys = inr (x, exc) ->
  run x = Raise exc
  /\ exists before after,
       points = before ++ x :: after
       /\ Forall (fun x' => exists y, run x' = Return y) before.
Proof.
  revert ys. induction points as [|x' points IH]; intros ys; cbn [collect]; [discriminate|].
  destruct (run x') as [y|exc'] eqn:E.
  - intros H. destruct (IH _ H) as (R & before & after & -> & F).
    split; [exact R|]. exists (x' :: before), after. split; [reflexivity|].
    constructor; eauto.
  - intros [= <- <-]. split; [exact E|]. exists [], points. split; [reflexivity|constructor].
Qed.

(** A point that raises stops the loop, at that point or before it. *)
Lemma collect_fails run points ys x exc :
  In x points -> run x = Raise exc ->
  exists x' exc', collect run points ys = inr (x', exc').
Proof.
  revert ys. induction points as [|x' points IH]; intros ys H R; [destruct H|].
  cbn [collect]. destruct (run x') as [y|exc'] eqn:E; [|eauto].
  destruct H as [->|H]; [congruence|]. apply IH; assumption.
Qed.

(** The graph leaves the text of the entry as it is. *)
Lemma graph_keeps_text ast_parse m self :
  expression_var (_graph_expression ast_parse m self) = expression_var self.
Proof.
  unfold _graph_expression.
  destruct (sample ast_parse m (expression_var self) xs [] (interpreter self))
    as [[ys|[x exc]] w]; [|reflexivity].
  destruct (backend self _); reflexivity.
Qed.

(** X5.  A graph is all or nothing.  [_graph_expression] leaves the text
    and the dicts of the heap as they are.  Either every one of the
    sample points evaluates, no dialog is shown, and the values, the
    outcomes at [xs] point by point, are handed to [pyplot]: when it
    displays them one figure is added, and when it raises no figure is
    added and the exception leaves the handler uncaught.  Or one dialog
    shows the error of the first point that fails, the points before it
    having evaluated, and [pyplot] is not called: no figure is added and
    nothing escapes. *)
Theorem graph_all_or_nothing ast_parse m self :
  expression_var (_graph_expression ast_parse m self) = expression_var self
  /\ heap (interpreter self) ⊆ heap (interpreter (_graph_expression ast_parse m self))
  /\ ((exists ys,
         Forall2 (fun x y => at_point ast_parse m (expression_var self) x = Return y) xs ys
         /\ dialogs (_graph_expression ast_parse m self) = dialogs self
         /\ match backend self (Figure xs ys (expression_var self)) with
            | None =>
                figures (_graph_expression ast_parse m self)
                  = figures self ++ [Figure xs ys (expression_var self)]
                /\ escaped (_graph_expression ast_parse m self) = escaped self
            | Some exc =>
                figures (_graph_expression ast_parse m self) = figures self
                /\ escaped (_graph_expression ast_parse m self) = escaped self ++ [exc]
            end)
      \/ (exists x exc before after,
         xs = before ++ x :: after
         /\ Forall (fun x' => exists y,
                      at_point ast_parse m (expression_var self) x' = Return y) before
         /\ at_point ast_parse m (expression_var self) x = Raise exc
         /\ figures (_graph_expression ast_parse m self) = figures self
         /\ dialogs (_graph_expression ast_parse m self) = dialogs self ++ [exc]
         /\ escaped (_graph_expression ast_parse m self) = escaped self)).
Proof.
  split; [apply graph_keeps_text|].
  unfold _graph_expression.
  destruct (sample_collect ast_parse m (expression_var self) xs [] (interpreter self))
    as [C S].
  destruct (sample ast_parse m (expression_var self) xs [] (interpreter self)) as [r w].
  cbn [fst snd] in C, S. subst r.
  destruct (collect (at_point ast_parse m (expression_var self)) xs []) as [ys|[x exc]] eqn:E.
  - destruct (collect_returns _ _ _ _ E) as (new & -> & F).
    change ([] ++ new) with new in *.
    split; [destruct (backend self _); exact S|]. left. exists new.
    split; [exact F|]. destruct (backend self _); auto.
  - split; [exact S|]. right.
    destruct (collect_raises _ _ _ _ _ E) as (R & before & after & Hxs & F).
    exists x, exc, before, after. cbn [figures dialogs escaped]. auto 10.
Qed.

(** X7.  One failing sample point is enough to lose the graph: when the
    expression raises at a point of [xs], no figure is added and one
    dialog is shown.  The point 0.0 is among the samples, so an
    expression that fails at zero is never plotted. *)
Theorem graph_fails_at_a_point ast_parse m self x exc :
  In x xs ->
  at_point ast_parse m (expression_var self) x = Raise exc ->
  figures (_graph_expression ast_parse m self) = figures self
  /\ (exists exc', dialogs (_graph_expression ast_parse m self) = dialogs self ++ [exc'])
  /\ In (VFloat fzero) xs.
Proof.
  intros Hx Hr.
  destruct (collect_fails (at_point ast_parse m (expression_var self)) xs [] x exc Hx Hr)
    as (x' & exc' & E).
  unfold _graph_expression.
  destruct (sample_collect ast_parse m (expression_var self) xs [] (interpreter self))
    as [C _].
  destruct (sample ast_parse m (expression_var self) xs [] (interpreter self)) as [r w].
  cbn [fst] in C. subst r. rewrite E. cbn [figures dialogs].
  split; [reflexivity|]. split; [eauto|].
  unfold xs. apply in_map_iff. exists 0. split; [reflexivity|].
  unfold range. apply in_map_iff. exists 100%nat. split; [reflexivity|].
  apply in_seq. cbn. lia.
Qed.

Lemma graph_fails_at_a_point_witness :
  In (VFloat fzero) xs
  /\ at_point py_parse libm_nan (expression_var (App "1/x" initial_world [] [] [] plots_all []))
       (VFloat fzero) = Raise ZeroDivisionError
  /\ figures (_graph_expression py_parse libm_nan (App "1/x" initial_world [] [] [] plots_all []))
       = figures (App "1/x" initial_world [] [] [] plots_all [])
  /\ (exists exc',
        dialogs (_graph_expression py_parse libm_nan
                   (App "1/x" initial_world [] [] [] plots_all []))
          = dialogs (App "1/x" initial_world [] [] [] plots_all []) ++ [exc'])
  /\ In (VFloat fzero) xs.
Proof.
  assert (H0 : In (VFloat fzero) xs).
  { unfold xs. apply in_map_iff. exists 0. split; [reflexivity|].
    unfold range. apply in_map_iff. exists 100%nat. split; [reflexivity|].
    apply in_seq. cbn. lia. }
  split; [exact H0|]. split; [reflexivity|].
  apply (graph_fails_at_a_point py_parse libm_nan
           (App "1/x" initial_world [] [] [] plots_all [])
           (VFloat fzero) ZeroDivisionError H0).
  reflexivity.
Defined.

(** ** The buttons and the keys *)

(** A parser that reads what [_evaluate] shows as the parser of this
    file does: the string of a value of a literal, and "Error". *)
Definition reads_results (ast_parse : string -> outcome ast.expr) : Prop :=
  (forall v text,
      literal_value v = true -> py_str v = Return text -> ast_parse text = py_parse text)
  /\ ast_parse "Error" = py_parse "Error".

Lemma evaluate_shows ast_parse m self :
  expression_var (_evaluate ast_parse m self)
    = match fst (safe_eval ast_parse m (expression_var self) None (interpreter self)) with
      | Return v =>
          match py_str v with
          | Return text => text
          | Raise _ => "Error"%string
          end
      | Raise _ => "Error"%string
      end.
Proof.
  unfold _evaluate.
  destruct (safe_eval ast_parse m (expression_var self) None (interpreter self))
    as [[v|exc] w']; cbn [fst]; [|reflexivity].
  destruct (py_str v); reflexivity.
Qed.

(** X8.  Pressing "=" a second time changes nothing when the first
    press showed an integer, a boolean, a finite float or "Error": the
    text shown evaluates to itself.  "Error" is what the first press
    shows when [safe_eval] raises, and also when it returns an integer
    of too many digits for [str]. *)
Theorem evaluate_twice ast_parse m self :
  reads_results ast_parse ->
  (forall v,
      fst (safe_eval ast_parse m (expression_var self) None (interpreter self)) = Return v ->
      match py_str v with
      | Return text =>
          expression_var (_evaluate ast_parse m self) = text
          /\ (literal_value v = true ->
              expression_var (_evaluate ast_parse m (_evaluate ast_parse m self)) = text)
      | Raise _ =>
          expression_var (_evaluate ast_parse m self) = "Error"%string
          /\ expression_var (_evaluate ast_parse m (_evaluate ast_parse m self))
             = "Error"%string
      end)
  /\ (forall exc,
        fst (safe_eval ast_parse m (expression_var self) None (interpreter self)) = Raise exc ->
        expression_var (_evaluate ast_parse m self) = "Error"%string
        /\ expression_var (_evaluate ast_parse m (_evaluate ast_parse m self))
           = "Error"%string).
Proof.
  intros [R E].
  assert (again : expression_var (_evaluate ast_parse m self) = "Error"%string ->
            expression_var (_evaluate ast_parse m (_evaluate ast_parse m self))
              = "Error"%string).
  { intros H. rewrite evaluate_shows, H, safe_eval_result, E. reflexivity. }
  split.
  - intros v H. pose proof (evaluate_shows ast_parse m self) as S. rewrite H in S.
    destruct (py_str v) as [text|exc] eqn:P.
    + split; [exact S|]. intros L.
      rewrite evaluate_shows, S, safe_eval_result, (R v text L P), <- safe_eval_result.
      change (safe_eval py_parse m) with (evaluate m).
      rewrite (evaluate_py_str m v text None _ L P), P. reflexivity.
    + split; [exact S|]. apply again, S.
  - intros exc H. pose proof (evaluate_shows ast_parse m self) as S. rewrite H in S.
    split; [exact S|]. apply again, S.
Qed.

Lemma reads_results_py_parse : reads_results py_parse.
Proof. split; reflexivity. Qed.

Lemma evaluate_twice_witness :
  reads_results py_parse
  /\ fst (safe_eval py_parse libm_nan
            (expression_var (App "6*7" initial_world [] [] [] plots_all []))
            None (interpreter (App "6*7" initial_world [] [] [] plots_all [])))
     = Return (VInt 42)
  /\ expression_var (_evaluate py_parse libm_nan (App "6*7" initial_world [] [] [] plots_all []))
     = "42"%string
  /\ expression_var (_evaluate py_parse libm_nan
                       (_evaluate py_parse libm_nan
                          (App "6*7" initial_world [] [] [] plots_all [])))
     = "42"%string.
Proof.
  split; [split; reflexivity|]. split; [reflexivity|].
  pose proof (proj1 (evaluate_twice py_parse libm_nan
                       (App "6*7" initial_world [] [] [] plots_all [])
                       (conj (fun v text _ _ => eq_refl) eq_refl))
                (VInt 42) eq_refl) as H.
  change (py_str (VInt 42)) with (Return (A := string) "42"%string) in H.
  destruct H as [H1 H2]. split; [exact H1|]. apply H2. reflexivity.
Defined.

Lemma press_edit ast_parse m symbol self :
  edits symbol = true ->
  _on_button_press ast_parse m symbol self
    = App (expression_var self ++ symbol)%string (interpreter self)
        (journal self ++ [ButtonPressed symbol]) (dialogs self) (figures self)
        (backend self) (escaped self).
Proof.
  unfold edits, _on_button_press. intros H. apply andb_true_iff in H as [H1 H2].
  destruct (String.eqb symbol "C"); [discriminate|].
  destruct (String.eqb symbol "="); [discriminate|]. reflexivity.
Qed.

Lemma press_all_cons ast_parse m symbol symbols self :
  press_all ast_parse m (symbol :: symbols) self
    = press_all ast_parse m symbols (_on_button_press ast_parse m symbol self).
Proof. reflexivity. Qed.

Lemma press_all_app ast_parse m before after self :
  press_all ast_parse m (before ++ after) self
    = press_all ast_parse m after (press_all ast_parse m before self).
Proof. unfold press_all. apply fold_left_app. Qed.

Lemma type_all_cons ast_parse m e events self :
  type_all ast_parse m (e :: events) self
    = type_all ast_parse m events (_on_keypress ast_parse m e self).
Proof. reflexivity. Qed.

Lemma press_all_edits ast_parse m symbols self :
  forallb edits symbols = true ->
  expression_var (press_all ast_parse m symbols self)
    = (expression_var self ++ String.concat "" symbols)%string
  /\ interpreter (press_all ast_parse m symbols self) = interpreter self
  /\ dialogs (press_all ast_parse m symbols self) = dialogs self
  /\ figures (press_all ast_parse m symbols self) = figures self.
Proof.
  revert self. induction symbols as [|symbol symbols IH]; intros self H.
  - cbn. rewrite append_empty. auto.
  - cbn [forallb] in H. apply andb_true_iff in H as [H1 H2].
    rewrite press_all_cons, (press_edit ast_parse m symbol self H1).
    destruct (IH (App (expression_var self ++ symbol)%string (interpreter self)
                    (journal self ++ [ButtonPressed symbol]) (dialogs self) (figures self)
                    (backend self) (escaped self)) H2)
      as (E & I & D & F).
    rewrite E, I, D, F. cbn [expression_var interpreter dialogs figures].
    repeat split. rewrite append_append. f_equal.
    destruct symbols as [|s' symbols']; [cbn; rewrite append_empty; reflexivity|].
    reflexivity.
Qed.

(** X9.  The buttons edit by appending: a run of presses other than "C"
    and "=" leaves the text followed by the symbols pressed, in order,
    and evaluates, shows and plots nothing.  "C" forgets what came
    before it: after a "C", the text is what was pressed since. *)
Theorem buttons_append_and_clear ast_parse m before after self :
  forallb edits after = true ->
  expression_var (press_all ast_parse m after self)
    = (expression_var self ++ String.concat "" after)%string
  /\ interpreter (press_all ast_parse m after self) = interpreter self
  /\ dialogs (press_all ast_parse m after self) = dialogs self
  /\ figures (press_all ast_parse m after self) = figures self
  /\ expression_var (press_all ast_parse m (before ++ "C"%string :: after) self)
       = String.concat "" after.
Proof.
  intros H. destruct (press_all_edits ast_parse m after self H) as (E & I & D & F).
  repeat split; auto.
  rewrite press_all_app, press_all_cons.
  destruct (press_all_edits ast_parse m after
              (_on_button_press ast_parse m "C" (press_all ast_parse m before self)) H)
    as (E' & _). rewrite E'. reflexivity.
Qed.

Lemma buttons_append_and_clear_witness :
  forallb edits ["1"; "2"; "+"; "3"]%string = true
  /\ expression_var (press_all py_parse libm_nan ["1"; "2"; "+"; "3"]%string
                       (App "9*" initial_world [] [] [] plots_all []))
       = (expression_var (App "9*" initial_world [] [] [] plots_all [])
            ++ String.concat "" ["1"; "2"; "+"; "3"])%string
  /\ interpreter (press_all py_parse libm_nan ["1"; "2"; "+"; "3"]%string
                    (App "9*" initial_world [] [] [] plots_all []))
       = interpreter (App "9*" initial_world [] [] [] plots_all [])
  /\ dialogs (press_all py_parse libm_nan ["1"; "2"; "+"; "3"]%string
                (App "9*" initial_world [] [] [] plots_all []))
       = dialogs (App "9*" initial_world [] [] [] plots_all [])
  /\ figures (press_all py_parse libm_nan ["1"; "2"; "+"; "3"]%string
                (App "9*" initial_world [] [] [] plots_all []))
       = figures (App "9*" initial_world [] [] [] plots_all [])
  /\ expression_var (press_all py_parse libm_nan
                       (["7"; "="]%string ++ "C"%string :: ["1"; "2"; "+"; "3"]%string)
                       (App "9*" initial_world [] [] [] plots_all []))
       = String.concat "" ["1"; "2"; "+"; "3"]%string.
Proof.
  split; [reflexivity|].
  apply (buttons_append_and_clear py_parse libm_nan ["7"; "="]%string
           ["1"; "2"; "+"; "3"]%string (App "9*" initial_world [] [] [] plots_all [])).
  reflexivity.
Defined.

Lemma occurs_step sub c s :
  occurs sub s = true -> occurs sub (String c s) = true.
Proof. intros H. cbn [occurs]. rewrite H. apply orb_true_r. Qed.

Lemma prefix_text_over sub s :
  String.prefix sub s = true -> text_over s sub = true.
Proof.
  revert s. induction sub as [|c sub IH]; intros s H; [reflexivity|].
  destruct s as [|c' s]; [discriminate|]. cbn [String.prefix] in H.
  destruct (ascii_dec c c') as [<-|]; [|discriminate].
  cbn [text_over]. apply andb_true_iff. split.
  - cbn [occurs String.prefix]. destruct (ascii_dec c c); [destruct s; reflexivity|congruence].
  - specialize (IH s H). clear H.
    induction sub as [|x sub IHs]; [reflexivity|].
    cbn [text_over] in IH |- *. apply andb_true_iff in IH as [H1 H2].
    rewrite (occurs_step _ c s H1). cbn [andb]. apply IHs. exact H2.
Qed.

Lemma text_over_step alphabet c s :
  text_over alphabet s = true -> text_over (String c alphabet) s = true.
Proof.
  induction s as [|x s IH]; [reflexivity|]. cbn [text_over]. intros H.
  apply andb_true_iff in H as [H1 H2].
  rewrite (occurs_step _ c alphabet H1), (IH H2). reflexivity.
Qed.

Lemma occurs_text_over sub s :
  occurs sub s = true -> text_over s sub = true.
Proof.
  induction s as [|c s IH]; cbn [occurs]; intros H.
  - rewrite orb_false_r in H. apply prefix_text_over. exact H.
  - apply orb_true_iff in H as [H|H].
    + apply prefix_text_over. exact H.
    + apply text_over_step, IH, H.
Qed.

Lemma text_over_append alphabet a b :
  text_over alphabet (a ++ b)%string = text_over alphabet a && text_over alphabet b.
Proof.
  induction a as [|c a IH]; [reflexivity|].
  change (text_over alphabet (String c (a ++ b)%string)
          = text_over alphabet (String c a) && text_over alphabet b).
  cbn [text_over]. rewrite IH, andb_assoc. reflexivity.
Qed.

Lemma keypress_keeps_typed_text ast_parse m e self :
  String.eqb (keysym e) "Return" = false ->
  typed_text (expression_var self) = true ->
  typed_text (expression_var (_on_keypress ast_parse m e self)) = true.
Proof.
  intros K T. unfold _on_keypress. rewrite K.
  destruct (occurs (char e) typed_characters) eqn:O.
  - cbn [set_expression expression_var]. unfold typed_text.
    rewrite text_over_append. apply andb_true_iff. split; [exact T|].
    apply occurs_text_over. exact O.
  - destruct (String.eqb (keysym e) "Escape"); [reflexivity|].
    destruct (String.eqb (lower (keysym e)) "g"); [|exact T].
    rewrite graph_keeps_text. exact T.
Qed.

(** X10.  The keys type nothing but the fifteen characters of
    "0123456789.+-*/": as long as no key is Return, a run of key events
    on a text made of those characters leaves a text made of them, so
    neither a name (the [x] of a graph among them) nor a parenthesis can
    be entered from the keyboard handler. *)
Theorem keyboard_types_calculator_text ast_parse m events self :
  forallb (fun e => negb (String.eqb (keysym e) "Return")) events = true ->
  typed_text (expression_var self) = true ->
  typed_text (expression_var (type_all ast_parse m events self)) = true.
Proof.
  revert self. induction events as [|e events IH]; intros self H T; [exact T|].
  cbn [forallb] in H. apply andb_true_iff in H as [H1 H2].
  rewrite type_all_cons.
  apply IH; [exact H2|]. apply keypress_keeps_typed_text; [|exact T].
  destruct (String.eqb (keysym e) "Return"); [discriminate|reflexivity].
Qed.

Lemma keyboard_types_calculator_text_witness :
  forallb (fun e => negb (String.eqb (keysym e) "Return"))
    [Event "2" "2"; Event "x" "x"; Event "(" "parenleft"; Event "*" "asterisk";
     Event "" "Shift_L"; Event "5" "5"]%string = true
  /\ typed_text (expression_var new_app) = true
  /\ typed_text
       (expression_var
          (type_all py_parse libm_nan
             [Event "2" "2"; Event "x" "x"; Event "(" "parenleft"; Event "*" "asterisk";
              Event "" "Shift_L"; Event "5" "5"]%string new_app)) = true.
Proof.
  split; [reflexivity|]. split; [reflexivity|].
  apply (keyboard_types_calculator_text py_parse libm_nan
           [Event "2" "2"; Event "x" "x"; Event "(" "parenleft"; Event "*" "asterisk";
            Event "" "Shift_L"; Event "5" "5"]%string new_app); reflexivity.
Defined.

(** X11.  A key event without a character changes nothing, whatever its
    keysym: the empty string occurs in "0123456789.+-*/", so the first
    branch of the handler takes it and appends nothing, and Return,
    Escape or g sent that way neither evaluate, clear nor plot. *)
Theorem keypress_without_character ast_parse m key self :
  _on_keypress ast_parse m (Event "" key) self = self.
Proof.
  unfold _on_keypress. cbn [char occurs typed_characters String.prefix orb].
  unfold set_expression. rewrite append_empty. destruct self; reflexivity.
Qed.

(** X12.  The command line and the "=" button agree.  On an expression
    that is not empty, [main] prints exactly the text that [_evaluate]
    would show when [safe_eval] returns a value that [str] prints, and
    exits with status 1 on the error of [safe_eval] or of [str] that
    makes [_evaluate] show "Error"; neither changes a dict of the heap.
    Without an expression, or with the empty one, [main] evaluates
    nothing and starts the GUI. *)
Theorem main_agrees_with_evaluate ast_parse m c text w self :
  expression_var self = String c text -> interpreter self = w ->
  match fst (fst (main ast_parse m (Some (String c text)) w)) with
  | Printed shown =>
      (exists result,
         fst (safe_eval ast_parse m (String c text) None w) = Return result
         /\ py_str result = Return shown)
      /\ expression_var (_evaluate ast_parse m self) = shown
  | Exit1 exc =>
      (fst (safe_eval ast_parse m (String c text) None w) = Raise exc
       \/ exists result,
            fst (safe_eval ast_parse m (String c text) None w) = Return result
            /\ py_str result = Raise exc)
      /\ expression_var (_evaluate ast_parse m self) = "Error"%string
  | Gui => False
  end
  /\ heap w ⊆ heap (snd (main ast_parse m (Some (String c text)) w))
  /\ main ast_parse m None w = (Gui, [], w)
  /\ main ast_parse m (Some ""%string) w = (Gui, [], w).
Proof.
  intros E I. rewrite evaluate_shows, E, I. unfold main.
  pose proof (proj1 (proj2 (safe_eval_spec ast_parse m (String c text) None w))) as S.
  destruct (safe_eval ast_parse m (String c text) None w) as [[result|exc] w'];
    cbn [fst snd] in *.
  - destruct (py_str result) as [shown|exc] eqn:P; cbn [fst snd]; repeat split; eauto.
  - repeat split; eauto.
Qed.

Lemma main_agrees_with_evaluate_witness :
  expression_var (App "1/4" initial_world [] [] [] plots_all []) = "1/4"%string
  /\ interpreter (App "1/4" initial_world [] [] [] plots_all []) = initial_world
  /\ fst (fst (main py_parse libm_nan (Some "1/4"%string) initial_world)) = Printed "0.25"
  /\ expression_var (_evaluate py_parse libm_nan (App "1/4" initial_world [] [] [] plots_all []))
     = "0.25"%string.
Proof.
  split; [reflexivity|]. split; [reflexivity|]. split; [vm_compute; reflexivity|].
  pose proof (proj1 (main_agrees_with_evaluate py_parse libm_nan "1" "/4" initial_world
                       (App "1/4" initial_world [] [] [] plots_all []) eq_refl eq_refl)) as H.
  change (fst (fst (main py_parse libm_nan (Some "1/4"%string) initial_world)))
    with (Printed "0.25") in H.
  exact (proj2 H).
Defined.

(** ** What a call logs, and which operand fails first *)

(** X13.  Every call of [safe_eval] writes one debug record, the
    expression with the contents of the environment, and writes it
    before parsing: the record is there whether the call returns or
    raises, a syntax error included. *)
Theorem safe_eval_logs_the_expression ast_parse m expression variables w :
  log (snd (safe_eval ast_parse m expression variables w))
    = log w ++ [(expression, env_of w variables)].
Proof.
  destruct (or_new_dict_spec variables w) as (d & w' & H1 & H2 & _ & _ & H5).
  unfold safe_eval, bind. rewrite H1. unfold logger_debug, lift.
  destruct (ast_parse expression) as [tree|e]; cbn [fst snd log].
  - rewrite _eval_eval_tree. cbn [snd log]. rewrite H2, H5. reflexivity.
  - rewrite H2, H5. reflexivity.
Qed.

(** X14.  The operands of an allowed binary operator are evaluated left
    to right and the first failure is the one reported: when the left
    operand raises, that error is raised whatever the right operand is
    (an unsupported node included), and when the left operand returns
    and the right one raises, the error of the right one is raised. *)
Theorem left_operand_fails_first m d op l r w exc :
  contains _ALLOWED_OPERATORS (ast.BinClass op) = true ->
  (_eval m d l w = (Raise exc, w) ->
     _eval m d (ast.BinOp l op r) w = (Raise exc, w))
  /\ (forall x, _eval m d l w = (Return x, w) -> _eval m d r w = (Raise exc, w) ->
     _eval m d (ast.BinOp l op r) w = (Raise exc, w)).
Proof.
  intros H. cbn [_eval]. rewrite H. unfold bind. split.
  - intros ->. reflexivity.
  - intros x -> ->. reflexivity.
Qed.

Lemma left_operand_fails_first_witness :
  contains _ALLOWED_OPERATORS (ast.BinClass ast.Add) = true
  /\ _eval libm_nan 1%positive (ast.Name "y") initial_world
       = (Raise (ValueError (UndefinedVariable "y")), initial_world)
  /\ _eval libm_nan 1%positive
       (ast.BinOp (ast.Name "y") ast.Add (ast.Call (ast.Name "sin") [])) initial_world
       = (Raise (ValueError (UndefinedVariable "y")), initial_world).
Proof.
  split; [reflexivity|]. split; [reflexivity|].
  apply (proj1 (left_operand_fails_first libm_nan 1%positive ast.Add (ast.Name "y")
                  (ast.Call (ast.Name "sin") []) initial_world
                  (ValueError (UndefinedVariable "y")) eq_refl)).
  reflexivity.
Defined.
